(** * markusapi: a shallow embedding of [markusapi/markusapi.py]

    The module is a thin client for the MarkUs HTTP API.  This development
    embeds class [Markus] as Rocq functions:

    - Python values are the inductive [pyval]; [str] is a sequence of code
      points, [bytes] a sequence of octets, a [dict] an insertion-ordered
      association list with unique keys;
    - exceptions are the [Raise] branch of [outcome];
    - the network is an oracle answering each request, and the methods that
      talk to it run in a small state-and-error monad whose state is the
      trace of requests sent so far;
    - the functions of the Python standard library whose text matters here
      ([urllib.parse.urlencode], [bytes.decode], [json.loads]) are written
      out; [urlparse], [mimetypes.guess_type], [repr] and what depends on
      floating point are fields of the interface [PyLib]. *)

From Stdlib Require Import List NArith ZArith Lia Bool String Ascii.
From Stdlib Require Import Strings.Byte DecimalString.
From Stdlib Require DecimalPos.
Import ListNotations.

Open Scope N_scope.

(** ** Text and octets *)

(** A code point is a number; [str] is a sequence of them. *)
Abbreviation codepoint := N (only parsing).
Definition str := list codepoint.
Definition bytes := list byte.

Definition byte_of_N (n : N) : byte :=
  match Byte.of_N n with Some b => b | None => x00 end.

(** A source-code literal: every character of an ASCII literal is its own
    code point. *)
Definition u (s : string) : str :=
  List.map N_of_ascii (list_ascii_of_string s).

(** A bytes literal. *)
Definition b (s : string) : bytes :=
  List.map byte_of_ascii (list_ascii_of_string s).

(** A literal that holds double quotes, written with an apostrophe for
    each of them. *)
Definition q (s : string) : str :=
  List.map (fun c => if c =? 0x27 then 0x22 else c) (u s).

Definition str_eqb (s t : str) : bool :=
  if list_eq_dec N.eq_dec s t then true else false.

Definition str_in (c : codepoint) (s : str) : bool :=
  existsb (N.eqb c) s.

(** ['sep'.join(parts)] *)
Fixpoint str_join (sep : str) (parts : list str) : str :=
  match parts with
  | [] => []
  | [p] => p
  | p :: rest => p ++ sep ++ str_join sep rest
  end.

(** ** Exceptions *)

Inductive exn : Type :=
| AssertionError
| ValueError (msg : string)
| TypeError
| AttributeError
| UnicodeEncodeError
| UnicodeDecodeError
| JSONDecodeError
| TransportFault.

Inductive outcome (A : Type) : Type :=
| Ok (a : A)
| Raise (e : exn).
Arguments Ok {A} a.
Arguments Raise {A} e.

Definition obind {A B} (x : outcome A) (k : A -> outcome B) : outcome B :=
  match x with
  | Ok a => k a
  | Raise e => Raise e
  end.

Definition omap {A B} (f : A -> B) (x : outcome A) : outcome B :=
  obind x (fun a => Ok (f a)).

Definition of_option {A} (e : exn) (x : option A) : outcome A :=
  match x with Some a => Ok a | None => Raise e end.

Declare Scope outcome_scope.
Delimit Scope outcome_scope with outcome.
Notation "'let?' x ':=' e 'in' k" := (obind e (fun x => k))
  (at level 10, x pattern, e at level 200, k at level 200) : outcome_scope.
Open Scope outcome_scope.

(** ** UTF-8

    [str.encode('utf-8')] and [bytes.decode('utf-8')], both with the default
    ['strict'] error handler: a lone surrogate cannot be encoded, and
    overlong forms, encoded surrogates and values above U+10FFFF cannot be
    decoded. *)

Definition is_surrogate (c : codepoint) : bool :=
  (0xD800 <=? c) && (c <=? 0xDFFF).

Definition utf8_encode_cp (c : codepoint) : option bytes :=
  if c <? 0x80 then Some [byte_of_N c]
  else if c <? 0x800 then
    Some [byte_of_N (0xC0 + c / 64); byte_of_N (0x80 + c mod 64)]
  else if c <? 0x10000 then
    if is_surrogate c then None
    else Some [byte_of_N (0xE0 + c / 4096);
               byte_of_N (0x80 + (c / 64) mod 64);
               byte_of_N (0x80 + c mod 64)]
  else if c <? 0x110000 then
    Some [byte_of_N (0xF0 + c / 262144);
          byte_of_N (0x80 + (c / 4096) mod 64);
          byte_of_N (0x80 + (c / 64) mod 64);
          byte_of_N (0x80 + c mod 64)]
  else None.

Fixpoint utf8_encode (s : str) : option bytes :=
  match s with
  | [] => Some []
  | c :: s' =>
    match utf8_encode_cp c, utf8_encode s' with
    | Some bs, Some rest => Some (bs ++ rest)
    | _, _ => None
    end
  end.

(** [s.encode('utf-8')] *)
Definition str_encode (s : str) : outcome bytes :=
  of_option UnicodeEncodeError (utf8_encode s).

Definition is_cont (x : byte) : bool :=
  (0x80 <=? Byte.to_N x) && (Byte.to_N x <=? 0xBF).

Definition cont_bits (x : byte) : N := Byte.to_N x - 0x80.

Fixpoint utf8_decode (bs : bytes) : option str :=
  match bs with
  | [] => Some []
  | b0 :: r0 =>
    let n0 := Byte.to_N b0 in
    if n0 <? 0x80 then option_map (cons n0) (utf8_decode r0)
    else if (0xC2 <=? n0) && (n0 <=? 0xDF) then
      match r0 with
      | b1 :: r1 =>
        if is_cont b1
        then option_map (cons ((n0 - 0xC0) * 64 + cont_bits b1))
                        (utf8_decode r1)
        else None
      | _ => None
      end
    else if (0xE0 <=? n0) && (n0 <=? 0xEF) then
      match r0 with
      | b1 :: b2 :: r2 =>
        let c := (n0 - 0xE0) * 4096 + cont_bits b1 * 64 + cont_bits b2 in
        if is_cont b1 && is_cont b2 && (0x800 <=? c) && negb (is_surrogate c)
        then option_map (cons c) (utf8_decode r2)
        else None
      | _ => None
      end
    else if (0xF0 <=? n0) && (n0 <=? 0xF4) then
      match r0 with
      | b1 :: b2 :: b3 :: r3 =>
        let c := (n0 - 0xF0) * 262144 + cont_bits b1 * 4096
                 + cont_bits b2 * 64 + cont_bits b3 in
        if is_cont b1 && is_cont b2 && is_cont b3
           && (0x10000 <=? c) && (c <? 0x110000)
        then option_map (cons c) (utf8_decode r3)
        else None
      | _ => None
      end
    else None
  end.

(** [bs.decode('utf-8')] *)
Definition bytes_decode (bs : bytes) : outcome str :=
  of_option UnicodeDecodeError (utf8_decode bs).

(** The strings [str.encode] accepts: Unicode scalar values only. *)
Definition scalar (c : codepoint) : bool :=
  (c <? 0x110000) && negb (is_surrogate c).

Definition encodable (s : str) : bool := forallb scalar s.

(** ** Python values *)

(** A float is carried by a decimal literal that denotes it; what the
    interpreter computes from it is left to [PyLib]. *)
#[warnings="-register-all"]
Inductive pyval : Type :=
| PNone
| PBool (v : bool)
| PInt (v : Z)
| PFloat (lit : str)
| PStr (s : str)
| PBytes (bs : bytes)
| PList (items : list pyval)
| PDict (items : list (str * pyval)).

(** A [dict] with [str] keys, in insertion order. *)
Definition dict (V : Type) := list (str * V).

(** [d.get(k)] *)
Fixpoint dict_get {V} (d : dict V) (k : str) : option V :=
  match d with
  | [] => None
  | (k', v) :: rest => if str_eqb k' k then Some v else dict_get rest k
  end.

(** [d[k] = v]: an existing key keeps its place. *)
Fixpoint dict_set {V} (d : dict V) (k : str) (v : V) : dict V :=
  match d with
  | [] => [(k, v)]
  | (k', v') :: rest =>
    if str_eqb k' k then (k', v) :: rest else (k', v') :: dict_set rest k v
  end.

(** [dict(items)] *)
Definition dict_of_items {V} (items : list (str * V)) : dict V :=
  fold_left (fun d kv => dict_set d (fst kv) (snd kv)) items [].

Definition dict_keys {V} (d : dict V) : list str := List.map fst d.

(** [isinstance(v, str)] *)
Definition is_str (v : pyval) : bool :=
  match v with PStr _ => true | _ => false end.

(** [ff.get(k)] on a decoded JSON object: [None] for a missing key. *)
Definition py_get (d : dict pyval) (k : str) : pyval :=
  match dict_get d k with Some v => v | None => PNone end.

(** [v == s] for a [str] [s]: only an equal [str] compares equal. *)
Definition py_eq_str (v : pyval) (s : str) : bool :=
  match v with PStr t => str_eqb t s | _ => false end.

(** [str(n)] for an [int] *)
Definition int_str (z : Z) : str := u (NilZero.string_of_int (Z.to_int z)).

(** ** The part of the standard library taken as given *)

(** The fields of [urllib.parse.urlparse(url)] the client reads. *)
Module Url.
Record ParseResult : Type := {
  scheme : str;
  netloc : str;
  path : str
}.
End Url.

Class PyLib : Type := {
  (** [urllib.parse.urlparse] *)
  urlparse : str -> outcome Url.ParseResult;
  (** [mimetypes.guess_type(name)[0]] *)
  guess_type : str -> option str;
  (** [repr] of the float a literal denotes, and its truth value *)
  float_repr : str -> str;
  float_truth : str -> bool;
  (** [repr] of a [str] and of a [bytes] *)
  str_repr : str -> str;
  bytes_repr : bytes -> str
}.

Section Values.
Context {lib : PyLib}.

(** [repr(v)] *)
Fixpoint py_repr (v : pyval) : str :=
  match v with
  | PNone => u "None"
  | PBool true => u "True"
  | PBool false => u "False"
  | PInt z => int_str z
  | PFloat lit => float_repr lit
  | PStr s => str_repr s
  | PBytes bs => bytes_repr bs
  | PList items =>
    u "[" ++ str_join (u ", ") (List.map py_repr items) ++ u "]"
  | PDict items =>
    u "{"
    ++ str_join (u ", ")
         (List.map (fun kv => str_repr (fst kv) ++ u ": " ++ py_repr (snd kv))
                   items)
    ++ u "}"
  end.

(** [str(v)], also what ['{}'.format(v)] inserts *)
Definition py_str (v : pyval) : str :=
  match v with
  | PStr s => s
  | _ => py_repr v
  end.

(** [bool(v)], the test of [if v:] *)
Definition py_truth (v : pyval) : bool :=
  match v with
  | PNone => false
  | PBool t => t
  | PInt z => negb (Z.eqb z 0)
  | PFloat lit => float_truth lit
  | PStr s => negb (Nat.eqb (List.length s) 0)
  | PBytes bs => negb (Nat.eqb (List.length bs) 0)
  | PList items => negb (Nat.eqb (List.length items) 0)
  | PDict items => negb (Nat.eqb (List.length items) 0)
  end.

End Values.

(** ** [urllib.parse]: percent-encoding *)

Definition ch (a : ascii) : codepoint := N_of_ascii a.

Definition byte_in (x : byte) (l : bytes) : bool :=
  existsb (Byte.eqb x) l.

(** [_ALWAYS_SAFE]: the unreserved characters of RFC 3986. *)
Definition always_safe (x : byte) : bool :=
  let n := Byte.to_N x in
  ((0x41 <=? n) && (n <=? 0x5A))        (* A-Z *)
  || ((0x61 <=? n) && (n <=? 0x7A))     (* a-z *)
  || ((0x30 <=? n) && (n <=? 0x39))     (* 0-9 *)
  || byte_in x (b "_.-~").

(** One upper-case hexadecimal digit, as ['{:02X}'] prints it. *)
Definition hex_digit (n : N) : codepoint :=
  if n <? 10 then 0x30 + n else 0x41 + (n - 10).

(** [_Quoter.__missing__]: [chr(b) if b in safe else '%{:02X}'.format(b)] *)
Definition quoter (safe : bytes) (x : byte) : str :=
  if always_safe x || byte_in x safe then [Byte.to_N x]
  else [ch "%"; hex_digit (Byte.to_N x / 16); hex_digit (Byte.to_N x mod 16)].

(** [quote_from_bytes(bs, safe)] *)
Definition quote_from_bytes (bs : bytes) (safe : bytes) : str :=
  flat_map (quoter safe) bs.

(** [quote(string, safe)] for a [str]: encode, then quote the octets. *)
Definition quote (s : str) (safe : bytes) : outcome str :=
  let? bs := str_encode s in Ok (quote_from_bytes bs safe).

(** [s.replace(old, new)] for one-character [old] and [new] *)
Definition str_replace (old new : codepoint) (s : str) : str :=
  List.map (fun c => if c =? old then new else c) s.

(** [quote_plus(string)] for a [str]: a space becomes ['+']. *)
Definition quote_plus (s : str) : outcome str :=
  if str_in (ch " ") s
  then let? q := quote s (b " ") in Ok (str_replace (ch " ") (ch "+") q)
  else quote s [].

(** [quote_plus(string)] for a [bytes] *)
Definition quote_plus_bytes (bs : bytes) : str :=
  if byte_in " "%byte bs
  then str_replace (ch " ") (ch "+") (quote_from_bytes bs (b " "))
  else quote_from_bytes bs [].

(** [mapM] over a list, left to right; the first exception wins. *)
Fixpoint traverse {A B} (f : A -> outcome B) (l : list A) : outcome (list B) :=
  match l with
  | [] => Ok []
  | a :: rest =>
    let? x := f a in
    let? xs := traverse f rest in
    Ok (x :: xs)
  end.

Section Urlencode.
Context {lib : PyLib}.

(** The loop body of [urlencode]: a [bytes] value is quoted as it is, any
    other value through [str(v)]. *)
Definition quote_value (v : pyval) : outcome str :=
  match v with
  | PBytes bs => Ok (quote_plus_bytes bs)
  | _ => quote_plus (py_str v)
  end.

Definition urlencode_item (kv : str * pyval) : outcome str :=
  let? k := quote_plus (fst kv) in
  let? v := quote_value (snd kv) in
  Ok (k ++ u "=" ++ v).

(** [urlencode(query)] for a mapping *)
Definition urlencode (query : dict pyval) : outcome str :=
  let? l := traverse urlencode_item query in
  Ok (str_join (u "&") l).

End Urlencode.

(** ** [urllib.parse]: reading a query string back

    The client never parses a query string; the parser is the library's
    [parse_qsl(qs, keep_blank_values, errors='strict')], the inverse
    [urlencode] is meant for, followed by [dict(...)]. *)

Definition hex_value (x : byte) : option N :=
  let n := Byte.to_N x in
  if (0x30 <=? n) && (n <=? 0x39) then Some (n - 0x30)
  else if (0x41 <=? n) && (n <=? 0x46) then Some (n - 0x41 + 10)
  else if (0x61 <=? n) && (n <=? 0x66) then Some (n - 0x61 + 10)
  else None.

(** [unquote_to_bytes]: ['%XX'] becomes one octet, a ['%'] that is not
    followed by two hexadecimal digits is kept. *)
Fixpoint unquote_to_bytes (bs : bytes) : bytes :=
  match bs with
  | [] => []
  | x :: rest =>
    if Byte.eqb x "%"%byte then
      match rest with
      | h :: l :: rest' =>
        match hex_value h, hex_value l with
        | Some hi, Some lo => byte_of_N (16 * hi + lo) :: unquote_to_bytes rest'
        | _, _ => x :: unquote_to_bytes rest
        end
      | _ => x :: unquote_to_bytes rest
      end
    else x :: unquote_to_bytes rest
  end.

(** The ASCII run collected so far (latest character first) is unquoted
    and decoded. *)
Definition unquote_run (run : bytes) : outcome str :=
  bytes_decode (unquote_to_bytes (rev run)).

(** [unquote]: runs of ASCII characters are unquoted and decoded, other
    characters are kept. *)
Fixpoint unquote_from (s : str) (run : bytes) : outcome str :=
  match s with
  | [] => unquote_run run
  | c :: s' =>
    if c <? 0x80 then unquote_from s' (byte_of_N c :: run)
    else
      let? done := unquote_run run in
      let? rest := unquote_from s' [] in
      Ok (done ++ c :: rest)
  end.

Definition unquote (s : str) : outcome str :=
  if str_in (ch "%") s then unquote_from s [] else Ok s.

(** [s.split(sep)] for a one-character separator *)
Fixpoint str_split (sep : codepoint) (s : str) : list str :=
  match s with
  | [] => [[]]
  | c :: s' =>
    if c =? sep then [] :: str_split sep s'
    else
      match str_split sep s' with
      | h :: t => (c :: h) :: t
      | [] => [[c]]
      end
  end.

(** [s.split(sep, 1)]: [(head, None)] when [sep] does not occur *)
Fixpoint str_split1 (sep : codepoint) (s : str) : str * option str :=
  match s with
  | [] => ([], None)
  | c :: s' =>
    if c =? sep then ([], Some s')
    else let (h, t) := str_split1 sep s' in (c :: h, t)
  end.

Definition parse_field (keep_blank_values : bool) (name_value : str)
  : outcome (list (str * str)) :=
  if Nat.eqb (List.length name_value) 0 then Ok []
  else
    let (name, rest) := str_split1 (ch "=") name_value in
    match rest, keep_blank_values with
    | None, false => Ok []
    | _, _ =>
      let value := match rest with Some v => v | None => [] end in
      if negb (Nat.eqb (List.length value) 0) || keep_blank_values then
        let? n := unquote (str_replace (ch "+") (ch " ") name) in
        let? v := unquote (str_replace (ch "+") (ch " ") value) in
        Ok [(n, v)]
      else Ok []
    end.

Definition parse_qsl (keep_blank_values : bool) (qs : str)
  : outcome (list (str * str)) :=
  let? fields := traverse (parse_field keep_blank_values)
                          (str_split (ch "&") qs) in
  Ok (List.concat fields).

(** [dict(parse_qsl(qs, keep_blank_values=True))] *)
Definition parse_query (qs : str) : outcome (dict str) :=
  let? items := parse_qsl true qs in Ok (dict_of_items items).

Definition str_values (d : dict str) : dict pyval :=
  List.map (fun kv => (fst kv, PStr (snd kv))) d.

(** ** [json.loads]

    The decoder of the standard library, with its defaults ([strict=True],
    [NaN], [Infinity] and [-Infinity] accepted).  Every failure is a
    [JSONDecodeError].  The scanner recurses on nested values; [fuel] bounds
    the nesting, and the length of the text is always enough
    (see [scan_once_fuel]). *)

Inductive scan (A : Type) : Type :=
| Scanned (a : A) (rest : str)
| Invalid
| Exhausted.
Arguments Scanned {A} a rest.
Arguments Invalid {A}.
Arguments Exhausted {A}.

Definition dquote : codepoint := 0x22.

Definition is_ws (c : codepoint) : bool :=
  (c =? 0x20) || (c =? 0x09) || (c =? 0x0A) || (c =? 0x0D).

Fixpoint skip_ws (s : str) : str :=
  match s with
  | c :: r => if is_ws c then skip_ws r else s
  | [] => []
  end.

Definition is_digit (c : codepoint) : bool := (0x30 <=? c) && (c <=? 0x39).

Definition hex_of_cp (c : codepoint) : option N :=
  if is_digit c then Some (c - 0x30)
  else if (0x41 <=? c) && (c <=? 0x46) then Some (c - 0x41 + 10)
  else if (0x61 <=? c) && (c <=? 0x66) then Some (c - 0x61 + 10)
  else None.

Definition hex4 (h1 h2 h3 h4 : codepoint) : option N :=
  match hex_of_cp h1, hex_of_cp h2, hex_of_cp h3, hex_of_cp h4 with
  | Some a, Some b, Some c, Some d => Some (((a * 16 + b) * 16 + c) * 16 + d)
  | _, _, _, _ => None
  end.

(** A [\uD8xx] escape directly followed by a [\uDCxx] escape is one
    character outside the basic plane. *)
Definition surrogate_pair (hi : N) (bs uu k1 k2 k3 k4 : codepoint) : option N :=
  if (0xD800 <=? hi) && (hi <=? 0xDBFF) && (bs =? ch "\") && (uu =? ch "u")
  then
    match hex4 k1 k2 k3 k4 with
    | Some lo =>
      if (0xDC00 <=? lo) && (lo <=? 0xDFFF)
      then Some (0x10000 + ((hi - 0xD800) * 1024 + (lo - 0xDC00)))
      else None
    | None => None
    end
  else None.

(** [BACKSLASH]: the one-character escapes *)
Definition simple_escape (e : codepoint) : option codepoint :=
  if e =? dquote then Some (dquote)
  else if e =? ch "\" then Some (ch "\")
  else if e =? ch "/" then Some (ch "/")
  else if e =? ch "b" then Some 0x08
  else if e =? ch "f" then Some 0x0C
  else if e =? ch "n" then Some 0x0A
  else if e =? ch "r" then Some 0x0D
  else if e =? ch "t" then Some 0x09
  else None.

Definition push {A} (c : A) (r : option (list A * str)) : option (list A * str) :=
  match r with
  | Some (t, rest) => Some (c :: t, rest)
  | None => None
  end.

(** [scanstring], entered after the opening quote: the text of the string
    and what follows its closing quote. *)
Fixpoint scanstring (s : str) : option (str * str) :=
  match s with
  | [] => None
  | c :: r =>
    if c =? dquote then Some ([], r)
    else if c =? ch "\" then
      match r with
      | [] => None
      | e :: r1 =>
        if e =? ch "u" then
          match r1 with
          | h1 :: h2 :: h3 :: h4 :: r2 =>
            match hex4 h1 h2 h3 h4 with
            | None => None
            | Some uni =>
              match r2 with
              | bs :: uu :: k1 :: k2 :: k3 :: k4 :: r3 =>
                match surrogate_pair uni bs uu k1 k2 k3 k4 with
                | Some cp => push cp (scanstring r3)
                | None => push uni (scanstring r2)
                end
              | _ => push uni (scanstring r2)
              end
            end
          | _ => None
          end
        else
          match simple_escape e with
          | Some x => push x (scanstring r1)
          | None => None
          end
      end
    else if c <? 0x20 then None
    else push c (scanstring r)
  end.

Fixpoint span_digits (s : str) : str * str :=
  match s with
  | c :: r =>
    if is_digit c then let (d, r') := span_digits r in (c :: d, r')
    else ([], s)
  | [] => ([], [])
  end.

(** An optional minus, then a zero or a digit string without a leading
    zero: the sign, the digits and the rest *)
Definition scan_integer (s : str) : option (bool * str * str) :=
  let (neg, s1) :=
    match s with
    | c :: r => if c =? ch "-" then (true, r) else (false, s)
    | [] => (false, s)
    end in
  match s1 with
  | c :: r =>
    if c =? ch "0" then Some (neg, [c], r)
    else if is_digit c then let (d, r') := span_digits r in Some (neg, c :: d, r')
    else None
  | [] => None
  end.

(** An optional fraction: a dot and at least one digit *)
Definition scan_frac (s : str) : str * str :=
  match s with
  | c :: r =>
    if c =? ch "." then
      match span_digits r with
      | ([], _) => ([], s)
      | (d, r') => (c :: d, r')
      end
    else ([], s)
  | [] => ([], s)
  end.

(** An optional exponent: [e] or [E], an optional sign, at least one
    digit *)
Definition scan_exp (s : str) : str * str :=
  match s with
  | c :: r =>
    if (c =? ch "e") || (c =? ch "E") then
      let (sgn, r1) :=
        match r with
        | g :: r' => if (g =? ch "-") || (g =? ch "+") then ([g], r') else ([], r)
        | [] => ([], r)
        end in
      match span_digits r1 with
      | ([], _) => ([], s)
      | (d, r2) => (c :: sgn ++ d, r2)
      end
    else ([], s)
  | [] => ([], s)
  end.

(** [int(digits)] *)
Definition digits_value (d : str) : Z :=
  fold_left (fun acc c => (10 * acc + Z.of_N (c - 0x30))%Z) d 0%Z.

Definition scan_number (s : str) : option (pyval * str) :=
  match scan_integer s with
  | None => None
  | Some (neg, ip, s2) =>
    let (fr, s3) := scan_frac s2 in
    let (ex, s4) := scan_exp s3 in
    match fr, ex with
    | [], [] =>
      Some (PInt (if neg then - digits_value ip else digits_value ip)%Z, s4)
    | _, _ =>
      Some (PFloat ((if neg then u "-" else []) ++ ip ++ fr ++ ex), s4)
    end
  end.

(** [s[idx:idx + len(word)] == word], and what follows the word *)
Fixpoint strip_prefix (word s : str) : option str :=
  match word, s with
  | [], _ => Some s
  | w :: word', c :: s' => if c =? w then strip_prefix word' s' else None
  | _ :: _, [] => None
  end.

Definition scan_word (word : str) (v : pyval) (s : str) : scan pyval :=
  match strip_prefix word s with
  | Some rest => Scanned v rest
  | None => Invalid
  end.

Definition scan_of_option {A B} (f : A -> B) (r : option (A * str)) : scan B :=
  match r with
  | Some (a, rest) => Scanned (f a) rest
  | None => Invalid
  end.

(** [scan_once], [JSONObject] and [JSONArray].  [scan_members] is entered
    at the quote that opens a key, [scan_elements] at the first character
    of an element; [acc] holds what was read so far, latest first. *)
Fixpoint scan_once (fuel : nat) (s : str) : scan pyval :=
  match fuel with
  | O => Exhausted
  | S fuel' =>
    match s with
    | [] => Invalid
    | c :: r =>
      if c =? dquote then scan_of_option PStr (scanstring r)
      else if c =? ch "{" then
        match skip_ws r with
        | c1 :: r1 =>
          if c1 =? ch "}" then Scanned (PDict []) r1
          else scan_members fuel' (c1 :: r1) []
        | [] => Invalid
        end
      else if c =? ch "[" then
        match skip_ws r with
        | c1 :: r1 =>
          if c1 =? ch "]" then Scanned (PList []) r1
          else scan_elements fuel' (c1 :: r1) []
        | [] => Invalid
        end
      else if c =? ch "n" then scan_word (u "null") PNone s
      else if c =? ch "t" then scan_word (u "true") (PBool true) s
      else if c =? ch "f" then scan_word (u "false") (PBool false) s
      else if c =? ch "N" then scan_word (u "NaN") (PFloat (u "NaN")) s
      else if c =? ch "I" then
        scan_word (u "Infinity") (PFloat (u "Infinity")) s
      else
        match scan_number s with
        | Some (v, rest) => Scanned v rest
        | None =>
          if c =? ch "-"
          then scan_word (u "-Infinity") (PFloat (u "-Infinity")) s
          else Invalid
        end
    end
  end

with scan_members (fuel : nat) (s : str) (acc : list (str * pyval))
  : scan pyval :=
  match fuel with
  | O => Exhausted
  | S fuel' =>
    match s with
    | [] => Invalid
    | c :: r =>
      if c =? dquote then
        match scanstring r with
        | None => Invalid
        | Some (key, r1) =>
          match skip_ws r1 with
          | [] => Invalid
          | c1 :: r2 =>
            if c1 =? ch ":" then
              match scan_once fuel' (skip_ws r2) with
              | Scanned v r3 =>
                match skip_ws r3 with
                | [] => Invalid
                | c2 :: r4 =>
                  if c2 =? ch "}" then
                    Scanned (PDict (dict_of_items (rev ((key, v) :: acc)))) r4
                  else if c2 =? ch "," then
                    scan_members fuel' (skip_ws r4) ((key, v) :: acc)
                  else Invalid
                end
              | Invalid => Invalid
              | Exhausted => Exhausted
              end
            else Invalid
          end
        end
      else Invalid
    end
  end

with scan_elements (fuel : nat) (s : str) (acc : list pyval) : scan pyval :=
  match fuel with
  | O => Exhausted
  | S fuel' =>
    match scan_once fuel' s with
    | Scanned v r1 =>
      match skip_ws r1 with
      | [] => Invalid
      | c :: r2 =>
        if c =? ch "]" then Scanned (PList (rev (v :: acc))) r2
        else if c =? ch "," then scan_elements fuel' (skip_ws r2) (v :: acc)
        else Invalid
      end
    | Invalid => Invalid
    | Exhausted => Exhausted
    end
  end.

(** Fuel that is always enough for a text [s]. *)
Definition json_fuel (s : str) : nat := 2 * List.length s + 2.

(** [json.loads(s)] for a [str] *)
Definition json_loads (s : str) : outcome pyval :=
  match s with
  | 0xFEFF :: _ => Raise JSONDecodeError
  | _ =>
    match scan_once (json_fuel s) (skip_ws s) with
    | Scanned v rest =>
      match skip_ws rest with
      | [] => Ok v
      | _ :: _ => Raise JSONDecodeError
      end
    | Invalid => Raise JSONDecodeError
    | Exhausted => Raise JSONDecodeError
    end
  end.

(** ** [json.dumps]

    The encoder with its defaults ([ensure_ascii=True], separators [", "]
    and [": "]).  A [bytes] is not serialisable. *)

Definition hex_digit_lower (n : N) : codepoint :=
  if n <? 10 then 0x30 + n else 0x61 + (n - 10).

(** ['\\u{0:04x}'.format(n)] *)
Definition escape_u (n : N) : str :=
  [ch "\"; ch "u"; hex_digit_lower (n / 4096); hex_digit_lower ((n / 256) mod 16);
   hex_digit_lower ((n / 16) mod 16); hex_digit_lower (n mod 16)].

(** [py_encode_basestring_ascii]: the replacement of one character *)
Definition escape_char (c : codepoint) : str :=
  if c =? dquote then [ch "\"; dquote]
  else if c =? ch "\" then [ch "\"; ch "\"]
  else if c =? 0x0A then u "\n"
  else if c =? 0x0D then u "\r"
  else if c =? 0x09 then u "\t"
  else if c =? 0x08 then u "\b"
  else if c =? 0x0C then u "\f"
  else if (0x20 <=? c) && (c <=? 0x7E) then [c]
  else if c <? 0x10000 then escape_u c
  else escape_u (0xD800 + ((c - 0x10000) / 1024))
       ++ escape_u (0xDC00 + ((c - 0x10000) mod 1024)).

Definition encode_basestring_ascii (s : str) : str :=
  [dquote] ++ flat_map escape_char s ++ [dquote].

Section JsonDumps.
Context {lib : PyLib}.

Fixpoint json_dumps (v : pyval) : outcome str :=
  match v with
  | PNone => Ok (u "null")
  | PBool true => Ok (u "true")
  | PBool false => Ok (u "false")
  | PInt z => Ok (int_str z)
  | PFloat lit => Ok (float_repr lit)
  | PStr s => Ok (encode_basestring_ascii s)
  | PBytes _ => Raise TypeError
  | PList items =>
    let? parts := traverse json_dumps items in
    Ok (u "[" ++ str_join (u ", ") parts ++ u "]")
  | PDict items =>
    let? parts :=
      traverse (fun kv =>
                  let? x := json_dumps (snd kv) in
                  Ok (encode_basestring_ascii (fst kv) ++ u ": " ++ x))
               items in
    Ok (u "{" ++ str_join (u ", ") parts ++ u "}")
  end.

End JsonDumps.

(** ** The network

    [http.client] and the server behind it are one oracle: given the requests
    sent before and the request at hand, it answers with a response or
    fails with whatever the transport raises. *)

Inductive connection : Type :=
| HTTPConnection
| HTTPSConnection.

Record Request : Type := {
  conn : connection;
  host : str;
  method : str;
  url : str;
  payload : pyval;
  headers : dict str
}.

(** [[resp.status, resp.reason, resp.read()]] *)
Record Response : Type := {
  status : Z;
  reason : str;
  body : bytes
}.

Definition Network := list Request -> Request -> outcome Response.

(** Computations that send requests: the state is the trace of the requests
    sent, oldest first. *)
Definition io (A : Type) := list Request -> outcome A * list Request.

Definition ret {A} (a : A) : io A := fun t => (Ok a, t).

Definition lift {A} (o : outcome A) : io A := fun t => (o, t).

Definition throw {A} (e : exn) : io A := lift (Raise e).

Definition bind {A B} (m : io A) (k : A -> io B) : io B :=
  fun t =>
    match m t with
    | (Ok a, t') => k a t'
    | (Raise e, t') => (Raise e, t')
    end.

Definition send (net : Network) (rq : Request) : io Response :=
  fun t => (net t rq, t ++ [rq]).

Declare Scope io_scope.
Delimit Scope io_scope with io.
Notation "'do' x <- m ; k" := (bind m (fun x => k))
  (at level 10, x pattern, m at level 200, k at level 200) : io_scope.
Open Scope io_scope.

(** ** Response decoding *)

(** [Markus.decode_text_response]: [resp[2].decode('utf-8')] *)
Definition decode_text_response (resp : Response) : outcome str :=
  bytes_decode (body resp).

(** [Markus.decode_json_response] *)
Definition decode_json_response (resp : Response) : outcome pyval :=
  let? text := decode_text_response resp in json_loads text.

(** ** [str.strip] *)

Definition is_space (c : codepoint) : bool :=
  ((0x09 <=? c) && (c <=? 0x0D)) || ((0x1C <=? c) && (c <=? 0x20))
  || (c =? 0x85) || (c =? 0xA0) || (c =? 0x1680)
  || ((0x2000 <=? c) && (c <=? 0x200A))
  || (c =? 0x2028) || (c =? 0x2029) || (c =? 0x202F) || (c =? 0x205F)
  || (c =? 0x3000).

Fixpoint str_lstrip (s : str) : str :=
  match s with
  | c :: r => if is_space c then str_lstrip r else s
  | [] => []
  end.

Definition str_strip (s : str) : str :=
  rev (str_lstrip (rev (str_lstrip s))).

(** ** Class [Markus] *)

Record Markus : Type := {
  api_key : str;
  parsed_url : Url.ParseResult
}.

Definition API_PATH : str := u "/api".

Definition FORM : str := u "application/x-www-form-urlencoded".
Definition MULTIPART : str := u "multipart/form-data".
Definition JSON : str := u "application/json".

Definition is_none (v : pyval) : bool :=
  match v with PNone => true | _ => false end.

Section Client.
Context {lib : PyLib}.

(** [Markus.__init__] *)
Definition __init__ (api_key url : str) : outcome Markus :=
  let? parsed := urlparse (str_strip url) in
  if str_eqb (Url.scheme parsed) (u "http") || str_eqb (Url.scheme parsed) (u "https")
  then Ok {| api_key := api_key; parsed_url := parsed |}
  else Raise AssertionError.

(** [Markus.get_path]: [kwargs] holds the keyword arguments in the order
    given *)
Definition get_path (kwargs : dict pyval) : str :=
  let path :=
    str_join (u "/")
      (List.map py_str
         (List.filter (fun v => negb (is_none v))
            (flat_map (fun vals => [PStr (fst vals); snd vals]) kwargs))) in
  API_PATH ++ u "/" ++ path.

(** [urlencode(params)] for any value: a mapping is encoded, an empty
    sequence gives the empty string, anything else is a [TypeError]. *)
Definition urlencode_any (params : pyval) : outcome str :=
  match params with
  | PDict d => urlencode d
  | PList [] | PStr [] | PBytes [] => Ok []
  | _ => Raise TypeError
  end.

Section Requests.
Variable net : Network.
Variable self : Markus.

(** [Markus._do_submit_request] *)
Definition _do_submit_request (params : pyval) (path : str)
           (request_type : str) (headers : dict str) : io Response :=
  let auth_header := u "MarkUsAuth " ++ api_key self in
  let headers := dict_set headers (u "Authorization") auth_header in
  do conn <-
    (if str_eqb (Url.scheme (parsed_url self)) (u "http") then ret HTTPConnection
     else if str_eqb (Url.scheme (parsed_url self)) (u "https")
          then ret HTTPSConnection
          else throw (ValueError "Panic! Neither http nor https URL.")) ;
  send net {| conn := conn;
              host := Url.netloc (parsed_url self);
              method := request_type;
              url := Url.path (parsed_url self) ++ path;
              payload := params;
              headers := headers |}.

(** [Markus.submit_request] *)
Definition submit_request (params : pyval) (path : str) (request_type : str)
           (content_type : str) : io Response :=
  let headers := [(u "Content-type", content_type)] in
  do params <-
    lift (if negb (is_none params) then
            let? params :=
              if str_eqb content_type FORM then
                omap PStr (urlencode_any params)
              else if str_eqb content_type MULTIPART then Ok params
              else if str_eqb content_type JSON then
                omap PStr (json_dumps params)
              else Ok params in
            if negb (is_str params) then
              Raise (ValueError
                "If the params are not a string type object please provide a valid content_type")
            else Ok params
          else Ok params) ;
  let headers :=
    if str_eqb request_type (u "GET")
    then dict_set headers (u "Accept") (u "text/plain")
    else headers in
  _do_submit_request params path request_type headers.

(** [Markus.get_all_users] *)
Definition get_all_users : io pyval :=
  do response <- submit_request PNone (u "/api/users.json") (u "GET") FORM ;
  lift (decode_json_response response).

(** [Markus.new_user] *)
Definition new_user (user_name user_type first_name last_name : str)
           (section_name grace_credits : option str) : io Response :=
  let params : dict pyval :=
    [(u "user_name", PStr user_name); (u "type", PStr user_type);
     (u "first_name", PStr first_name); (u "last_name", PStr last_name)] in
  let params :=
    match section_name with
    | Some s => dict_set params (u "section_name") (PStr s)
    | None => params
    end in
  let params :=
    match grace_credits with
    | Some s => dict_set params (u "grace_credits") (PStr s)
    | None => params
    end in
  submit_request (PDict params) (u "/api/users") (u "POST") FORM.

(** [Markus.get_assignments] *)
Definition get_assignments : io pyval :=
  do response <-
    submit_request PNone (u "/api/assignments.json") (u "GET") FORM ;
  lift (decode_json_response response).

(** [Markus.get_groups] *)
Definition get_groups (assignment_id : Z) : io pyval :=
  let path := get_path [(u "assignments", PInt assignment_id)] ++ u ".json" in
  do response <- submit_request PNone path (u "GET") FORM ;
  lift (decode_json_response response).

(** [Markus.get_groups_by_name] *)
Definition get_groups_by_name (assignment_id : Z) : io pyval :=
  let path :=
    get_path [(u "assignments", PInt assignment_id);
              (u "group_ids_by_name", PNone)] ++ u ".json" in
  do response <- submit_request PNone path (u "GET") FORM ;
  lift (decode_json_response response).

(** [Markus.get_group] *)
Definition get_group (assignment_id group_id : Z) : io pyval :=
  let path :=
    get_path [(u "assignments", PInt assignment_id);
              (u "groups", PInt group_id)] ++ u ".json" in
  do response <- submit_request PNone path (u "GET") FORM ;
  lift (decode_json_response response).

(** [Markus.get_feedback_files] *)
Definition get_feedback_files (assignment_id group_id : Z) : io pyval :=
  let params := PDict [] in
  let path :=
    get_path [(u "assignments", PInt assignment_id);
              (u "groups", PInt group_id);
              (u "feedback_files", PNone)] ++ u ".json" in
  do response <- submit_request params path (u "GET") FORM ;
  lift (decode_json_response response).

(** [Markus.get_feedback_file] *)
Definition get_feedback_file (assignment_id group_id feedback_file_id : Z)
  : io str :=
  let params := PDict [] in
  let path :=
    get_path [(u "assignments", PInt assignment_id);
              (u "groups", PInt group_id);
              (u "feedback_files", PInt feedback_file_id)] ++ u ".json" in
  do response <- submit_request params path (u "GET") FORM ;
  lift (decode_text_response response).

(** [Markus.get_marks_spreadsheet] *)
Definition get_marks_spreadsheet (spreadsheet_id : Z) : io str :=
  let params := PDict [] in
  let path :=
    get_path [(u "grade_entry_forms", PInt spreadsheet_id)] ++ u ".json" in
  do response <- submit_request params path (u "GET") FORM ;
  lift (decode_text_response response).

(** [for ff in feedback_files]: what iterating over a value yields; a value
    that is not iterable is a [TypeError]. *)
Definition py_iter (v : pyval) : outcome (list pyval) :=
  match v with
  | PList items => Ok items
  | PDict items => Ok (List.map (fun kv => PStr (fst kv)) items)
  | PStr s => Ok (List.map (fun c => PStr [c]) s)
  | PBytes bs => Ok (List.map (fun x => PInt (Z.of_N (Byte.to_N x))) bs)
  | _ => Raise TypeError
  end.

(** [next((ff.get('id') for ff in feedback_files
           if ff.get('filename') == title), None)]:
    the entries are visited in order up to the first match; an entry that
    is not a [dict] has no [get]. *)
Fixpoint next_feedback_file_id (title : str) (feedback_files : list pyval)
  : outcome pyval :=
  match feedback_files with
  | [] => Ok PNone
  | PDict ff :: rest =>
    if py_eq_str (py_get ff (u "filename")) title
    then Ok (py_get ff (u "id"))
    else next_feedback_file_id title rest
  | _ :: _ => Raise AttributeError
  end.

(** [Markus.upload_feedback_file] *)
Definition upload_feedback_file (assignment_id group_id : Z) (title : str)
           (contents : pyval) (mime_type : option str) (overwrite : bool)
  : io Response :=
  do feedback_file_id <-
    (if overwrite then
       do feedback_files <- get_feedback_files assignment_id group_id ;
       lift (let? entries := py_iter feedback_files in
             next_feedback_file_id title entries)
     else ret PNone) ;
  let path :=
    get_path [(u "assignments", PInt assignment_id);
              (u "groups", PInt group_id);
              (u "feedback_files", PNone)] in
  let '(path, request_type) :=
    if py_truth feedback_file_id
    then (path ++ u "/" ++ py_str feedback_file_id, u "PUT")
    else (path, u "POST") in
  let mime_type :=
    match mime_type with
    | None => guess_type title
    | Some m => Some m
    end in
  match mime_type with
  | None =>
    throw (ValueError
      "if the mime_type argument is not given you must provide a title file with a valid extension")
  | Some mime_type =>
    do (params, content_type) <-
      lift (if is_str contents then
              Ok (PDict [(u "filename", PStr title);
                         (u "file_content", contents);
                         (u "mime_type", PStr mime_type)],
                  FORM)
            else
              let? filename := str_encode title in
              let? mime := str_encode mime_type in
              Ok (PDict [(u "filename", PBytes filename);
                         (u "file_content", contents);
                         (u "mime_type", PBytes mime)],
                  MULTIPART)) ;
    submit_request params path request_type content_type
  end.

(** [Markus.upload_test_group_results] *)
Definition upload_test_group_results (assignment_id group_id test_run_id : Z)
           (test_output : str) : io Response :=
  let params :=
    PDict [(u "test_run_id", PInt test_run_id);
           (u "test_output", PStr test_output)] in
  let path :=
    get_path [(u "assignments", PInt assignment_id);
              (u "groups", PInt group_id);
              (u "test_group_results", PNone)] in
  submit_request params path (u "POST") FORM.

(** [Markus.upload_annotations] *)
Definition upload_annotations (assignment_id group_id : Z)
           (annotations : pyval) (force_complete : bool) : io Response :=
  let params :=
    PDict [(u "annotations", annotations);
           (u "force_complete", PBool force_complete)] in
  let path :=
    get_path [(u "assignments", PInt assignment_id);
              (u "groups", PInt group_id);
              (u "add_annotations", PNone)] in
  submit_request params path (u "POST") JSON.

(** [Markus.update_marks_single_group] *)
Definition update_marks_single_group (criteria_mark_map : pyval)
           (assignment_id group_id : Z) : io Response :=
  let params := criteria_mark_map in
  let path :=
    get_path [(u "assignments", PInt assignment_id);
              (u "groups", PInt group_id);
              (u "update_marks", PNone)] in
  submit_request params path (u "PUT") FORM.

(** [Markus.update_marking_state] *)
Definition update_marking_state (assignment_id group_id : Z)
           (new_marking_state : str) : io Response :=
  let params := PDict [(u "marking_state", PStr new_marking_state)] in
  let path :=
    get_path [(u "assignments", PInt assignment_id);
              (u "groups", PInt group_id);
              (u "update_marking_state", PNone)] in
  submit_request params path (u "PUT") FORM.

End Requests.
End Client.

(** ** The operation layer as one interface *)

Inductive operation : Type :=
| GetAllUsers
| NewUser (user_name user_type first_name last_name : str)
          (section_name grace_credits : option str)
| GetAssignments
| GetGroups (assignment_id : Z)
| GetGroupsByName (assignment_id : Z)
| GetGroup (assignment_id group_id : Z)
| GetFeedbackFiles (assignment_id group_id : Z)
| GetFeedbackFile (assignment_id group_id feedback_file_id : Z)
| GetMarksSpreadsheet (spreadsheet_id : Z)
| UploadFeedbackFile (assignment_id group_id : Z) (title : str)
                     (contents : pyval) (mime_type : option str)
                     (overwrite : bool)
| UploadTestGroupResults (assignment_id group_id test_run_id : Z)
                         (test_output : str)
| UploadAnnotations (assignment_id group_id : Z) (annotations : pyval)
                    (force_complete : bool)
| UpdateMarksSingleGroup (criteria_mark_map : pyval)
                         (assignment_id group_id : Z)
| UpdateMarkingState (assignment_id group_id : Z) (new_marking_state : str).

(** What an operation returns: the raw triple, a decoded JSON value or
    decoded text. *)
Inductive result : Type :=
| Triple (r : Response)
| Decoded (v : pyval)
| Text (s : str).

Definition io_map {A B} (f : A -> B) (m : io A) : io B :=
  do a <- m ; ret (f a).

Definition call {lib : PyLib} (net : Network) (self : Markus) (op : operation)
  : io result :=
  match op with
  | GetAllUsers => io_map Decoded (get_all_users net self)
  | NewUser un ut fn ln sn gc =>
    io_map Triple (new_user net self un ut fn ln sn gc)
  | GetAssignments => io_map Decoded (get_assignments net self)
  | GetGroups a => io_map Decoded (get_groups net self a)
  | GetGroupsByName a => io_map Decoded (get_groups_by_name net self a)
  | GetGroup a g => io_map Decoded (get_group net self a g)
  | GetFeedbackFiles a g => io_map Decoded (get_feedback_files net self a g)
  | GetFeedbackFile a g f => io_map Text (get_feedback_file net self a g f)
  | GetMarksSpreadsheet s => io_map Text (get_marks_spreadsheet net self s)
  | UploadFeedbackFile a g title contents mime overwrite =>
    io_map Triple (upload_feedback_file net self a g title contents mime overwrite)
  | UploadTestGroupResults a g t out =>
    io_map Triple (upload_test_group_results net self a g t out)
  | UploadAnnotations a g ann fc =>
    io_map Triple (upload_annotations net self a g ann fc)
  | UpdateMarksSingleGroup m a g =>
    io_map Triple (update_marks_single_group net self m a g)
  | UpdateMarkingState a g st =>
    io_map Triple (update_marking_state net self a g st)
  end.

(** ** A library instance for the examples

    Enough of [urlparse] and [guess_type] for plain URLs and file names:
    the scheme is what precedes the first colon when it is a letter followed
    by letters, digits, [+], [-] or [.]; the type of a file name is looked
    up by its extension in a few entries of [mimetypes.types_map]. *)

Module Sample.

Definition is_alpha (c : codepoint) : bool :=
  ((0x41 <=? c) && (c <=? 0x5A)) || ((0x61 <=? c) && (c <=? 0x7A)).

Definition scheme_char (c : codepoint) : bool :=
  is_alpha c || is_digit c || (c =? ch "+") || (c =? ch "-") || (c =? ch ".").

Definition lower (c : codepoint) : codepoint :=
  if (0x41 <=? c) && (c <=? 0x5A) then c + 0x20 else c.

Fixpoint take_until (stop : codepoint -> bool) (s : str) : str * str :=
  match s with
  | c :: r =>
    if stop c then ([], s)
    else let (h, t) := take_until stop r in (c :: h, t)
  | [] => ([], [])
  end.

Definition urlparse (url : str) : outcome Url.ParseResult :=
  let (sch, rest) :=
    match str_split1 (ch ":") url with
    | (c :: head, Some r) =>
      if is_alpha c && forallb scheme_char head
      then (List.map lower (c :: head), r)
      else ([], url)
    | _ => ([], url)
    end in
  let (loc, rest) :=
    match rest with
    | 0x2F :: 0x2F :: r =>
      take_until (fun c => (c =? ch "/") || (c =? ch "?") || (c =? ch "#")) r
    | _ => ([], rest)
    end in
  let (p, _) :=
    take_until (fun c => (c =? ch "?") || (c =? ch "#") || (c =? ch ";")) rest in
  Ok {| Url.scheme := sch; Url.netloc := loc; Url.path := p |}.

(** The extension of the last component of a name, dot included; a leading
    dot does not start an extension. *)
Fixpoint extension (s : str) (seen : bool) (ext : str) : str :=
  match s with
  | [] => ext
  | c :: r =>
    if c =? ch "/" then extension r false []
    else if (c =? ch ".") && seen then extension r true [c]
    else
      extension r (seen || negb (c =? ch "."))
                (match ext with [] => [] | _ => ext ++ [c] end)
  end.

Definition types_map : dict str :=
  [(u ".pdf", u "application/pdf"); (u ".txt", u "text/plain");
   (u ".html", u "text/html"); (u ".json", u "application/json");
   (u ".png", u "image/png"); (u ".csv", u "text/csv")].

Definition guess_type (name : str) : option str :=
  dict_get types_map (List.map lower (extension name false [])).

Definition float_truth (lit : str) : bool :=
  existsb (fun c => (0x31 <=? c) && (c <=? 0x39))
          (fst (take_until (fun c => (c =? ch "e") || (c =? ch "E")) lit)).

#[export] Instance lib : PyLib :=
  Build_PyLib urlparse guess_type
              (fun lit => lit) float_truth
              (fun s => u "'" ++ s ++ u "'")
              (fun bs => u "b'" ++ List.map Byte.to_N bs ++ u "'").

End Sample.

(** ** Notions the statements use *)

Section Notions.
Context {lib : PyLib}.

(** The path the specification describes for a sequence of pairs: the API
    root, then for each pair a slash and the collection name, followed by a
    slash and the identifier when there is one. *)
Fixpoint path_segments (pairs : dict pyval) : str :=
  match pairs with
  | [] => []
  | (name, id) :: rest =>
    u "/" ++ name
    ++ (if is_none id then [] else u "/" ++ py_str id)
    ++ path_segments rest
  end.

Definition build (pairs : dict pyval) : str := API_PATH ++ path_segments pairs.

(** The scheme test of [__init__] and of the transport. *)
Definition web_scheme (p : Url.ParseResult) : Prop :=
  Url.scheme p = u "http" \/ Url.scheme p = u "https".

(** The connection class [_do_submit_request] picks. *)
Definition connection_of (self : Markus) : connection :=
  if str_eqb (Url.scheme (parsed_url self)) (u "http")
  then HTTPConnection else HTTPSConnection.

(** The headers a request leaves with. *)
Definition request_headers (self : Markus) (request_type content_type : str)
  : dict str :=
  (u "Content-type", content_type)
  :: (if str_eqb request_type (u "GET")
      then [(u "Accept", u "text/plain")] else [])
  ++ [(u "Authorization", u "MarkUsAuth " ++ api_key self)].

(** The request [submit_request] hands to the network once [params] is
    encoded. *)
Definition request (self : Markus) (params : pyval) (path request_type : str)
           (content_type : str) : Request :=
  {| conn := connection_of self;
     host := Url.netloc (parsed_url self);
     method := request_type;
     url := Url.path (parsed_url self) ++ path;
     payload := params;
     headers := request_headers self request_type content_type |}.

(** How many headers of a request bear a given name. *)
Definition header_count (name : str) (rq : Request) : nat :=
  List.length (List.filter (fun kv => str_eqb (fst kv) name) (headers rq)).

(** One [Content-type], one [Authorization] carrying the token, and
    [Accept: text/plain] exactly on a [GET]. *)
Definition well_headed (self : Markus) (rq : Request) : Prop :=
  header_count (u "Content-type") rq = 1%nat
  /\ header_count (u "Authorization") rq = 1%nat
  /\ dict_get (headers rq) (u "Authorization")
     = Some (u "MarkUsAuth " ++ api_key self)
  /\ dict_get (headers rq) (u "Accept")
     = (if str_eqb (method rq) (u "GET") then Some (u "text/plain") else None).

(** [m] only appends to the trace, and every request it appends
    satisfies [P]. *)
Definition sends {A} (P : Request -> Prop) (m : io A) : Prop :=
  forall t, exists new, snd (m t) = t ++ new /\ Forall P new.

(** The collection of feedback files of a group. *)
Definition feedback_files_path (assignment_id group_id : Z) : str :=
  get_path [(u "assignments", PInt assignment_id);
            (u "groups", PInt group_id);
            (u "feedback_files", PNone)].

(** The first entry of a listing whose file name is [title]. *)
Definition find_entry (title : str) (entries : list (dict pyval))
  : option (dict pyval) :=
  List.find (fun ff => py_eq_str (py_get ff (u "filename")) title) entries.

(** The mime type an upload goes out with. *)
Definition resolved_mime (mime_type : option str) (title : str) : option str :=
  match mime_type with
  | None => guess_type title
  | Some m => Some m
  end.

(** The identifier [upload_feedback_file] looks up when it overwrites. *)
Definition listed_id (net : Network) (self : Markus)
           (assignment_id group_id : Z) (title : str) : io pyval :=
  do feedback_files <- get_feedback_files net self assignment_id group_id ;
  lift (let? entries := py_iter feedback_files in
        next_feedback_file_id title entries).

(** Where an upload goes for a looked-up identifier: the path and the
    method. *)
Definition upload_target (assignment_id group_id : Z) (id : pyval) : str * str :=
  if py_truth id
  then (feedback_files_path assignment_id group_id ++ u "/" ++ py_str id, u "PUT")
  else (feedback_files_path assignment_id group_id, u "POST").

(** The parameters and the content type of an upload. *)
Definition upload_params (title : str) (contents : pyval) (mime_type : str)
  : outcome (pyval * str) :=
  if is_str contents then
    Ok (PDict [(u "filename", PStr title); (u "file_content", contents);
               (u "mime_type", PStr mime_type)], FORM)
  else
    let? filename := str_encode title in
    let? mime := str_encode mime_type in
    Ok (PDict [(u "filename", PBytes filename); (u "file_content", contents);
               (u "mime_type", PBytes mime)], MULTIPART).

(** What [submit_request] makes of [params] before anything is sent. *)
Definition encoded (params : pyval) (content_type : str) : outcome pyval :=
  if negb (is_none params) then
    let? params :=
      if str_eqb content_type FORM then omap PStr (urlencode_any params)
      else if str_eqb content_type MULTIPART then Ok params
      else if str_eqb content_type JSON then omap PStr (json_dumps params)
      else Ok params in
    if negb (is_str params) then
      Raise (ValueError
        "If the params are not a string type object please provide a valid content_type")
    else Ok params
  else Ok params.

(** The fields of a text upload. *)
Definition text_fields (title contents mime_type : str) : dict pyval :=
  [(u "filename", PStr title); (u "file_content", PStr contents);
   (u "mime_type", PStr mime_type)].

End Notions.

(** The two [ValueError]s of an upload. *)
Definition InvalidParameterShape : exn :=
  ValueError
    "If the params are not a string type object please provide a valid content_type".

Definition UnresolvedMimeType : exn :=
  ValueError
    "if the mime_type argument is not given you must provide a title file with a valid extension".

(** A bytes literal that holds double quotes, written with apostrophes. *)
Definition bq (s : string) : bytes := List.map byte_of_N (q s).

(** A network that answers like [net] with the status line rewritten
    by [f]. *)
Definition restatus (f : Response -> Z * str) (r : Response) : Response :=
  {| status := fst (f r); reason := snd (f r); body := body r |}.

Definition net_restatus (f : Response -> Z * str) (net : Network) : Network :=
  fun t rq => omap (restatus f) (net t rq).

Definition result_restatus (f : Response -> Z * str) (r : result) : result :=
  match r with
  | Triple x => Triple (restatus f x)
  | Decoded v => Decoded v
  | Text s => Text s
  end.

(** [m'] behaves like [m] up to [g] on what is returned: same exception,
    same requests. *)
Definition follows {A B} (g : A -> B) (m : io A) (m' : io B) : Prop :=
  forall t, m' t = (omap g (fst (m t)), snd (m t)).

(** ** A client and a network for the examples

    The client of [https://markus.example.org/base] with the token
    [secret]; the network answers every [GET] with the given body and
    everything else with [201 Created]; the listing [one_file id] holds the
    single entry [out.txt] with the identifier text [id]. *)

Module Demo.

Definition self : Markus :=
  {| api_key := u "secret";
     parsed_url := {| Url.scheme := u "https";
                      Url.netloc := u "markus.example.org";
                      Url.path := u "/base" |} |}.

Definition net (listing : bytes) : Network :=
  fun _ rq =>
    if str_eqb (method rq) (u "GET")
    then Ok {| status := 200; reason := u "OK"; body := listing |}
    else Ok {| status := 201; reason := u "Created"; body := [] |}.

(** A network that answers every request with [500]. *)
Definition failing : Network :=
  fun _ _ =>
    Ok {| status := 500; reason := u "Internal Server Error";
          body := b "oops" |}.

(** A network that cannot be reached. *)
Definition unreachable : Network := fun _ _ => Raise TransportFault.

(** The method and the URL of each request of a trace. *)
Definition summary (t : list Request) : list (str * str) :=
  List.map (fun rq => (method rq, url rq)) t.

Definition one_file (id : string) : bytes :=
  bq "[{'id': " ++ b id ++ bq ", 'filename': 'out.txt'}]".

End Demo.

(** ** Notions the proofs use *)

(** What [quote_plus] writes for one octet [x]: the octet itself when it is
    unreserved, a plus sign for a space, or a percent escape. *)
Inductive chunk_of (x : byte) : str -> Prop :=
| chunk_plain : always_safe x = true -> chunk_of x [Byte.to_N x]
| chunk_plus : x = " "%byte -> chunk_of x [ch "+"]
| chunk_escape :
    chunk_of x [ch "%"; hex_digit (Byte.to_N x / 16);
                hex_digit (Byte.to_N x mod 16)].

(** The octets [bs] and the text written for them, chunk by chunk. *)
Inductive quoted : bytes -> str -> Prop :=
| quoted_nil : quoted [] []
| quoted_cons x c bs s :
    chunk_of x c -> quoted bs s -> quoted (x :: bs) (c ++ s).

(** Quoted text is ASCII and holds neither of the two separators. *)
Definition field_char (c : codepoint) : Prop :=
  c < 0x80 /\ c <> ch "&" /\ c <> ch "=".

(** The octets of a query-string field once its plus signs are read as
    spaces. *)
Definition field_bytes (s : str) : bytes :=
  List.map byte_of_N (str_replace (ch "+") (ch " ") s).

Section Segments.
Context {lib : PyLib}.

(** The segments [get_path] joins: every name, and every identifier that
    is not [None]. *)
Definition segments (kwargs : dict pyval) : list str :=
  List.map py_str
    (List.filter (fun v => negb (is_none v))
       (flat_map (fun vals => [PStr (fst vals); snd vals]) kwargs)).

End Segments.

Create HintDb sends.

(** *** Tactics *)

Ltac divlia := zify; Z.to_euclidean_division_equations; lia.

(** Decide the comparisons of a goal, discarding the impossible branches. *)
Ltac split_cmp :=
  repeat match goal with
  | |- context [N.ltb ?a ?b] => destruct (N.ltb_spec a b); try lia
  | |- context [N.leb ?a ?b] => destruct (N.leb_spec a b); try lia
  | |- context [N.eqb ?a ?b] => destruct (N.eqb_spec a b); try lia
  end.


(** ** Notions of the further properties *)

(** [s.endswith(suffix)] *)
Definition ends_with (suffix s : str) : bool :=
  match strip_prefix (rev suffix) (rev s) with
  | Some _ => true
  | None => false
  end.

(** What a client may send: nothing, or text. *)
Definition text_or_none (v : pyval) : Prop :=
  v = PNone \/ exists s, v = PStr s.

(** The characters of a form-encoded body: unreserved characters, the
    percent and plus signs of quoting, and the two separators. *)
Definition form_char (c : codepoint) : bool :=
  ((0x41 <=? c) && (c <=? 0x5A)) || ((0x61 <=? c) && (c <=? 0x7A))
  || ((0x30 <=? c) && (c <=? 0x39))
  || str_in c (u "_.-~%+=&").

(** A request goes where the client was told to go: over the connection
    class of its scheme, to its host, under its base path and the API
    root. *)
Definition on_target (self : Markus) (rq : Request) : Prop :=
  conn rq = connection_of self
  /\ host rq = Url.netloc (parsed_url self)
  /\ exists rest, url rq = Url.path (parsed_url self) ++ u "/api/" ++ rest.

(** A request is a parameterless [GET] of a [.json] address, or a [POST]
    or a [PUT]. *)
Definition read_or_write (rq : Request) : Prop :=
  (method rq = u "GET" /\ ends_with (u ".json") (url rq) = true
   /\ (payload rq = PNone \/ payload rq = PStr []))
  \/ method rq = u "POST" \/ method rq = u "PUT".

(** The fields [new_user] submits. *)
Definition new_user_fields (user_name user_type first_name last_name : str)
           (section_name grace_credits : option str) : dict str :=
  [(u "user_name", user_name); (u "type", user_type);
   (u "first_name", first_name); (u "last_name", last_name)]
  ++ match section_name with Some s => [(u "section_name", s)] | None => [] end
  ++ match grace_credits with Some s => [(u "grace_credits", s)] | None => [] end.

(** An entry of a listing that is an object under another file name. *)
Definition other_file (title : str) (entry : pyval) : Prop :=
  exists ff, entry = PDict ff /\ py_eq_str (py_get ff (u "filename")) title = false.

(** [isinstance(v, dict)] *)
Definition is_dict (v : pyval) : bool :=
  match v with PDict _ => true | _ => false end.

(** What every call of [submit_request] in the operations looks like: a
    path under the API root; a [GET] of a [.json] path with no parameters
    or an empty mapping, form-encoded, or else a [POST] or a [PUT]; one of
    the three content types. *)
Definition call_site (params : pyval) (path request_type content_type : str)
  : Prop :=
  (exists rest, path = u "/api/" ++ rest)
  /\ ((request_type = u "GET" /\ ends_with (u ".json") path = true
       /\ (params = PNone \/ params = PDict []) /\ content_type = FORM)
      \/ request_type = u "POST" \/ request_type = u "PUT")
  /\ (content_type = FORM \/ content_type = JSON \/ content_type = MULTIPART).

(** An operation that may list before it writes. *)
Definition lists_first (op : operation) : bool :=
  match op with
  | UploadFeedbackFile _ _ _ _ _ true => true
  | _ => false
  end.

Definition is_get (rq : Request) : Prop := method rq = u "GET".

Definition is_write (rq : Request) : Prop :=
  method rq = u "POST" \/ method rq = u "PUT".

(** [m] appends at most one request to the trace, and it satisfies [P]. *)
Definition sends_one {A} (P : Request -> Prop) (m : io A) : Prop :=
  forall t, exists new,
      snd (m t) = t ++ new /\ Forall P new /\ (List.length new <= 1)%nat.

(** ** Notions of the bodies that are read back *)

(** [isinstance(v, bytes)] *)
Definition is_bytes (v : pyval) : bool :=
  match v with PBytes _ => true | _ => false end.

Section Shown.
Context {lib : PyLib}.

(** What the fields of a form are read back as: each value as
    [str(v)]. *)
Definition shown (d : dict pyval) : dict str :=
  List.map (fun kv => (fst kv, py_str (snd kv))) d.

(** A field that [urlencode] writes through [str(v)] and whose text can be
    encoded. *)
Definition form_field (kv : str * pyval) : Prop :=
  encodable (fst kv) = true /\ is_bytes (snd kv) = false
  /\ encodable (py_str (snd kv)) = true.

End Shown.

(** The fields [upload_test_group_results] submits. *)
Definition test_result_fields (test_run_id : Z) (test_output : str) : dict str :=
  [(u "test_run_id", int_str test_run_id); (u "test_output", test_output)].

(** The fields of a text upload, as text. *)
Definition upload_fields (title contents mime_type : str) : dict str :=
  [(u "filename", title); (u "file_content", contents);
   (u "mime_type", mime_type)].

(** The path of one operation on a group. *)
Definition group_path {lib : PyLib} (assignment_id group_id : Z) (name : string)
  : str :=
  get_path [(u "assignments", PInt assignment_id);
            (u "groups", PInt group_id); (u name, PNone)].

(** ** Notions of what an operation does with the answers *)

(** The operations that read. *)
Definition is_reader (op : operation) : bool :=
  match op with
  | GetAllUsers | GetAssignments | GetGroups _ | GetGroupsByName _
  | GetGroup _ _ | GetFeedbackFiles _ _ | GetFeedbackFile _ _ _
  | GetMarksSpreadsheet _ => true
  | _ => false
  end.

(** Whenever the last request [m] sent is a [POST] or a [PUT], [m]
    returns the answer to it as it came, or raises what the transport
    raised. *)
Definition verbatim (net : Network) (m : io Response) : Prop :=
  forall t new w,
    snd (m t) = t ++ new ++ [w] -> is_write w ->
    fst (m t) = net (t ++ new) w.

(** What [for ... in v] accepts. *)
Definition iterable (v : pyval) : bool :=
  match v with
  | PList _ | PDict _ | PStr _ | PBytes _ => true
  | _ => false
  end.

Section UploadSteps.
Context {lib : PyLib}.

(** The request that lists the feedback files of a group. *)
Definition listing_request (self : Markus) (assignment_id group_id : Z)
  : Request :=
  request self (PStr []) (feedback_files_path assignment_id group_id ++ u ".json")
          (u "GET") FORM.

(** What [upload_feedback_file] does once the identifier is looked up. *)
Definition send_upload (net : Network) (self : Markus)
           (assignment_id group_id : Z) (title : str) (contents : pyval)
           (mime_type : option str) (id : pyval) : io Response :=
  match resolved_mime mime_type title with
  | None => throw UnresolvedMimeType
  | Some m =>
    do (params, ct) <- lift (upload_params title contents m) ;
    submit_request net self params
                   (fst (upload_target assignment_id group_id id))
                   (snd (upload_target assignment_id group_id id)) ct
  end.

End UploadSteps.

Section Reads.
Context {lib : PyLib}.

(** The request of [get_feedback_file]. *)
Definition file_request (self : Markus)
           (assignment_id group_id feedback_file_id : Z) : Request :=
  request self (PStr [])
          (get_path [(u "assignments", PInt assignment_id);
                     (u "groups", PInt group_id);
                     (u "feedback_files", PInt feedback_file_id)] ++ u ".json")
          (u "GET") FORM.

(** The request of [get_marks_spreadsheet]. *)
Definition spreadsheet_request (self : Markus) (spreadsheet_id : Z) : Request :=
  request self (PStr [])
          (get_path [(u "grade_entry_forms", PInt spreadsheet_id)] ++ u ".json")
          (u "GET") FORM.

End Reads.

(** ** Notions of the JSON bodies that are read back *)

(** No key occurs twice. *)
Fixpoint distinct (keys : list str) : bool :=
  match keys with
  | [] => true
  | k :: rest => negb (existsb (str_eqb k) rest) && distinct rest
  end.

(** The values [json.dumps] writes and [json.loads] reads back as they
    were: [None], booleans, integers, text without lone surrogates, and
    lists and mappings of such values, the keys of a mapping being such
    text too.  A [bytes] is not serialisable, and the text of a [float] is
    the interpreter's. *)
Fixpoint json_plain (v : pyval) : bool :=
  match v with
  | PNone | PBool _ | PInt _ => true
  | PFloat _ | PBytes _ => false
  | PStr s => encodable s
  | PList items => forallb json_plain items
  | PDict items =>
    forallb (fun kv => encodable (fst kv) && json_plain (snd kv)) items
    && distinct (dict_keys items)
  end.

(** What may follow a value inside a JSON text: nothing, a comma or a
    closing bracket. *)
Definition delimited (rest : str) : Prop :=
  match rest with
  | [] => True
  | c :: _ => c = ch "," \/ c = ch "]" \/ c = ch "}"
  end.

(** The text [x] is read as the value [v], whatever delimited text
    follows, once the fuel allows. *)
Definition reads_as (x : str) (v : pyval) : Prop :=
  forall rest, delimited rest ->
    exists n, forall m, (n <= m)%nat -> scan_once m (x ++ rest) = Scanned v rest.

(** The first character of a value's text: no white space and no closing
    bracket. *)
Definition opens_value (c : codepoint) : Prop :=
  is_ws c = false /\ c <> ch "]" /\ c <> ch "}".

(** A text that opens as a value does. *)
Definition opens (x : str) : Prop :=
  exists c x', x = c :: x' /\ opens_value c.

(** The parameters of [upload_annotations]. *)
Definition annotation_params (annotations : pyval) (force_complete : bool)
  : pyval :=
  PDict [(u "annotations", annotations);
         (u "force_complete", PBool force_complete)].

(** The operations that read JSON. *)
Definition is_json_reader (op : operation) : bool :=
  match op with
  | GetAllUsers | GetAssignments | GetGroups _ | GetGroupsByName _
  | GetGroup _ _ | GetFeedbackFiles _ _ => true
  | _ => false
  end.

(** ** Notions of the addresses *)

(** The keyword arguments of a path whose identifiers are integers. *)
Definition numbered (names : list str) (ids : list Z) : dict pyval :=
  List.combine names (List.map PInt ids).

(** A character of the decimal text of an integer. *)
Definition decimal_char (c : codepoint) : Prop :=
  is_digit c = true \/ c = ch "-".

(** ** Notions of the JSON bodies as text *)

(** The characters [json.dumps] writes with [ensure_ascii]: printable
    ASCII. *)
Definition printable (c : codepoint) : bool := (0x20 <=? c) && (c <=? 0x7E).

(** A body that [http.client] can always put on the wire: none, or
    printable ASCII. *)
Definition plain_body (rq : Request) : Prop :=
  payload rq = PNone
  \/ exists body, payload rq = PStr body /\ forallb printable body = true.

(** * Proofs *)

(** ** UTF-8: decoding inverts encoding *)

Lemma to_N_byte_of_N (n : N) : n < 256 -> Byte.to_N (byte_of_N n) = n.
Proof.
  intros Hn. unfold byte_of_N.
  destruct (Byte.of_N n) as [x|] eqn:E.
  - now apply Byte.to_of_N.
  - pose proof (Byte.to_of_N_option_map n) as H. rewrite E in H.
    cbn in H. destruct (N.leb_spec n 255); [discriminate | lia].
Qed.

Lemma byte_of_N_to_N (x : byte) : byte_of_N (Byte.to_N x) = x.
Proof. unfold byte_of_N. now rewrite Byte.of_to_N. Qed.

Lemma to_N_lt_256 (x : byte) : Byte.to_N x < 256.
Proof. pose proof (Byte.to_N_bounded x). lia. Qed.

Lemma scalar_spec (c : codepoint) :
  scalar c = true <-> c < 0x110000 /\ ~ (0xD800 <= c <= 0xDFFF).
Proof.
  unfold scalar, is_surrogate.
  destruct (N.ltb_spec c 0x110000), (N.leb_spec 0xD800 c),
    (N.leb_spec c 0xDFFF); cbn; split; intros; try discriminate; try lia;
    auto.
Qed.

Lemma utf8_decode_encode_cp (c : codepoint) :
  scalar c = true ->
  exists bs, utf8_encode_cp c = Some bs
    /\ forall rest, utf8_decode (bs ++ rest) = option_map (cons c) (utf8_decode rest).
Proof.
  intros Hc. apply scalar_spec in Hc. destruct Hc as [Hmax Hsur].
  unfold utf8_encode_cp, is_surrogate.
  destruct (N.ltb_spec c 0x80) as [H1|H1].
  { eexists; split; [reflexivity|]. intros rest. cbn [app utf8_decode].
    rewrite to_N_byte_of_N by lia. now split_cmp. }
  destruct (N.ltb_spec c 0x800) as [H2|H2].
  { assert (Hc : c = c / 64 * 64 + c mod 64) by divlia.
    assert (B0 : c / 64 < 32 /\ 2 <= c / 64) by divlia.
    assert (B1 : c mod 64 < 64) by divlia.
    revert Hc B0 B1. generalize (c / 64) (c mod 64). intros a0 a1 Hc B0 B1.
    eexists; split; [reflexivity|]. intros rest.
    cbn [app utf8_decode]. unfold is_cont, cont_bits.
    rewrite !to_N_byte_of_N by lia.
    split_cmp. cbn [andb]. do 2 f_equal. lia. }
  destruct (N.ltb_spec c 0x10000) as [H3|H3].
  { assert (Hc : c = c / 4096 * 4096 + (c / 64) mod 64 * 64 + c mod 64)
      by divlia.
    assert (B0 : c / 4096 < 16) by divlia.
    assert (B1 : (c / 64) mod 64 < 64) by divlia.
    assert (B2 : c mod 64 < 64) by divlia.
    revert Hc B0 B1 B2.
    generalize (c / 4096) ((c / 64) mod 64) (c mod 64).
    intros a0 a1 a2 Hc B0 B1 B2.
    destruct (N.leb_spec 0xD800 c), (N.leb_spec c 0xDFFF); try lia;
      cbn [andb]; (eexists; split; [reflexivity|]); intros rest;
      cbn [app utf8_decode]; unfold is_cont, cont_bits, is_surrogate;
      rewrite !to_N_byte_of_N by lia;
      replace ((0xE0 + a0 - 0xE0) * 4096 + (0x80 + a1 - 0x80) * 64
               + (0x80 + a2 - 0x80)) with c by lia;
      split_cmp; reflexivity. }
  destruct (N.ltb_spec c 0x110000) as [H4|H4]; [|lia].
  assert (Hc : c = c / 262144 * 262144 + (c / 4096) mod 64 * 4096
                   + (c / 64) mod 64 * 64 + c mod 64) by divlia.
  assert (B0 : c / 262144 < 5) by divlia.
  assert (B1 : (c / 4096) mod 64 < 64) by divlia.
  assert (B2 : (c / 64) mod 64 < 64) by divlia.
  assert (B3 : c mod 64 < 64) by divlia.
  revert Hc B0 B1 B2 B3.
  generalize (c / 262144) ((c / 4096) mod 64) ((c / 64) mod 64) (c mod 64).
  intros a0 a1 a2 a3 Hc B0 B1 B2 B3.
  eexists; split; [reflexivity|]. intros rest.
  cbn [app utf8_decode]. unfold is_cont, cont_bits.
  rewrite !to_N_byte_of_N by lia.
  replace ((0xF0 + a0 - 0xF0) * 262144 + (0x80 + a1 - 0x80) * 4096
           + (0x80 + a2 - 0x80) * 64 + (0x80 + a3 - 0x80)) with c by lia.
  split_cmp. reflexivity.
Qed.

Lemma utf8_decode_encode (s : str) :
  encodable s = true ->
  exists bs, utf8_encode s = Some bs /\ utf8_decode bs = Some s.
Proof.
  induction s as [|c s IH]; intros Hs.
  - exists []. split; reflexivity.
  - cbn in Hs. apply andb_prop in Hs. destruct Hs as [Hc Hs].
    destruct (IH Hs) as (rest & Er & Dr).
    destruct (utf8_decode_encode_cp c Hc) as (bs & Ec & Dc).
    exists (bs ++ rest). split.
    + cbn. now rewrite Ec, Er.
    + now rewrite Dc, Dr.
Qed.

(** Only a string of scalar values can be encoded. *)
Lemma utf8_encode_encodable (s : str) bs :
  utf8_encode s = Some bs -> encodable s = true.
Proof.
  revert bs. induction s as [|c s IH]; intros bs H; [reflexivity|].
  cbn in H. destruct (utf8_encode_cp c) as [x|] eqn:Ec; [|discriminate].
  destruct (utf8_encode s) as [r|] eqn:Er; [|discriminate].
  change (scalar c && encodable s = true).
  rewrite (IH _ eq_refl), andb_true_r.
  unfold utf8_encode_cp in Ec. unfold scalar.
  destruct (c <? 0x80) eqn:E1.
  { apply N.ltb_lt in E1. unfold is_surrogate.
    now split_cmp. }
  destruct (c <? 0x800) eqn:E2.
  { apply N.ltb_lt in E2. unfold is_surrogate. now split_cmp. }
  destruct (c <? 0x10000) eqn:E3.
  { apply N.ltb_lt in E3. destruct (is_surrogate c); [discriminate|].
    now split_cmp. }
  destruct (c <? 0x110000) eqn:E4; [|discriminate].
  apply N.ltb_lt in E4. apply N.ltb_ge in E3. unfold is_surrogate.
  now split_cmp.
Qed.

(** ** UTF-8: only encodings are decoded *)

Lemma option_map_cons_some {A} (c : A) (x : option (list A)) (s : list A) :
  option_map (cons c) x = Some s -> exists s', x = Some s' /\ s = c :: s'.
Proof. destruct x as [s'|]; cbn; [intros [= <-]; eauto | discriminate]. Qed.

Lemma is_cont_spec (x : byte) :
  is_cont x = true -> 0x80 <= Byte.to_N x <= 0xBF.
Proof.
  unfold is_cont. intros H. apply andb_prop in H. destruct H as [A B].
  apply N.leb_le in A, B. lia.
Qed.

Lemma utf8_encode_cons (c : N) (s : str) (bs rest : bytes) :
  utf8_encode_cp c = Some bs -> utf8_encode s = Some rest ->
  utf8_encode (c :: s) = Some (bs ++ rest).
Proof. intros E1 E2. cbn [utf8_encode]. now rewrite E1, E2. Qed.

Lemma utf8_encode_decode_le (n : nat) :
  forall bs s, (List.length bs <= n)%nat ->
    utf8_decode bs = Some s -> utf8_encode s = Some bs.
Proof.
  induction n as [|n IH]; intros bs s Hn H.
  { destruct bs; [injection H as <-; reflexivity | cbn in Hn; lia]. }
  destruct bs as [|b0 r0]; [injection H as <-; reflexivity|].
  cbn [List.length] in Hn. cbn [utf8_decode] in H.
  pose proof (to_N_lt_256 b0) as B0.
  pose proof (byte_of_N_to_N b0) as R0.
  revert H B0 R0. generalize (Byte.to_N b0). intros n0 H B0 R0.
  destruct (N.ltb_spec n0 0x80) as [L1|L1].
  { apply option_map_cons_some in H. destruct H as (s' & D & ->).
    apply IH in D; [|lia].
    apply (utf8_encode_cons n0 s' [b0] r0); [|exact D].
    unfold utf8_encode_cp. destruct (N.ltb_spec n0 0x80); [|lia].
    now rewrite R0. }
  destruct (N.leb_spec 0xC2 n0) as [L2|L2];
    [destruct (N.leb_spec n0 0xDF) as [L3|L3]|]; cbn [andb] in H.
  { destruct r0 as [|b1 r1]; [discriminate|].
    destruct (is_cont b1) eqn:C1; [|discriminate].
    apply is_cont_spec in C1. unfold cont_bits in H.
    pose proof (byte_of_N_to_N b1) as R1.
    revert H C1 R1. generalize (Byte.to_N b1). intros n1 H C1 R1.
    apply option_map_cons_some in H. destruct H as (s' & D & ->).
    apply IH in D; [|cbn [List.length] in Hn; lia].
    apply (utf8_encode_cons _ s' [b0; b1] r1); [|exact D].
    set (c := (n0 - 0xC0) * 64 + (n1 - 0x80)).
    assert (Q0 : 0xC0 + c / 64 = n0) by (subst c; divlia).
    assert (Q1 : 0x80 + c mod 64 = n1) by (subst c; divlia).
    assert (Rc : 0x80 <= c < 0x800) by (subst c; lia).
    unfold utf8_encode_cp.
    destruct (N.ltb_spec c 0x80); [lia|].
    destruct (N.ltb_spec c 0x800); [|lia].
    now rewrite Q0, Q1, R0, R1. }
  all: destruct (N.leb_spec 0xE0 n0) as [L4|L4];
    [destruct (N.leb_spec n0 0xEF) as [L5|L5]|]; cbn [andb] in H;
    try discriminate.
  all: try (destruct (N.leb_spec 0xF0 n0) as [L6|L6];
            [destruct (N.leb_spec n0 0xF4) as [L7|L7]|]; cbn [andb] in H;
            try discriminate).
  all: try lia.
  - (* three octets *)
    destruct r0 as [|b1 [|b2 r2]]; try discriminate.
    destruct (is_cont b1) eqn:C1; [|discriminate].
    destruct (is_cont b2) eqn:C2; [|discriminate].
    apply is_cont_spec in C1, C2. unfold cont_bits in H. cbn [andb] in H.
    pose proof (byte_of_N_to_N b1) as R1.
    pose proof (byte_of_N_to_N b2) as R2.
    revert H C1 R1 C2 R2. generalize (Byte.to_N b1) (Byte.to_N b2).
    intros n1 n2 H C1 R1 C2 R2.
    set (c := (n0 - 0xE0) * 4096 + (n1 - 0x80) * 64 + (n2 - 0x80)) in *.
    destruct (N.leb_spec 0x800 c) as [L8|L8]; [|discriminate].
    destruct (is_surrogate c) eqn:Sc; [discriminate|]. cbn [andb negb] in H.
    apply option_map_cons_some in H. destruct H as (s' & D & ->).
    apply IH in D; [|cbn [List.length] in Hn; lia].
    apply (utf8_encode_cons _ s' [b0; b1; b2] r2); [|exact D].
    assert (Q0 : 0xE0 + c / 4096 = n0) by (subst c; divlia).
    assert (Q1 : 0x80 + (c / 64) mod 64 = n1) by (subst c; divlia).
    assert (Q2 : 0x80 + c mod 64 = n2) by (subst c; divlia).
    assert (Rc : c < 0x10000) by (subst c; lia).
    unfold utf8_encode_cp. rewrite Sc.
    destruct (N.ltb_spec c 0x80); [lia|].
    destruct (N.ltb_spec c 0x800); [lia|].
    destruct (N.ltb_spec c 0x10000); [|lia].
    now rewrite Q0, Q1, Q2, R0, R1, R2.
  - (* four octets *)
    destruct r0 as [|b1 [|b2 [|b3 r3]]]; try discriminate.
    destruct (is_cont b1) eqn:C1; [|discriminate].
    destruct (is_cont b2) eqn:C2; [|discriminate].
    destruct (is_cont b3) eqn:C3; [|discriminate].
    apply is_cont_spec in C1, C2, C3. unfold cont_bits in H. cbn [andb] in H.
    pose proof (byte_of_N_to_N b1) as R1.
    pose proof (byte_of_N_to_N b2) as R2.
    pose proof (byte_of_N_to_N b3) as R3.
    revert H C1 R1 C2 R2 C3 R3.
    generalize (Byte.to_N b1) (Byte.to_N b2) (Byte.to_N b3).
    intros n1 n2 n3 H C1 R1 C2 R2 C3 R3.
    set (c := (n0 - 0xF0) * 262144 + (n1 - 0x80) * 4096 + (n2 - 0x80) * 64
              + (n3 - 0x80)) in *.
    destruct (N.leb_spec 0x10000 c) as [L8|L8]; [|discriminate].
    destruct (N.ltb_spec c 0x110000) as [L9|L9]; [|discriminate].
    cbn [andb] in H.
    apply option_map_cons_some in H. destruct H as (s' & D & ->).
    apply IH in D; [|cbn [List.length] in Hn; lia].
    apply (utf8_encode_cons _ s' [b0; b1; b2; b3] r3); [|exact D].
    assert (Q0 : 0xF0 + c / 262144 = n0) by (subst c; divlia).
    assert (Q1 : 0x80 + (c / 4096) mod 64 = n1) by (subst c; divlia).
    assert (Q2 : 0x80 + (c / 64) mod 64 = n2) by (subst c; divlia).
    assert (Q3 : 0x80 + c mod 64 = n3) by (subst c; divlia).
    unfold utf8_encode_cp.
    destruct (N.ltb_spec c 0x80); [lia|].
    destruct (N.ltb_spec c 0x800); [lia|].
    destruct (N.ltb_spec c 0x10000); [lia|].
    destruct (N.ltb_spec c 0x110000); [|lia].
    now rewrite Q0, Q1, Q2, Q3, R0, R1, R2, R3.
Qed.

(** The octets [bytes.decode] accepts are exactly the encodings of
    strings. *)
Lemma utf8_decode_iff (bs : bytes) (s : str) :
  utf8_decode bs = Some s <-> utf8_encode s = Some bs.
Proof.
  split.
  - apply (utf8_encode_decode_le (List.length bs)). lia.
  - intros E. destruct (utf8_decode_encode s (utf8_encode_encodable s bs E))
      as (bs' & E' & D). congruence.
Qed.

(** ** Percent-encoding is reversible *)

Lemma always_safe_cases (x : byte) :
  always_safe x = true ->
  (0x41 <= Byte.to_N x <= 0x5A) \/ (0x61 <= Byte.to_N x <= 0x7A)
  \/ (0x30 <= Byte.to_N x <= 0x39)
  \/ Byte.to_N x = 0x5F \/ Byte.to_N x = 0x2E \/ Byte.to_N x = 0x2D
  \/ Byte.to_N x = 0x7E.
Proof.
  destruct x; intros H; try discriminate H; vm_compute; intuition congruence.
Qed.

Lemma chunk_of_quoter (x : byte) : chunk_of x (quoter [] x).
Proof.
  unfold quoter. cbn [byte_in existsb]. rewrite orb_false_r.
  destruct (always_safe x) eqn:E; constructor. exact E.
Qed.

Lemma hex_digit_range (n : N) :
  n < 16 ->
  (0x30 <= hex_digit n <= 0x39 /\ hex_digit n = 0x30 + n /\ n < 10)
  \/ (0x41 <= hex_digit n <= 0x46 /\ hex_digit n = 0x41 + (n - 10) /\ 10 <= n).
Proof.
  intros H. unfold hex_digit. destruct (N.ltb_spec n 10); lia.
Qed.

Lemma hex_digit_not_blank (n : N) :
  n < 16 ->
  (if hex_digit n =? ch " " then ch "+" else hex_digit n) = hex_digit n.
Proof.
  intros Hn. destruct (N.eqb_spec (hex_digit n) (ch " ")) as [Q|Q];
    [|reflexivity].
  change (ch " ") with 32 in Q.
  destruct (hex_digit_range n Hn) as [(?&?&?)|(?&?&?)]; lia.
Qed.

Lemma hex_digit_not_plus (n : N) :
  n < 16 ->
  (if hex_digit n =? ch "+" then ch " " else hex_digit n) = hex_digit n.
Proof.
  intros Hn. destruct (N.eqb_spec (hex_digit n) (ch "+")) as [Q|Q];
    [|reflexivity].
  change (ch "+") with 43 in Q.
  destruct (hex_digit_range n Hn) as [(?&?&?)|(?&?&?)]; lia.
Qed.

Lemma chunk_of_quoter_plus (x : byte) :
  chunk_of x (str_replace (ch " ") (ch "+") (quoter (b " ") x)).
Proof.
  unfold quoter. cbn [byte_in existsb b list_ascii_of_string List.map].
  rewrite orb_false_r.
  destruct (always_safe x) eqn:E.
  - cbn [orb str_replace List.map].
    pose proof (always_safe_cases x E) as C.
    destruct (N.eqb_spec (Byte.to_N x) (ch " ")) as [A|A].
    + cbn in A. lia.
    + now constructor.
  - cbn [orb]. destruct (Byte.eqb x (byte_of_ascii " ")) eqn:S.
    + apply Byte.byte_dec_bl in S. subst x. cbn. now constructor.
    + cbn [str_replace List.map].
      assert (Hh : Byte.to_N x / 16 < 16)
        by (pose proof (to_N_lt_256 x); divlia).
      assert (Hl : Byte.to_N x mod 16 < 16) by divlia.
      rewrite !hex_digit_not_blank by assumption.
      change (ch "%" =? ch " ") with false. cbn iota. constructor.
Qed.

Lemma quoted_flat_map (f : byte -> str) (bs : bytes) :
  (forall x, chunk_of x (f x)) -> quoted bs (flat_map f bs).
Proof.
  intros Hf. induction bs as [|x bs IH]; cbn; constructor; auto.
Qed.

Lemma str_replace_flat_map {A} old new (f : A -> str) (l : list A) :
  str_replace old new (flat_map f l)
  = flat_map (fun x => str_replace old new (f x)) l.
Proof.
  unfold str_replace. induction l as [|x l IH]; [reflexivity|].
  cbn [flat_map]. rewrite List.map_app. now f_equal.
Qed.

Lemma quote_plus_quoted (s : str) :
  encodable s = true ->
  exists bs q, utf8_encode s = Some bs /\ utf8_decode bs = Some s
               /\ quote_plus s = Ok q /\ quoted bs q.
Proof.
  intros Hs. destruct (utf8_decode_encode s Hs) as (bs & E & D).
  unfold quote_plus, quote, str_encode. rewrite E. cbn [of_option obind].
  destruct (str_in (ch " ") s).
  - exists bs, (str_replace (ch " ") (ch "+") (quote_from_bytes bs (b " "))).
    repeat split; auto. unfold quote_from_bytes.
    rewrite str_replace_flat_map. apply quoted_flat_map.
    apply chunk_of_quoter_plus.
  - exists bs, (quote_from_bytes bs []). repeat split; auto.
    apply quoted_flat_map, chunk_of_quoter.
Qed.

Lemma chunk_of_field_char x c : chunk_of x c -> Forall field_char c.
Proof.
  intros H. destruct H as [Hs | Hx | ].
  - pose proof (always_safe_cases x Hs) as C.
    repeat constructor; cbn; lia.
  - repeat constructor; cbn; lia.
  - assert (Hh : Byte.to_N x / 16 < 16)
      by (pose proof (to_N_lt_256 x); divlia).
    assert (Hl : Byte.to_N x mod 16 < 16) by divlia.
    destruct (hex_digit_range _ Hh) as [(?&?&?)|(?&?&?)],
      (hex_digit_range _ Hl) as [(?&?&?)|(?&?&?)];
      repeat constructor; cbn; lia.
Qed.

Lemma quoted_field_char bs s : quoted bs s -> Forall field_char s.
Proof.
  induction 1 as [|x c bs s Hc _ IH]; [constructor|].
  apply Forall_app. split; [eapply chunk_of_field_char; eauto | exact IH].
Qed.

Lemma hex_value_hex_digit (n : N) :
  n < 16 -> hex_value (byte_of_N (hex_digit n)) = Some n.
Proof.
  intros H. unfold hex_value.
  destruct (hex_digit_range n H) as [(A&B&C)|(A&B&C)];
    rewrite to_N_byte_of_N by lia; split_cmp; cbn [andb]; f_equal; lia.
Qed.

Lemma unquote_to_bytes_plain (x : byte) (rest : bytes) :
  Byte.eqb x "%" = false ->
  unquote_to_bytes (x :: rest) = x :: unquote_to_bytes rest.
Proof. intros H. cbn [unquote_to_bytes]. now rewrite H. Qed.

Lemma unquote_to_bytes_escape (h l : byte) (hi lo : N) (rest : bytes) :
  hex_value h = Some hi -> hex_value l = Some lo ->
  unquote_to_bytes ("%"%byte :: h :: l :: rest)
  = byte_of_N (16 * hi + lo) :: unquote_to_bytes rest.
Proof.
  intros Hh Hl. cbn [unquote_to_bytes].
  change (Byte.eqb "%" "%") with true. cbn iota. now rewrite Hh, Hl.
Qed.

Lemma field_bytes_app (s t : str) :
  field_bytes (s ++ t) = field_bytes s ++ field_bytes t.
Proof. unfold field_bytes, str_replace. now rewrite !List.map_app. Qed.

Lemma field_bytes_hex (n : N) (s : str) :
  n < 16 -> field_bytes (hex_digit n :: s) = byte_of_N (hex_digit n) :: field_bytes s.
Proof.
  intros Hn. unfold field_bytes, str_replace. cbn [List.map].
  now rewrite hex_digit_not_plus.
Qed.

Lemma unquote_to_bytes_quoted bs s :
  quoted bs s -> unquote_to_bytes (field_bytes s) = bs.
Proof.
  induction 1 as [|x c bs s Hc _ IH]; [reflexivity|].
  rewrite field_bytes_app.
  destruct Hc as [Hs | Hx | ].
  - pose proof (always_safe_cases x Hs) as C.
    assert (E : field_bytes [Byte.to_N x] = [x]).
    { unfold field_bytes, str_replace. cbn [List.map].
      destruct (N.eqb_spec (Byte.to_N x) (ch "+")) as [A|A];
        [change (ch "+") with 43 in A; lia|].
      now rewrite byte_of_N_to_N. }
    rewrite E. cbn [app]. rewrite unquote_to_bytes_plain, IH; [reflexivity|].
    destruct (Byte.eqb x "%") eqn:P; [|reflexivity].
    apply Byte.byte_dec_bl in P. subst x. cbn in C. lia.
  - subst x. change (field_bytes [ch "+"]) with [" "%byte]. cbn [app].
    rewrite unquote_to_bytes_plain, IH; reflexivity.
  - assert (Hh : Byte.to_N x / 16 < 16)
      by (pose proof (to_N_lt_256 x); divlia).
    assert (Hl : Byte.to_N x mod 16 < 16) by divlia.
    change (field_bytes [ch "%"; hex_digit (Byte.to_N x / 16);
                         hex_digit (Byte.to_N x mod 16)])
      with ("%"%byte :: field_bytes [hex_digit (Byte.to_N x / 16);
                                     hex_digit (Byte.to_N x mod 16)]).
    rewrite !field_bytes_hex by assumption.
    change (field_bytes []) with (@nil byte). cbn [app].
    rewrite (unquote_to_bytes_escape _ _ _ _ _
               (hex_value_hex_digit _ Hh) (hex_value_hex_digit _ Hl)).
    rewrite IH. f_equal.
    replace (16 * (Byte.to_N x / 16) + Byte.to_N x mod 16) with (Byte.to_N x)
      by divlia.
    apply byte_of_N_to_N.
Qed.

Lemma unquote_from_ascii (s : str) (run : bytes) :
  Forall (fun c => c < 0x80) s ->
  unquote_from s run = unquote_run (rev (List.map byte_of_N s) ++ run).
Proof.
  intros H. revert run. induction H as [|c s Hc _ IH]; intros run.
  - reflexivity.
  - cbn [unquote_from List.map rev].
    destruct (N.ltb_spec c 0x80); [|lia].
    now rewrite IH, <- app_assoc.
Qed.

Lemma byte_of_N_not_percent (c : codepoint) :
  c < 0x80 -> c <> ch "%" -> Byte.eqb (byte_of_N c) "%" = false.
Proof.
  intros Hc Hp. destruct (Byte.eqb (byte_of_N c) "%") eqn:E; [|reflexivity].
  apply Byte.byte_dec_bl in E. apply (f_equal Byte.to_N) in E.
  rewrite to_N_byte_of_N in E by lia. now subst c.
Qed.

Lemma decode_plain_ascii (s : str) :
  Forall (fun c => c < 0x80) s -> str_in (ch "%") s = false ->
  utf8_decode (unquote_to_bytes (List.map byte_of_N s)) = Some s.
Proof.
  induction 1 as [|c s Hc _ IH]; intros Hp; [reflexivity|].
  cbn [str_in existsb] in Hp. apply orb_false_elim in Hp.
  destruct Hp as [Hp1 Hp2]. apply N.eqb_neq in Hp1.
  cbn [List.map]. rewrite unquote_to_bytes_plain
    by (apply byte_of_N_not_percent; auto).
  cbn [utf8_decode]. rewrite to_N_byte_of_N by lia.
  destruct (N.ltb_spec c 0x80); [|lia].
  now rewrite (IH Hp2).
Qed.

Lemma unquote_ascii (s : str) :
  Forall (fun c => c < 0x80) s ->
  unquote s = bytes_decode (unquote_to_bytes (List.map byte_of_N s)).
Proof.
  intros H. unfold unquote. destruct (str_in (ch "%") s) eqn:E.
  - rewrite unquote_from_ascii by assumption.
    unfold unquote_run. now rewrite app_nil_r, rev_involutive.
  - unfold bytes_decode. now rewrite decode_plain_ascii.
Qed.

Lemma str_replace_ascii (s : str) :
  Forall field_char s ->
  Forall (fun c => c < 0x80) (str_replace (ch "+") (ch " ") s).
Proof.
  unfold str_replace. induction 1 as [|c s [Hc _] _ IH]; cbn [List.map];
    constructor; auto.
  destruct (c =? ch "+"); [now cbn | assumption].
Qed.

(** One quoted name or value is read back as it was. *)
Lemma unquote_quote_plus (s q : str) :
  encodable s = true -> quote_plus s = Ok q ->
  Forall field_char q /\ unquote (str_replace (ch "+") (ch " ") q) = Ok s.
Proof.
  intros Hs Hq. destruct (quote_plus_quoted s Hs) as (bs & q' & E & D & Q & R).
  rewrite Q in Hq. injection Hq as <-.
  pose proof (quoted_field_char _ _ R) as F. split; [exact F|].
  rewrite unquote_ascii by now apply str_replace_ascii.
  change (List.map byte_of_N (str_replace (ch "+") (ch " ") q'))
    with (field_bytes q').
  rewrite (unquote_to_bytes_quoted _ _ R). unfold bytes_decode. now rewrite D.
Qed.

(** ** Splitting what was joined *)

Lemma str_split1_app (sep : codepoint) (s t : str) :
  Forall (fun c => c <> sep) s ->
  str_split1 sep (s ++ sep :: t) = (s, Some t).
Proof.
  induction 1 as [|c s Hc _ IH]; cbn [app str_split1].
  - now rewrite N.eqb_refl.
  - destruct (N.eqb_spec c sep); [contradiction|]. now rewrite IH.
Qed.

Lemma str_split_single (sep : codepoint) (s : str) :
  Forall (fun c => c <> sep) s -> str_split sep s = [s].
Proof.
  induction 1 as [|c s Hc _ IH]; [reflexivity|].
  cbn [str_split]. destruct (N.eqb_spec c sep); [contradiction|].
  now rewrite IH.
Qed.

Lemma str_split_app (sep : codepoint) (s t : str) :
  Forall (fun c => c <> sep) s ->
  str_split sep (s ++ sep :: t) = s :: str_split sep t.
Proof.
  induction 1 as [|c s Hc _ IH]; cbn [app str_split].
  - now rewrite N.eqb_refl.
  - destruct (N.eqb_spec c sep); [contradiction|]. now rewrite IH.
Qed.

Lemma str_split_join (sep : codepoint) (parts : list str) :
  parts <> [] ->
  Forall (Forall (fun c => c <> sep)) parts ->
  str_split sep (str_join [sep] parts) = parts.
Proof.
  intros Hne H. induction H as [|p rest Hp Hrest IH]; [contradiction|].
  destruct rest as [|p' rest'].
  - cbn [str_join]. now apply str_split_single.
  - change (str_join [sep] (p :: p' :: rest'))
      with (p ++ sep :: str_join [sep] (p' :: rest')).
    rewrite str_split_app by assumption. f_equal. apply IH. discriminate.
Qed.

(** ** [dict(items)] keeps a list without repeated keys *)

Lemma dict_set_fresh {V} (d : dict V) (k : str) (v : V) :
  ~ In k (dict_keys d) -> dict_set d k v = d ++ [(k, v)].
Proof.
  induction d as [|[k' v'] d IH]; intros Hk; [reflexivity|].
  cbn [dict_set app]. unfold str_eqb.
  destruct (list_eq_dec N.eq_dec k' k) as [->|Hne].
  - exfalso. apply Hk. now left.
  - f_equal. apply IH. intros Hin. apply Hk. now right.
Qed.

Lemma dict_of_items_nodup {V} (items : list (str * V)) :
  NoDup (dict_keys items) -> dict_of_items items = items.
Proof.
  unfold dict_of_items.
  enough (G : forall acc, NoDup (dict_keys (acc ++ items)) ->
            fold_left (fun d kv => dict_set d (fst kv) (snd kv)) items acc
            = acc ++ items) by (intros H; apply (G [] H)).
  induction items as [|[k v] items IH]; intros acc H.
  - cbn. now rewrite app_nil_r.
  - cbn [fold_left fst snd].
    assert (Hk : ~ In k (dict_keys acc)).
    { unfold dict_keys in *. rewrite List.map_app in H.
      apply NoDup_remove_2 in H. intros Hin. apply H.
      apply in_or_app. now left. }
    rewrite dict_set_fresh by assumption.
    rewrite IH; rewrite <- app_assoc; [reflexivity | exact H].
Qed.

(** ** C8: the form encoding of a mapping is read back as the mapping *)

Section Roundtrip.
Context {lib : PyLib}.

Lemma urlencode_item_parse (k v : str) :
  encodable k = true -> encodable v = true ->
  exists f, urlencode_item (k, PStr v) = Ok f
            /\ Forall (fun c => c <> ch "&") f
            /\ parse_field true f = Ok [(k, v)].
Proof.
  intros Hk Hv.
  destruct (quote_plus_quoted k Hk) as (bk & kq & _ & _ & Qk & _).
  destruct (quote_plus_quoted v Hv) as (bv & vq & _ & _ & Qv & _).
  destruct (unquote_quote_plus k kq Hk Qk) as [Fk Uk].
  destruct (unquote_quote_plus v vq Hv Qv) as [Fv Uv].
  exists (kq ++ ch "=" :: vq). split; [|split].
  - unfold urlencode_item, quote_value. cbn [fst snd py_str].
    now rewrite Qk, Qv.
  - apply Forall_app. split.
    + eapply Forall_impl; [|exact Fk]. intros c (_ & A & _). exact A.
    + constructor; [discriminate|].
      eapply Forall_impl; [|exact Fv]. intros c (_ & A & _). exact A.
  - unfold parse_field.
    assert (L : Nat.eqb (List.length (kq ++ ch "=" :: vq)) 0 = false).
    { rewrite length_app. cbn [List.length].
      apply PeanoNat.Nat.eqb_neq. lia. }
    rewrite L, str_split1_app.
    + rewrite orb_true_r, Uk, Uv. reflexivity.
    + eapply Forall_impl; [|exact Fk]. intros c (_ & _ & A). exact A.
Qed.

Lemma urlencode_fields (m : dict str) :
  Forall (fun kv => encodable (fst kv) = true /\ encodable (snd kv) = true) m ->
  exists fields,
    traverse urlencode_item (str_values m) = Ok fields
    /\ Forall (Forall (fun c => c <> ch "&")) fields
    /\ traverse (parse_field true) fields = Ok (List.map (fun kv => [kv]) m)
    /\ (fields = [] <-> m = []).
Proof.
  induction 1 as [|[k v] m [Hk Hv] _ (fields & T & F & P & E)].
  - exists []. repeat split; auto.
  - destruct (urlencode_item_parse k v Hk Hv) as (f & Uf & Ff & Pf).
    exists (f :: fields). repeat split; try discriminate.
    + change (str_values ((k, v) :: m)) with ((k, PStr v) :: str_values m).
      cbn [traverse]. now rewrite Uf, T.
    + now constructor.
    + cbn [traverse List.map]. now rewrite Pf, P.
Qed.

Lemma concat_singletons {A} (l : list A) :
  List.concat (List.map (fun x => [x]) l) = l.
Proof. induction l as [|x l IH]; [reflexivity|]. cbn. now rewrite IH. Qed.

(** C8, as the code has it.  For every mapping from strings to strings
    whose strings can be encoded as UTF-8 (they hold no lone surrogate),
    [urlencode] returns a query string, and parsing that query string back,
    blank values kept, gives the mapping itself. *)
Theorem urlencode_roundtrip (m : dict str) :
  NoDup (dict_keys m) ->
  Forall (fun kv => encodable (fst kv) = true /\ encodable (snd kv) = true) m ->
  exists qs, urlencode (str_values m) = Ok qs /\ parse_query qs = Ok m.
Proof.
  intros Hnd Henc.
  destruct (urlencode_fields m Henc) as (fields & T & F & P & E).
  exists (str_join (u "&") fields). split.
  - unfold urlencode. now rewrite T.
  - unfold parse_query, parse_qsl.
    destruct fields as [|f fields].
    + assert (m = []) as -> by now apply E.
      reflexivity.
    + change (u "&") with [ch "&"].
      rewrite str_split_join by (auto; discriminate).
      rewrite P. cbn [obind]. rewrite concat_singletons.
      now rewrite dict_of_items_nodup.
Qed.

End Roundtrip.

(** The mapping of the specification's example and its query string. *)
Example urlencode_example :
  urlencode (lib := Sample.lib)
    (str_values [(u "a", u "1"); (u "b", u "x y")]) = Ok (u "a=1&b=x+y")
  /\ parse_query (u "a=1&b=x+y") = Ok [(u "a", u "1"); (u "b", u "x y")].
Proof. split; reflexivity. Qed.

Lemma urlencode_roundtrip_witness :
  exists qs,
    urlencode (lib := Sample.lib)
      (str_values [(u "a", u "1"); (u "b", u "x y")]) = Ok qs
    /\ parse_query qs = Ok [(u "a", u "1"); (u "b", u "x y")].
Proof.
  apply (urlencode_roundtrip (lib := Sample.lib)).
  - repeat constructor; cbn; intuition discriminate.
  - repeat constructor.
Defined.

(** C8 as stated fails: a string may hold a lone surrogate, which
    [urlencode] cannot encode; and the parser drops a blank value unless
    told to keep it. *)
Lemma urlencode_counterexample :
  urlencode (lib := Sample.lib) (str_values [(u "a", [0xD800])])
  = Raise UnicodeEncodeError
  /\ urlencode (lib := Sample.lib) (str_values [(u "a", [])]) = Ok (u "a=")
  /\ parse_qsl false (u "a=") = Ok []
  /\ parse_qsl true (u "a=") = Ok [(u "a", [])].
Proof. repeat split. Qed.

(** ** C3: the path builder *)

Section PathBuilder.
Context {lib : PyLib}.

Lemma segments_cons (name : str) (id : pyval) (rest : dict pyval) :
  segments ((name, id) :: rest)
  = name :: (if is_none id then [] else [py_str id]) ++ segments rest.
Proof.
  unfold segments. cbn [flat_map fst snd app List.filter is_none negb List.map py_str].
  destruct (is_none id); cbn [negb List.map app]; reflexivity.
Qed.

Lemma slash_join (parts : list str) :
  parts <> [] ->
  u "/" ++ str_join (u "/") parts = flat_map (fun p => u "/" ++ p) parts.
Proof.
  induction parts as [|p parts IH]; [contradiction|]. intros _.
  destruct parts as [|p' parts].
  - cbn [str_join flat_map]. now rewrite app_nil_r.
  - change (str_join (u "/") (p :: p' :: parts))
      with (p ++ u "/" ++ str_join (u "/") (p' :: parts)).
    rewrite IH by discriminate. cbn [flat_map].
    now rewrite <- !app_assoc.
Qed.

Lemma flat_map_segments (kwargs : dict pyval) :
  flat_map (fun p => u "/" ++ p) (segments kwargs) = path_segments kwargs.
Proof.
  induction kwargs as [|[name id] rest IH]; [reflexivity|].
  rewrite segments_cons. cbn [path_segments].
  destruct (is_none id); cbn [app flat_map]; rewrite <- ?app_assoc;
    repeat (f_equal; try exact IH).
Qed.

(** C3, as the code has it.  For every non-empty sequence of pairs the path
    is the API root followed, for each pair, by a slash and the collection
    name and, when the identifier is present, a slash and the identifier. *)
Theorem get_path_build (kwargs : dict pyval) :
  kwargs <> [] -> get_path kwargs = build kwargs.
Proof.
  intros Hne. unfold get_path, build. f_equal.
  change (u "/" ++ str_join (u "/") (segments kwargs) = path_segments kwargs).
  rewrite slash_join, flat_map_segments; [reflexivity|].
  destruct kwargs as [|[name id] rest]; [contradiction|].
  rewrite segments_cons. discriminate.
Qed.

End PathBuilder.

(** The two paths the specification lists. *)
Example get_path_examples :
  get_path (lib := Sample.lib) [(u "assignments", PInt 5); (u "groups", PInt 12)]
  = u "/api/assignments/5/groups/12"
  /\ get_path (lib := Sample.lib)
       [(u "assignments", PInt 5); (u "group_ids_by_name", PNone)]
     = u "/api/assignments/5/group_ids_by_name".
Proof. split; reflexivity. Qed.

Lemma get_path_build_witness :
  get_path (lib := Sample.lib) [(u "assignments", PInt 5); (u "groups", PInt 12)]
  = build (lib := Sample.lib) [(u "assignments", PInt 5); (u "groups", PInt 12)].
Proof. apply get_path_build. discriminate. Defined.

(** C3 as stated fails for the empty sequence: the builder always writes a
    slash after the root, so it returns ["/api/"] where the root alone
    is described. *)
Lemma get_path_empty :
  get_path (lib := Sample.lib) [] = u "/api/"
  /\ build (lib := Sample.lib) [] = u "/api"
  /\ str_eqb (get_path (lib := Sample.lib) []) (build (lib := Sample.lib) [])
     = false.
Proof. repeat split. Qed.

(** ** C4: construction *)

Lemma str_eqb_eq (s t : str) : str_eqb s t = true <-> s = t.
Proof.
  unfold str_eqb. destruct (list_eq_dec N.eq_dec s t); split; intros;
    auto; try discriminate; contradiction.
Qed.

Lemma str_eqb_refl (s : str) : str_eqb s s = true.
Proof. now apply str_eqb_eq. Qed.

Lemma str_eqb_neq (s t : str) : str_eqb s t = false <-> s <> t.
Proof.
  unfold str_eqb. destruct (list_eq_dec N.eq_dec s t); split; intros;
    auto; try discriminate; contradiction.
Qed.

Lemma web_scheme_test (p : Url.ParseResult) :
  str_eqb (Url.scheme p) (u "http") || str_eqb (Url.scheme p) (u "https") = true
  <-> web_scheme p.
Proof.
  unfold web_scheme. rewrite orb_true_iff, !str_eqb_eq. reflexivity.
Qed.

(** C4.  Construction succeeds exactly when the stripped URL parses and its
    scheme is [http] or [https], and the client then holds the token and the
    parsed URL; when the URL parses to any other scheme, construction fails
    with [AssertionError]. *)
Theorem init_scheme {lib : PyLib} (api_key url : str) :
  (forall self,
      __init__ api_key url = Ok self <->
      exists p, urlparse (str_strip url) = Ok p /\ web_scheme p
                /\ self = {| api_key := api_key; parsed_url := p |})
  /\ (forall p, urlparse (str_strip url) = Ok p -> ~ web_scheme p ->
                __init__ api_key url = Raise AssertionError).
Proof.
  unfold __init__. split.
  - intros self. destruct (urlparse (str_strip url)) as [p|e]; cbn [obind].
    + destruct (str_eqb (Url.scheme p) (u "http")
                || str_eqb (Url.scheme p) (u "https")) eqn:E.
      * apply web_scheme_test in E. split.
        -- intros [= <-]. exists p. auto.
        -- intros (p' & [= <-] & _ & ->). reflexivity.
      * split; [discriminate|]. intros (p' & [= <-] & W & _).
        apply web_scheme_test in W. congruence.
    + split; [discriminate|]. intros (p' & H & _). discriminate.
  - intros p -> W. cbn [obind].
    destruct (str_eqb (Url.scheme p) (u "http")
              || str_eqb (Url.scheme p) (u "https")) eqn:E; [|reflexivity].
    apply web_scheme_test in E. contradiction.
Qed.

Example init_examples :
  __init__ (lib := Sample.lib) (u "secret") (u " https://markus.example.org/base ")
  = Ok Demo.self
  /\ __init__ (lib := Sample.lib) (u "key") (u "ftp://markus.example.org")
     = Raise AssertionError
  /\ __init__ (lib := Sample.lib) (u "key") (u "markus.example.org")
     = Raise AssertionError.
Proof. repeat split. Qed.

(** ** Computations that send requests *)

Lemma sends_lift {A} (P : Request -> Prop) (o : outcome A) : sends P (lift o).
Proof. intros t. exists []. cbn. now rewrite app_nil_r. Qed.

Lemma sends_ret {A} (P : Request -> Prop) (a : A) : sends P (ret a).
Proof. apply (sends_lift P (Ok a)). Qed.

Lemma sends_throw {A} (P : Request -> Prop) (e : exn) : sends P (@throw A e).
Proof. apply sends_lift. Qed.

Lemma sends_send (P : Request -> Prop) (net : Network) (rq : Request) :
  P rq -> sends P (send net rq).
Proof. intros H t. exists [rq]. cbn. auto. Qed.

Lemma sends_bind {A B} (P : Request -> Prop) (m : io A) (k : A -> io B) :
  sends P m -> (forall a, sends P (k a)) -> sends P (bind m k).
Proof.
  intros Hm Hk t. unfold bind. destruct (Hm t) as (new & E & F).
  destruct (m t) as [[a|e] t1]; cbn [snd] in E; subst t1.
  - destruct (Hk a (t ++ new)) as (new' & E' & F').
    exists (new ++ new'). rewrite E', app_assoc. split; [reflexivity|].
    apply Forall_app. auto.
  - exists new. auto.
Qed.

Lemma sends_io_map {A B} (P : Request -> Prop) (f : A -> B) (m : io A) :
  sends P m -> sends P (io_map f m).
Proof. intros H. apply sends_bind; [exact H|]. intros a. apply sends_ret. Qed.

Lemma sends_weaken {A} (P Q : Request -> Prop) (m : io A) :
  (forall rq, P rq -> Q rq) -> sends P m -> sends Q m.
Proof.
  intros PQ H t. destruct (H t) as (new & E & F). exists new. split; auto.
  eapply Forall_impl; eauto.
Qed.

#[local] Hint Resolve sends_lift sends_ret sends_throw sends_send sends_bind
  sends_io_map : sends.

(** ** The request that leaves [submit_request] *)

Section Transport.
Context {lib : PyLib}.
Variable net : Network.
Variable self : Markus.

Lemma headers_built (request_type content_type : str) :
  dict_set
    (if str_eqb request_type (u "GET")
     then dict_set [(u "Content-type", content_type)] (u "Accept") (u "text/plain")
     else [(u "Content-type", content_type)])
    (u "Authorization") (u "MarkUsAuth " ++ api_key self)
  = request_headers self request_type content_type.
Proof.
  unfold request_headers. destruct (str_eqb request_type (u "GET")); reflexivity.
Qed.

(** The transport sends one request, or refuses a client whose scheme is
    neither [http] nor [https]. *)
Lemma do_submit_request_eq (params : pyval) (path request_type content_type : str)
      (t : list Request) :
  _do_submit_request net self params path request_type
    (if str_eqb request_type (u "GET")
     then dict_set [(u "Content-type", content_type)] (u "Accept") (u "text/plain")
     else [(u "Content-type", content_type)]) t
  = if str_eqb (Url.scheme (parsed_url self)) (u "http")
       || str_eqb (Url.scheme (parsed_url self)) (u "https")
    then send net (request self params path request_type content_type) t
    else (Raise (ValueError "Panic! Neither http nor https URL."), t).
Proof.
  unfold _do_submit_request, request, connection_of. rewrite headers_built.
  unfold bind, ret, throw, lift.
  destruct (str_eqb (Url.scheme (parsed_url self)) (u "http")); cbn [orb];
    [reflexivity|].
  destruct (str_eqb (Url.scheme (parsed_url self)) (u "https")); reflexivity.
Qed.

Lemma submit_request_eq (params : pyval) (path request_type content_type : str)
      (t : list Request) :
  submit_request net self params path request_type content_type t
  = match encoded params content_type with
    | Ok body =>
      if str_eqb (Url.scheme (parsed_url self)) (u "http")
         || str_eqb (Url.scheme (parsed_url self)) (u "https")
      then send net (request self body path request_type content_type) t
      else (Raise (ValueError "Panic! Neither http nor https URL."), t)
    | Raise e => (Raise e, t)
    end.
Proof.
  unfold submit_request. fold (encoded params content_type).
  unfold bind at 1. unfold lift.
  destruct (encoded params content_type) as [body|e]; [|reflexivity].
  apply do_submit_request_eq.
Qed.

Lemma request_well_headed (params : pyval) (path request_type content_type : str) :
  well_headed self (request self params path request_type content_type).
Proof.
  unfold well_headed, header_count, request, request_headers.
  cbn [headers method].
  destruct (str_eqb request_type (u "GET")); repeat split.
Qed.

Lemma submit_request_sends (params : pyval) (path request_type content_type : str) :
  sends (well_headed self)
        (submit_request net self params path request_type content_type).
Proof.
  intros t. rewrite submit_request_eq.
  destruct (encoded params content_type) as [body|e].
  - destruct (str_eqb (Url.scheme (parsed_url self)) (u "http")
              || str_eqb (Url.scheme (parsed_url self)) (u "https")).
    + exists [request self body path request_type content_type].
      split; [reflexivity|].
      constructor; [apply request_well_headed | constructor].
    + exists []. cbn. now rewrite app_nil_r.
  - exists []. cbn. now rewrite app_nil_r.
Qed.

(** ** C6: the headers of every outbound request *)

Lemma call_sends (op : operation) : sends (well_headed self) (call net self op).
Proof.
  pose proof submit_request_sends as S.
  destruct op; cbn [call]; apply sends_io_map;
    unfold get_all_users, new_user, get_assignments, get_groups,
      get_groups_by_name, get_group, get_feedback_files, get_feedback_file,
      get_marks_spreadsheet, upload_test_group_results, upload_annotations,
      update_marks_single_group, update_marking_state;
    auto with sends.
  unfold upload_feedback_file.
  apply sends_bind.
  - destruct overwrite; [|apply sends_ret].
    apply sends_bind; [|intros; apply sends_lift].
    unfold get_feedback_files. auto with sends.
  - intros id. destruct (py_truth id);
      (destruct (match mime_type with None => guess_type title | Some m => Some m end);
       [|apply sends_throw]);
      (apply sends_bind; [apply sends_lift|]); intros [params ct]; apply S.
Qed.

End Transport.

(** C6.  Every request [submit_request] sends, and so every request any
    operation of the client sends, carries exactly one [Content-type]
    header and exactly one [Authorization] header, whose value is
    [MarkUsAuth] and the configured token, and carries [Accept: text/plain]
    if and only if its method is [GET]: it has an [Accept] header then, and
    none otherwise. *)
Theorem outbound_headers {lib : PyLib} (net : Network) (self : Markus) :
  (forall params path request_type content_type,
      sends (well_headed self)
            (submit_request net self params path request_type content_type))
  /\ (forall op, sends (well_headed self) (call net self op)).
Proof.
  split; intros.
  - apply submit_request_sends.
  - apply call_sends.
Qed.

(** ** C7: the status line is returned, never interpreted *)

Lemma follows_lift {A B} (g : A -> B) (o : outcome A) :
  follows g (lift o) (lift (omap g o)).
Proof. intros t. reflexivity. Qed.

Lemma follows_same {A} (m : io A) : follows (fun a => a) m m.
Proof.
  intros t. destruct (m t) as [[a|e] t']; reflexivity.
Qed.

Lemma follows_bind {A A' B B'} (g : A -> A') (h : B -> B')
      (m : io A) (m' : io A') (k : A -> io B) (k' : A' -> io B') :
  follows g m m' -> (forall a, follows h (k a) (k' (g a))) ->
  follows h (bind m k) (bind m' k').
Proof.
  intros Hm Hk t. unfold bind. rewrite (Hm t).
  destruct (m t) as [[a|e] t1]; cbn [omap obind fst snd].
  - apply Hk.
  - reflexivity.
Qed.

Lemma follows_io_map {A A' B B'} (g : A -> A') (h : B -> B')
      (f : A -> B) (f' : A' -> B') (m : io A) (m' : io A') :
  follows g m m' -> (forall a, f' (g a) = h (f a)) ->
  follows h (io_map f m) (io_map f' m').
Proof.
  intros Hm Hf. apply (follows_bind g h); [exact Hm|].
  intros a t. cbn. now rewrite Hf.
Qed.

Lemma decode_text_restatus f (r : Response) :
  decode_text_response (restatus f r) = decode_text_response r.
Proof. reflexivity. Qed.

Lemma decode_json_restatus f (r : Response) :
  decode_json_response (restatus f r) = decode_json_response r.
Proof. reflexivity. Qed.

Section Status.
Context {lib : PyLib}.
Variable net : Network.
Variable self : Markus.
Variable f : Response -> Z * str.

Lemma submit_request_follows (params : pyval) (path request_type content_type : str) :
  follows (restatus f)
    (submit_request net self params path request_type content_type)
    (submit_request (net_restatus f net) self params path request_type
                    content_type).
Proof.
  intros t. rewrite !submit_request_eq.
  destruct (encoded params content_type) as [body|e]; [|reflexivity].
  destruct (str_eqb (Url.scheme (parsed_url self)) (u "http")
            || str_eqb (Url.scheme (parsed_url self)) (u "https"));
    reflexivity.
Qed.

(** A reader: one request, then a decoder that looks at the body only. *)
Lemma read_follows {A} (decode : Response -> outcome A)
      (params : pyval) (path request_type content_type : str) :
  (forall r, decode (restatus f r) = decode r) ->
  follows (fun a => a)
    (do response <- submit_request net self params path request_type content_type ;
     lift (decode response))
    (do response <- submit_request (net_restatus f net) self params path
                                   request_type content_type ;
     lift (decode response)).
Proof.
  intros Hd. eapply follows_bind; [apply submit_request_follows|].
  intros r t. cbn. rewrite Hd. now destruct (decode r).
Qed.

Lemma upload_feedback_file_follows a g title contents mime_type overwrite :
  follows (restatus f)
    (upload_feedback_file net self a g title contents mime_type overwrite)
    (upload_feedback_file (net_restatus f net) self a g title contents
                          mime_type overwrite).
Proof.
  unfold upload_feedback_file.
  apply (follows_bind (fun a => a)).
  - destruct overwrite; [|apply follows_same].
    apply (follows_bind (fun a => a)).
    + apply read_follows. intros r. apply decode_json_restatus.
    + intros v. apply follows_same.
  - intros id. destruct (py_truth id);
      (destruct (match mime_type with None => guess_type title | Some m => Some m end);
       [|intros t; reflexivity]);
      (apply (follows_bind (fun a => a)); [apply follows_same|]);
      intros [params ct]; apply submit_request_follows.
Qed.

Lemma call_follows (op : operation) :
  follows (result_restatus f) (call net self op)
          (call (net_restatus f net) self op).
Proof.
  pose proof submit_request_follows as S.
  pose proof (fun p a b c => read_follows decode_json_response p a b c
                               (decode_json_restatus f)) as RJ.
  pose proof (fun p a b c => read_follows decode_text_response p a b c
                               (decode_text_restatus f)) as RT.
  destruct op; cbn [call];
    try (apply (follows_io_map (fun a => a)); [|reflexivity];
         first [apply RJ | apply RT]);
    try (apply (follows_io_map (restatus f)); [|reflexivity];
         first [apply S | apply upload_feedback_file_follows]).
Qed.

End Status.


(** ** [json.loads]: the fuel is always enough *)

Lemma skip_ws_length (s : str) : (List.length (skip_ws s) <= List.length s)%nat.
Proof.
  induction s as [|c s IH]; cbn [skip_ws]; [lia|].
  destruct (is_ws c); cbn [List.length]; lia.
Qed.

Lemma skip_ws_cons_length (s r : str) (c : codepoint) :
  skip_ws s = c :: r -> (List.length r < List.length s)%nat.
Proof.
  intros H. pose proof (skip_ws_length s) as L. rewrite H in L.
  cbn [List.length] in L. lia.
Qed.

Lemma push_length {A} (c : A) (x : option (list A * str)) t r :
  push c x = Some (t, r) -> exists t', x = Some (t', r).
Proof.
  destruct x as [[t' r']|]; cbn; [|discriminate].
  intros [= <- <-]. eauto.
Qed.

Lemma scanstring_length_le (n : nat) :
  forall s t r, (List.length s <= n)%nat ->
    scanstring s = Some (t, r) -> (List.length r < List.length s)%nat.
Proof.
  induction n as [|n IH]; intros s t r Hn H.
  - destruct s; [discriminate | cbn in Hn; lia].
  - destruct s as [|c s]; [discriminate|]. cbn [List.length] in *.
    cbn [scanstring] in H.
    repeat match type of H with
    | push _ (scanstring ?x) = Some _ =>
      apply push_length in H; destruct H as (t' & H);
        apply IH in H; cbn [List.length] in *; [lia | lia]
    | Some _ = Some _ => injection H as <- <-; lia
    | None = Some _ => discriminate H
    | context [match ?x with _ => _ end] =>
      let E := fresh "E" in destruct x eqn:E
    end.
Qed.

Lemma scanstring_length (s t r : str) :
  scanstring s = Some (t, r) -> (List.length r < List.length s)%nat.
Proof. apply (scanstring_length_le (List.length s)). lia. Qed.

Lemma span_digits_length (s d r : str) :
  span_digits s = (d, r) -> (List.length r <= List.length s)%nat.
Proof.
  revert d r. induction s as [|c s IH]; intros d r H; cbn [span_digits] in H.
  - injection H as <- <-. lia.
  - destruct (is_digit c).
    + destruct (span_digits s) as [d' r'] eqn:E. injection H as <- <-.
      specialize (IH _ _ eq_refl). cbn [List.length]. lia.
    + injection H as <- <-. lia.
Qed.

Lemma scan_frac_length (s d r : str) :
  scan_frac s = (d, r) -> (List.length r <= List.length s)%nat.
Proof.
  unfold scan_frac. intros H.
  destruct s as [|c s]; [injection H as <- <-; lia|].
  destruct (c =? ch "."); [|injection H as <- <-; lia].
  destruct (span_digits s) as [d' r'] eqn:E.
  apply span_digits_length in E.
  destruct d'; injection H as <- <-; cbn [List.length]; lia.
Qed.

Lemma scan_exp_length (s d r : str) :
  scan_exp s = (d, r) -> (List.length r <= List.length s)%nat.
Proof.
  unfold scan_exp. intros H.
  destruct s as [|c s]; [injection H as <- <-; lia|].
  destruct ((c =? ch "e") || (c =? ch "E")); [|injection H as <- <-; lia].
  destruct s as [|g s'].
  - cbv beta iota in H. cbn [span_digits] in H. injection H as <- <-.
    cbn [List.length]. lia.
  - destruct ((g =? ch "-") || (g =? ch "+")); cbv beta iota in H.
    + destruct (span_digits s') as [d' r'] eqn:E.
      apply span_digits_length in E.
      destruct d'; injection H as <- <-; cbn [List.length]; lia.
    + destruct (span_digits (g :: s')) as [d' r'] eqn:E.
      apply span_digits_length in E. cbn [List.length] in E.
      destruct d'; injection H as <- <-; cbn [List.length]; lia.
Qed.

Lemma scan_integer_length (s ip r : str) (neg : bool) :
  scan_integer s = Some (neg, ip, r) -> (List.length r < List.length s)%nat.
Proof.
  unfold scan_integer. intros H.
  assert (L : forall x, (List.length x <= List.length s)%nat ->
             match x with
             | c :: r0 =>
               if c =? ch "0" then Some (neg, [c], r0)
               else if is_digit c
                    then let (d, r') := span_digits r0 in Some (neg, c :: d, r')
                    else None
             | [] => None
             end = Some (neg, ip, r) -> (List.length r < List.length s)%nat).
  { intros x Hx Hm. destruct x as [|c r0]; [discriminate|].
    cbn [List.length] in Hx.
    destruct (c =? ch "0"); [injection Hm as <- <-; lia|].
    destruct (is_digit c); [|discriminate].
    destruct (span_digits r0) as [d r'] eqn:E. apply span_digits_length in E.
    injection Hm as <- <-. lia. }
  destruct s as [|c s']; [discriminate|].
  destruct (c =? ch "-").
  - destruct s' as [|c' r0]; [discriminate|]. revert H.
    intros H. eapply Nat.lt_le_trans; [|apply Nat.le_refl].
    eapply (L (c' :: r0)); [cbn [List.length]; lia|].
    destruct (c' =? ch "0"); [injection H as <- <- <-; reflexivity|].
    destruct (is_digit c'); [|discriminate].
    destruct (span_digits r0); injection H as <- <- <-; reflexivity.
  - eapply (L (c :: s')); [lia|].
    destruct (c =? ch "0"); [injection H as <- <- <-; reflexivity|].
    destruct (is_digit c); [|discriminate].
    destruct (span_digits s'); injection H as <- <- <-; reflexivity.
Qed.

Lemma scan_number_length (s r : str) (v : pyval) :
  scan_number s = Some (v, r) -> (List.length r < List.length s)%nat.
Proof.
  unfold scan_number. intros H.
  destruct (scan_integer s) as [[[neg ip] s2]|] eqn:E; [|discriminate].
  apply scan_integer_length in E.
  destruct (scan_frac s2) as [fr s3] eqn:E2. apply scan_frac_length in E2.
  destruct (scan_exp s3) as [ex s4] eqn:E3. apply scan_exp_length in E3.
  destruct fr, ex; injection H as <- <-; lia.
Qed.

Lemma strip_prefix_length (word s r : str) :
  strip_prefix word s = Some r ->
  (List.length r + List.length word = List.length s)%nat.
Proof.
  revert s. induction word as [|w word IH]; intros s H; cbn in H.
  - injection H as <-. cbn. lia.
  - destruct s as [|c s]; [discriminate|].
    destruct (c =? w); [|discriminate]. apply IH in H. cbn [List.length]. lia.
Qed.

Lemma scan_word_length (word s r : str) (v w : pyval) :
  word <> [] -> scan_word word v s = Scanned w r ->
  (List.length r < List.length s)%nat.
Proof.
  unfold scan_word. intros Hw H.
  destruct (strip_prefix word s) as [rest|] eqn:E; [|discriminate].
  injection H as <- <-. apply strip_prefix_length in E.
  destruct word; [contradiction|]. cbn [List.length] in E. lia.
Qed.

Lemma scan_word_live (word s : str) (v : pyval) :
  scan_word word v s <> Exhausted.
Proof. unfold scan_word. destruct (strip_prefix word s); discriminate. Qed.

(** What is scanned is consumed: the rest is shorter than the text. *)
Lemma scan_length (fuel : nat) :
  (forall s v r, scan_once fuel s = Scanned v r ->
                 (List.length r < List.length s)%nat)
  /\ (forall s acc v r, scan_members fuel s acc = Scanned v r ->
                        (List.length r < List.length s)%nat)
  /\ (forall s acc v r, scan_elements fuel s acc = Scanned v r ->
                        (List.length r < List.length s)%nat).
Proof.
  induction fuel as [|fuel (IHo & IHm & IHe)];
    [repeat split; intros; discriminate|].
  repeat split.
  - intros s v r H. cbn [scan_once] in H.
    destruct s as [|c s]; [discriminate|]. cbn [List.length].
    destruct (c =? dquote).
    { unfold scan_of_option in H.
      destruct (scanstring s) as [[t r']|] eqn:E; [|discriminate].
      injection H as <- <-. apply scanstring_length in E. lia. }
    destruct (c =? ch "{").
    { destruct (skip_ws s) as [|c1 r1] eqn:E; [discriminate|].
      pose proof (skip_ws_cons_length _ _ _ E).
      destruct (c1 =? ch "}"); [injection H as <- <-; lia|].
      apply IHm in H. pose proof (skip_ws_length s) as L. rewrite E in L.
      lia. }
    destruct (c =? ch "[").
    { destruct (skip_ws s) as [|c1 r1] eqn:E; [discriminate|].
      pose proof (skip_ws_cons_length _ _ _ E).
      destruct (c1 =? ch "]"); [injection H as <- <-; lia|].
      apply IHe in H. pose proof (skip_ws_length s) as L. rewrite E in L.
      lia. }
    repeat match type of H with
    | scan_word _ _ _ = Scanned _ _ =>
      apply scan_word_length in H; [cbn [List.length] in H; lia | discriminate]
    | (if ?x then _ else _) = _ => destruct x
    end.
    destruct (scan_number (c :: s)) as [[v' r']|] eqn:E.
    + injection H as <- <-. apply scan_number_length in E.
      cbn [List.length] in E. lia.
    + destruct (c =? ch "-"); [|discriminate].
      apply scan_word_length in H; [cbn [List.length] in H; lia | discriminate].
  - intros s acc v r H. cbn [scan_members] in H.
    destruct s as [|c s]; [discriminate|]. cbn [List.length].
    destruct (c =? dquote); [|discriminate].
    destruct (scanstring s) as [[key r1]|] eqn:E1; [|discriminate].
    apply scanstring_length in E1.
    destruct (skip_ws r1) as [|c1 r2] eqn:E2; [discriminate|].
    apply skip_ws_cons_length in E2.
    destruct (c1 =? ch ":"); [|discriminate].
    destruct (scan_once fuel (skip_ws r2)) as [w r3| |] eqn:E3;
      try discriminate.
    apply IHo in E3. pose proof (skip_ws_length r2).
    destruct (skip_ws r3) as [|c2 r4] eqn:E4; [discriminate|].
    apply skip_ws_cons_length in E4.
    destruct (c2 =? ch "}"); [injection H as <- <-; lia|].
    destruct (c2 =? ch ","); [|discriminate].
    apply IHm in H. pose proof (skip_ws_length r4). lia.
  - intros s acc v r H. cbn [scan_elements] in H.
    destruct (scan_once fuel s) as [w r1| |] eqn:E1; try discriminate.
    apply IHo in E1.
    destruct (skip_ws r1) as [|c r2] eqn:E2; [discriminate|].
    apply skip_ws_cons_length in E2.
    destruct (c =? ch "]"); [injection H as <- <-; lia|].
    destruct (c =? ch ","); [|discriminate].
    apply IHe in H. pose proof (skip_ws_length r2). lia.
Qed.

(** With fuel beyond twice the length of the text the scanner never gives
    up. *)
Lemma scan_live (fuel : nat) :
  (forall s, (2 * List.length s + 1 <= fuel)%nat ->
             scan_once fuel s <> Exhausted)
  /\ (forall s acc, (2 * List.length s + 2 <= fuel)%nat ->
                    scan_members fuel s acc <> Exhausted)
  /\ (forall s acc, (2 * List.length s + 2 <= fuel)%nat ->
                    scan_elements fuel s acc <> Exhausted).
Proof.
  induction fuel as [|fuel (IHo & IHm & IHe)];
    [repeat split; intros; lia|].
  repeat split.
  - intros s Hf. cbn [scan_once].
    destruct s as [|c s]; [discriminate|]. cbn [List.length] in Hf.
    destruct (c =? dquote).
    { unfold scan_of_option. destruct (scanstring s) as [[? ?]|]; discriminate. }
    destruct (c =? ch "{").
    { destruct (skip_ws s) as [|c1 r1] eqn:E; [discriminate|].
      destruct (c1 =? ch "}"); [discriminate|].
      apply IHm. pose proof (skip_ws_length s) as L. rewrite E in L. lia. }
    destruct (c =? ch "[").
    { destruct (skip_ws s) as [|c1 r1] eqn:E; [discriminate|].
      destruct (c1 =? ch "]"); [discriminate|].
      apply IHe. pose proof (skip_ws_length s) as L. rewrite E in L. lia. }
    repeat match goal with
    | |- scan_word _ _ _ <> Exhausted => apply scan_word_live
    | |- (if ?x then _ else _) <> _ => destruct x
    end.
    destruct (scan_number (c :: s)) as [[v' r']|]; [discriminate|].
    destruct (c =? ch "-"); [apply scan_word_live | discriminate].
  - intros s acc Hf. cbn [scan_members].
    destruct s as [|c s]; [discriminate|]. cbn [List.length] in Hf.
    destruct (c =? dquote); [|discriminate].
    destruct (scanstring s) as [[key r1]|] eqn:E1; [|discriminate].
    apply scanstring_length in E1.
    destruct (skip_ws r1) as [|c1 r2] eqn:E2; [discriminate|].
    apply skip_ws_cons_length in E2.
    destruct (c1 =? ch ":"); [|discriminate].
    pose proof (skip_ws_length r2).
    destruct (scan_once fuel (skip_ws r2)) as [w r3| |] eqn:E3.
    + apply (proj1 (scan_length fuel)) in E3.
      destruct (skip_ws r3) as [|c2 r4] eqn:E4; [discriminate|].
      apply skip_ws_cons_length in E4.
      destruct (c2 =? ch "}"); [discriminate|].
      destruct (c2 =? ch ","); [|discriminate].
      apply IHm. pose proof (skip_ws_length r4). lia.
    + discriminate.
    + exfalso. revert E3. apply IHo. lia.
  - intros s acc Hf. cbn [scan_elements].
    destruct (scan_once fuel s) as [w r1| |] eqn:E1.
    + apply (proj1 (scan_length fuel)) in E1.
      destruct (skip_ws r1) as [|c r2] eqn:E2; [discriminate|].
      apply skip_ws_cons_length in E2.
      destruct (c =? ch "]"); [discriminate|].
      destruct (c =? ch ","); [|discriminate].
      apply IHe. pose proof (skip_ws_length r2). lia.
    + discriminate.
    + exfalso. revert E1. apply IHo. lia.
Qed.

Lemma scan_once_fuel (s : str) :
  scan_once (json_fuel s) (skip_ws s) <> Exhausted.
Proof.
  apply (proj1 (scan_live (json_fuel s))). unfold json_fuel.
  pose proof (skip_ws_length s). lia.
Qed.

(** [json.loads] returns a value or raises [JSONDecodeError], nothing
    else. *)
Lemma json_loads_outcome (s : str) :
  (exists v, json_loads s = Ok v) \/ json_loads s = Raise JSONDecodeError.
Proof.
  unfold json_loads.
  destruct s as [|c s']; [right; reflexivity|].
  set (s := c :: s').
  assert (G : (exists v,
                  match scan_once (json_fuel s) (skip_ws s) with
                  | Scanned v rest =>
                    match skip_ws rest with
                    | [] => Ok v
                    | _ :: _ => Raise JSONDecodeError
                    end
                  | Invalid => Raise JSONDecodeError
                  | Exhausted => Raise JSONDecodeError
                  end = Ok v)
              \/ match scan_once (json_fuel s) (skip_ws s) with
                 | Scanned v rest =>
                   match skip_ws rest with
                   | [] => Ok v
                   | _ :: _ => Raise JSONDecodeError
                   end
                 | Invalid => Raise JSONDecodeError
                 | Exhausted => Raise JSONDecodeError
                 end = Raise JSONDecodeError).
  { destruct (scan_once (json_fuel s) (skip_ws s)) as [v rest| |]; auto.
    destruct (skip_ws rest); eauto. }
  destruct c as [|p]; [exact G|].
  repeat (destruct p as [p|p|]; try exact G).
Qed.

(** ** C9: the response decoders *)


(** Bodies the decoders refuse: a lone continuation octet, an overlong
    form, an encoded surrogate; and a text that is not JSON. *)
Example decode_failures :
  decode_text_response {| status := 200; reason := u "OK"; body := [x80] |}
  = Raise UnicodeDecodeError
  /\ decode_text_response
       {| status := 200; reason := u "OK"; body := [xc0; xaf] |}
     = Raise UnicodeDecodeError
  /\ decode_text_response
       {| status := 200; reason := u "OK"; body := [xed; xa0; x80] |}
     = Raise UnicodeDecodeError
  /\ decode_json_response
       {| status := 404; reason := u "Not Found"; body := b "<html>" |}
     = Raise JSONDecodeError.
Proof. repeat split. Qed.

(** ** [upload_feedback_file], step by step *)

Section Upload.
Context {lib : PyLib}.
Variable net : Network.
Variable self : Markus.

Lemma submit_request_sends_to (P : Request -> Prop)
      (params : pyval) (path request_type content_type : str) :
  (forall body, P (request self body path request_type content_type)) ->
  sends P (submit_request net self params path request_type content_type).
Proof.
  intros HP t. rewrite submit_request_eq.
  destruct (encoded params content_type) as [body|e].
  - destruct (str_eqb (Url.scheme (parsed_url self)) (u "http")
              || str_eqb (Url.scheme (parsed_url self)) (u "https")).
    + exists [request self body path request_type content_type].
      split; [reflexivity|]. constructor; [apply HP | constructor].
    + exists []. cbn. now rewrite app_nil_r.
  - exists []. cbn. now rewrite app_nil_r.
Qed.

(** The function is the lookup followed by the upload proper. *)
Lemma upload_unfold a g title contents mime_type overwrite t :
  upload_feedback_file net self a g title contents mime_type overwrite t
  = bind (if overwrite then listed_id net self a g title else ret PNone)
         (fun id =>
            match resolved_mime mime_type title with
            | None => throw UnresolvedMimeType
            | Some m =>
              do (params, ct) <- lift (upload_params title contents m) ;
              submit_request net self params (fst (upload_target a g id))
                             (snd (upload_target a g id)) ct
            end) t.
Proof.
  unfold upload_feedback_file, listed_id, bind.
  destruct (if overwrite then _ else _) as [[id|e] t1]; [|reflexivity].
  unfold upload_target, feedback_files_path, resolved_mime.
  destruct (py_truth id); reflexivity.
Qed.

Lemma next_feedback_file_id_find (title : str) (entries : list (dict pyval)) :
  next_feedback_file_id title (List.map PDict entries)
  = Ok (match find_entry title entries with
        | Some ff => py_get ff (u "id")
        | None => PNone
        end).
Proof.
  induction entries as [|ff entries IH]; [reflexivity|].
  cbn [List.map next_feedback_file_id find_entry List.find].
  destruct (py_eq_str (py_get ff (u "filename")) title); [reflexivity|].
  exact IH.
Qed.

Lemma listed_id_find a g title (entries : list (dict pyval)) t t1 :
  get_feedback_files net self a g t = (Ok (PList (List.map PDict entries)), t1) ->
  listed_id net self a g title t
  = (Ok (match find_entry title entries with
         | Some ff => py_get ff (u "id")
         | None => PNone
         end), t1).
Proof.
  intros L. unfold listed_id, bind. rewrite L. unfold lift.
  cbn [py_iter obind]. now rewrite next_feedback_file_id_find.
Qed.

(** The listing is one [GET]. *)
Lemma listed_id_sends a g title :
  sends (fun rq => method rq = u "GET") (listed_id net self a g title).
Proof.
  unfold listed_id, get_feedback_files.
  apply sends_bind; [|intros; apply sends_lift].
  apply sends_bind; [|intros; apply sends_lift].
  apply submit_request_sends_to. reflexivity.
Qed.

(** On a client with a web scheme the listing request is always sent,
    whatever comes back. *)
Lemma listed_id_trace a g title t :
  web_scheme (parsed_url self) ->
  snd (listed_id net self a g title t)
  = t ++ [request self (PStr []) (feedback_files_path a g ++ u ".json")
                  (u "GET") FORM].
Proof.
  intros W. apply web_scheme_test in W.
  unfold listed_id, get_feedback_files, bind. rewrite submit_request_eq.
  change (encoded (PDict []) FORM) with (Ok (PStr [])). cbv iota.
  rewrite W. unfold send, lift, feedback_files_path.
  destruct (net t _) as [r|e]; cbn [snd]; [|reflexivity].
  destruct (decode_json_response r) as [v|e]; cbn [snd]; [|reflexivity].
  destruct (let? entries := py_iter v in next_feedback_file_id title entries);
    reflexivity.
Qed.

(** A text upload leaves as one form-encoded request. *)
Lemma text_upload_sent title c m qs path request_type t :
  web_scheme (parsed_url self) ->
  urlencode (text_fields title c m) = Ok qs ->
  (do (params, ct) <- lift (upload_params title (PStr c) m) ;
   submit_request net self params path request_type ct) t
  = send net (request self (PStr qs) path request_type FORM) t.
Proof.
  intros W E. unfold bind, lift, upload_params. cbn [is_str].
  rewrite submit_request_eq.
  unfold encoded. cbn [is_none negb].
  change (str_eqb FORM FORM) with true. cbv iota.
  unfold urlencode_any. fold (text_fields title c m). rewrite E.
  cbn [omap obind is_str negb].
  apply web_scheme_test in W. now rewrite W.
Qed.

(** Parameters that are not a string do not pass the multipart branch. *)
Lemma multipart_refused (params : pyval) (path request_type : str) t :
  is_none params = false -> is_str params = false ->
  submit_request net self params path request_type MULTIPART t
  = (Raise InvalidParameterShape, t).
Proof.
  intros N S. rewrite submit_request_eq. unfold encoded. rewrite N.
  cbn [negb]. change (str_eqb MULTIPART FORM) with false.
  change (str_eqb MULTIPART MULTIPART) with true. cbn [obind].
  now rewrite S.
Qed.

Lemma binary_upload_refused title contents m path request_type t :
  is_str contents = false ->
  exists e,
    (do (params, ct) <- lift (upload_params title contents m) ;
     submit_request net self params path request_type ct) t
    = (Raise e, t).
Proof.
  intros S. unfold bind, lift, upload_params. rewrite S.
  destruct (str_encode title) as [bt|e]; [|eexists; reflexivity].
  destruct (str_encode m) as [bm|e]; [|eexists; reflexivity].
  cbn [obind]. rewrite multipart_refused by reflexivity. eauto.
Qed.

End Upload.

(** ** C2 and C10: create or replace *)

(** C2, as the code has it.  With overwrite requested, a text upload whose
    mime type resolves and whose fields encode, after a listing that
    decoded to a list of entries: when the first entry whose file name is
    the title has an identifier that counts as true (a non-zero number, a
    non-empty string), the request sent is a [PUT] to the collection path
    extended with that identifier; when no entry has that file name, it is
    a [POST] to the collection path. *)
Theorem upload_upsert {lib : PyLib} (net : Network) (self : Markus)
        (a g : Z) (title c : str) (mime_type : option str)
        (entries : list (dict pyval)) (t t1 : list Request) (m qs : str) :
  web_scheme (parsed_url self) ->
  get_feedback_files net self a g t = (Ok (PList (List.map PDict entries)), t1) ->
  resolved_mime mime_type title = Some m ->
  urlencode (text_fields title c m) = Ok qs ->
  (forall ff, find_entry title entries = Some ff ->
              py_truth (py_get ff (u "id")) = true ->
              upload_feedback_file net self a g title (PStr c) mime_type true t
              = send net
                  (request self (PStr qs)
                     (feedback_files_path a g ++ u "/" ++ py_str (py_get ff (u "id")))
                     (u "PUT") FORM) t1)
  /\ (find_entry title entries = None ->
      upload_feedback_file net self a g title (PStr c) mime_type true t
      = send net (request self (PStr qs) (feedback_files_path a g) (u "POST") FORM)
             t1).
Proof.
  intros W L M E. split.
  - intros ff F T. rewrite upload_unfold. unfold bind at 1.
    rewrite (listed_id_find net self a g title entries t t1 L), F, M.
    unfold upload_target. rewrite T. cbn [fst snd].
    now apply text_upload_sent.
  - intros F. rewrite upload_unfold. unfold bind at 1.
    rewrite (listed_id_find net self a g title entries t t1 L), F, M.
    unfold upload_target. cbn [py_truth fst snd].
    now apply text_upload_sent.
Qed.


(** ** C5: the mime type *)

(** C5, as the code has it.  Without a mime type argument the type guessed
    from the title is used as if it had been given.  When nothing is
    guessed either, the call fails with the [ValueError] of the unresolved
    mime type before any upload is sent: without overwrite nothing is sent
    at all; with overwrite the listing was requested first (on a client
    with a web scheme that [GET] is sent whatever comes back), it is the
    only request, and a failure of the listing step comes first. *)
Theorem upload_mime_type {lib : PyLib} (net : Network) (self : Markus)
        (a g : Z) (title : str) (contents : pyval) (overwrite : bool)
        (t : list Request) :
  (forall m, guess_type title = Some m ->
             upload_feedback_file net self a g title contents None overwrite t
             = upload_feedback_file net self a g title contents (Some m)
                                    overwrite t)
  /\ (guess_type title = None ->
      upload_feedback_file net self a g title contents None false t
      = (Raise UnresolvedMimeType, t)
      /\ upload_feedback_file net self a g title contents None true t
         = (match listed_id net self a g title t with
            | (Ok _, t1) => (Raise UnresolvedMimeType, t1)
            | (Raise e, t1) => (Raise e, t1)
            end)
      /\ sends (fun rq => method rq = u "GET") (listed_id net self a g title)
      /\ (web_scheme (parsed_url self) ->
          snd (upload_feedback_file net self a g title contents None true t)
          = t ++ [request self (PStr []) (feedback_files_path a g ++ u ".json")
                          (u "GET") FORM])).
Proof.
  split.
  - intros m G. rewrite !upload_unfold. unfold resolved_mime. now rewrite G.
  - intros G. repeat split.
    + rewrite upload_unfold. unfold resolved_mime. now rewrite G.
    + rewrite upload_unfold. unfold resolved_mime. rewrite G. unfold bind.
      destruct (listed_id net self a g title t) as [[id|e] t1]; reflexivity.
    + apply listed_id_sends.
    + intros W. rewrite upload_unfold. unfold resolved_mime. rewrite G.
      unfold bind. rewrite <- (listed_id_trace net self a g title t W).
      destruct (listed_id net self a g title t) as [[id|e] t1]; reflexivity.
Qed.

(** ** C1: binary contents *)

(** C1, on the code.  An upload whose contents are not a [str] never
    returns: the multipart branch hands a mapping to [submit_request], which
    refuses whatever is not a string, so the call ends in an exception and
    nothing but the listing [GET] is ever sent.  When the title and the
    mime type encode and no listing is asked for, the exception is the
    [ValueError] of the parameter check and nothing is sent; the same check
    refuses every multipart parameter that is not a [str], raw bytes
    included. *)
Theorem upload_bytes_refused {lib : PyLib} (net : Network) (self : Markus)
        (a g : Z) (title : str) (contents : pyval) (mime_type : option str)
        (overwrite : bool) (t : list Request) :
  is_str contents = false ->
  (exists e new,
      upload_feedback_file net self a g title contents mime_type overwrite t
      = (Raise e, t ++ new)
      /\ Forall (fun rq => method rq = u "GET") new)
  /\ (forall m bt bm,
         resolved_mime mime_type title = Some m ->
         str_encode title = Ok bt -> str_encode m = Ok bm ->
         upload_feedback_file net self a g title contents mime_type false t
         = (Raise InvalidParameterShape, t))
  /\ (forall params path request_type,
         is_none params = false -> is_str params = false ->
         submit_request net self params path request_type MULTIPART t
         = (Raise InvalidParameterShape, t)).
Proof.
  intros S. split; [|split].
  - rewrite upload_unfold. unfold bind at 1.
    assert (K : forall id t1,
               exists e,
                 match resolved_mime mime_type title with
                 | None => throw UnresolvedMimeType
                 | Some m =>
                   do (params, ct) <- lift (upload_params title contents m) ;
                   submit_request net self params (fst (upload_target a g id))
                                  (snd (upload_target a g id)) ct
                 end t1 = (Raise e, t1)).
    { intros id t1. destruct (resolved_mime mime_type title) as [m|].
      - now apply binary_upload_refused.
      - eexists. reflexivity. }
    destruct overwrite.
    + destruct (listed_id_sends net self a g title t) as (new & E & F).
      destruct (listed_id net self a g title t) as [[id|e] t1];
        cbn [snd] in E; subst t1.
      * destruct (K id (t ++ new)) as (e & ->). eauto.
      * eauto.
    + cbn [ret lift]. destruct (K PNone t) as (e & ->).
      exists e, []. rewrite app_nil_r. auto.
  - intros m bt bm M Et Em. rewrite upload_unfold. unfold bind at 1.
    cbn [ret lift]. rewrite M. unfold bind, lift, upload_params.
    rewrite S, Et, Em. cbn [obind].
    now rewrite multipart_refused.
  - intros params path request_type N P. now apply multipart_refused.
Qed.

(** ** The claims on the example client *)

(** C2 as stated fails.  The listing holds an entry named [out.txt], yet
    the request that follows the listing is a [POST] to the collection
    path, because the identifier of that entry is [0].  And the listing
    holds an entry named [data] with the identifier [7], yet nothing
    follows the listing, because no mime type is found for that title. *)
Lemma upsert_counterexample :
  decode_json_response
    {| status := 200; reason := u "OK"; body := Demo.one_file "0" |}
  = Ok (PList [PDict [(u "id", PInt 0); (u "filename", PStr (u "out.txt"))]])
  /\ Demo.summary
       (snd (upload_feedback_file (lib := Sample.lib)
               (Demo.net (Demo.one_file "0")) Demo.self 5 12 (u "out.txt")
               (PStr (u "hello world")) None true []))
     = [(u "GET", u "/base/api/assignments/5/groups/12/feedback_files.json");
        (u "POST", u "/base/api/assignments/5/groups/12/feedback_files")]
  /\ decode_json_response
       {| status := 200; reason := u "OK";
          body := bq "[{'id': 7, 'filename': 'data'}]" |}
     = Ok (PList [PDict [(u "id", PInt 7); (u "filename", PStr (u "data"))]])
  /\ Demo.summary
       (snd (upload_feedback_file (lib := Sample.lib)
               (Demo.net (bq "[{'id': 7, 'filename': 'data'}]")) Demo.self
               5 12 (u "data") (PStr (u "hello world")) None true []))
     = [(u "GET", u "/base/api/assignments/5/groups/12/feedback_files.json")].
Proof. repeat split; vm_compute; reflexivity. Qed.

Lemma upload_upsert_witness :
  Demo.summary
    (snd (upload_feedback_file (lib := Sample.lib)
            (Demo.net (Demo.one_file "7")) Demo.self 5 12 (u "out.txt")
            (PStr (u "hello world")) None true []))
  = [(u "GET", u "/base/api/assignments/5/groups/12/feedback_files.json");
     (u "PUT", u "/base/api/assignments/5/groups/12/feedback_files/7")].
Proof.
  rewrite (proj1 (upload_upsert (lib := Sample.lib)
                    (Demo.net (Demo.one_file "7")) Demo.self 5 12
                    (u "out.txt") (u "hello world") None
                    [[(u "id", PInt 7); (u "filename", PStr (u "out.txt"))]]
                    []
                    [request Demo.self (PStr [])
                       (u "/api/assignments/5/groups/12/feedback_files.json")
                       (u "GET") FORM]
                    (u "text/plain")
                    (u "filename=out.txt&file_content=hello+world&mime_type=text%2Fplain")
                    (or_intror eq_refl) eq_refl eq_refl eq_refl)
             _ eq_refl eq_refl).
  reflexivity.
Defined.

(** The same upload under a new name is a [POST]. *)
Example upload_new_file :
  Demo.summary
    (snd (upload_feedback_file (lib := Sample.lib)
            (Demo.net (Demo.one_file "7")) Demo.self 5 12 (u "new.txt")
            (PStr (u "hello world")) None true []))
  = [(u "GET", u "/base/api/assignments/5/groups/12/feedback_files.json");
     (u "POST", u "/base/api/assignments/5/groups/12/feedback_files")].
Proof. vm_compute. reflexivity. Qed.


(** C5 as stated fails: the title [data] has no extension, the call fails
    for want of a mime type, and yet a request was sent, the listing. *)
Lemma mime_counterexample :
  fst (upload_feedback_file (lib := Sample.lib)
         (Demo.net (Demo.one_file "7")) Demo.self 5 12 (u "data")
         (PStr (u "hello world")) None true [])
  = Raise UnresolvedMimeType
  /\ Demo.summary
       (snd (upload_feedback_file (lib := Sample.lib)
               (Demo.net (Demo.one_file "7")) Demo.self 5 12 (u "data")
               (PStr (u "hello world")) None true []))
     = [(u "GET", u "/base/api/assignments/5/groups/12/feedback_files.json")].
Proof. split; vm_compute; reflexivity. Qed.

Lemma upload_mime_type_witness :
  upload_feedback_file (lib := Sample.lib)
    (Demo.net (Demo.one_file "7")) Demo.self 5 12 (u "data")
    (PStr (u "hello world")) None false []
  = (Raise UnresolvedMimeType, []).
Proof.
  apply (proj2 (upload_mime_type (lib := Sample.lib)
                  (Demo.net (Demo.one_file "7")) Demo.self 5 12 (u "data")
                  (PStr (u "hello world")) false [])).
  reflexivity.
Defined.

(** The two titles of the specification: [report.pdf] goes out as a PDF,
    [data] is refused. *)
Example mime_examples :
  guess_type (PyLib := Sample.lib) (u "report.pdf") = Some (u "application/pdf")
  /\ guess_type (PyLib := Sample.lib) (u "data") = None
  /\ List.map payload
       (snd (upload_feedback_file (lib := Sample.lib)
               (Demo.net (Demo.one_file "7")) Demo.self 5 12 (u "report.pdf")
               (PStr (u "%PDF")) None false []))
     = [PStr (u "filename=report.pdf&file_content=%25PDF&mime_type=application%2Fpdf")].
Proof. repeat split. Qed.

(** C1 at its failing input: bytes contents with an explicit mime type and
    no listing.  Nothing is sent. *)
Lemma upload_bytes_refused_witness :
  upload_feedback_file (lib := Sample.lib)
    (Demo.net (Demo.one_file "7")) Demo.self 5 12 (u "out.png")
    (PBytes (b "hello")) (Some (u "image/png")) false []
  = (Raise InvalidParameterShape, []).
Proof.
  apply (proj1 (proj2 (upload_bytes_refused (lib := Sample.lib)
                         (Demo.net (Demo.one_file "7")) Demo.self 5 12
                         (u "out.png") (PBytes (b "hello"))
                         (Some (u "image/png")) false [] eq_refl))
               (u "image/png") (b "out.png") (b "image/png"));
    reflexivity.
Defined.

(** With the default [overwrite] the listing is all that is sent. *)
Example upload_bytes_overwrite :
  fst (upload_feedback_file (lib := Sample.lib)
         (Demo.net (Demo.one_file "7")) Demo.self 5 12 (u "out.txt")
         (PBytes (b "hello")) None true [])
  = Raise InvalidParameterShape
  /\ Demo.summary
       (snd (upload_feedback_file (lib := Sample.lib)
               (Demo.net (Demo.one_file "7")) Demo.self 5 12 (u "out.txt")
               (PBytes (b "hello")) None true []))
     = [(u "GET", u "/base/api/assignments/5/groups/12/feedback_files.json")].
Proof. split; vm_compute; reflexivity. Qed.

Lemma init_scheme_witness :
  __init__ (lib := Sample.lib) (u "secret") (u "ftp://markus.example.org")
  = Raise AssertionError.
Proof.
  apply (proj2 (init_scheme (lib := Sample.lib) (u "secret")
                  (u "ftp://markus.example.org"))
               {| Url.scheme := u "ftp"; Url.netloc := u "markus.example.org";
                  Url.path := [] |}).
  - reflexivity.
  - intros [H|H]; discriminate H.
Defined.

(** The headers of the two requests of an overwriting upload. *)
Example outbound_headers_example :
  List.map headers
    (snd (upload_feedback_file (lib := Sample.lib)
            (Demo.net (Demo.one_file "7")) Demo.self 5 12 (u "out.txt")
            (PStr (u "hello world")) None true []))
  = [[(u "Content-type", u "application/x-www-form-urlencoded");
      (u "Accept", u "text/plain");
      (u "Authorization", u "MarkUsAuth secret")];
     [(u "Content-type", u "application/x-www-form-urlencoded");
      (u "Authorization", u "MarkUsAuth secret")]].
Proof. vm_compute. reflexivity. Qed.


Example status_examples :
  fst (update_marking_state (lib := Sample.lib) Demo.failing Demo.self 5 12
         (u "complete") [])
  = Ok {| status := 500; reason := u "Internal Server Error";
          body := b "oops" |}
  /\ fst (get_all_users (lib := Sample.lib) Demo.failing Demo.self [])
     = Raise JSONDecodeError
  /\ fst (get_all_users (lib := Sample.lib)
            (net_restatus (fun _ => (200%Z, u "OK")) Demo.failing) Demo.self [])
     = Raise JSONDecodeError.
Proof. repeat split. Qed.

(** A fault of the transport reaches the caller as it is; the listing was
    attempted and nothing follows it. *)
Example transport_fault :
  fst (upload_feedback_file (lib := Sample.lib) Demo.unreachable Demo.self
         5 12 (u "out.txt") (PStr (u "hello world")) None true [])
  = Raise TransportFault
  /\ Demo.summary
       (snd (upload_feedback_file (lib := Sample.lib) Demo.unreachable
               Demo.self 5 12 (u "out.txt") (PStr (u "hello world")) None
               true []))
     = [(u "GET", u "/base/api/assignments/5/groups/12/feedback_files.json")].
Proof. split; reflexivity. Qed.

(** ** The library functions on sample inputs *)

Example json_loads_examples :
  json_loads (q " [1, -20, {'k': [true, false, null]}, 'a\u00e9\n'] ")
  = Ok (PList [PInt 1; PInt (-20);
               PDict [(u "k", PList [PBool true; PBool false; PNone])];
               PStr [0x61; 0xE9; 0x0A]])
  /\ json_loads (q "'\ud83d\ude00'") = Ok (PStr [0x1F600])
  /\ json_loads (q "{'a': 1, 'b': 2, 'a': 3}")
     = Ok (PDict [(u "a", PInt 3); (u "b", PInt 2)])
  /\ json_loads (u "1.50e3") = Ok (PFloat (u "1.50e3"))
  /\ json_loads (u "[1,]") = Raise JSONDecodeError
  /\ json_loads (u "01") = Raise JSONDecodeError
  /\ json_loads (q "{'a' 1}") = Raise JSONDecodeError
  /\ json_loads (u "") = Raise JSONDecodeError.
Proof. repeat split. Qed.

Example quote_plus_examples :
  quote_plus (u "x y") = Ok (u "x+y")
  /\ quote_plus (u "a+b&c=d/e~f") = Ok (u "a%2Bb%26c%3Dd%2Fe~f")
  /\ quote_plus [0xE9; 0x20AC; 0x1F600] = Ok (u "%C3%A9%E2%82%AC%F0%9F%98%80")
  /\ quote_plus [0xDC00] = Raise UnicodeEncodeError
  /\ unquote (u "%C3%A9+%zz") = Ok ([0xE9] ++ u "+%zz")
  /\ unquote (u "%ff") = Raise UnicodeDecodeError.
Proof. repeat split. Qed.

Example str_strip_example :
  str_strip ([0x20; 0x09] ++ u "http://x y" ++ [0x0A; 0xA0]) = u "http://x y".
Proof. reflexivity. Qed.

(** * Further properties of the client *)

(** ** Item assignment on a [dict] *)

Lemma dict_get_set_same {V} (d : dict V) (k : str) (v : V) :
  dict_get (dict_set d k v) k = Some v.
Proof.
  induction d as [|[k' v'] d IH]; cbn [dict_set dict_get].
  - now rewrite str_eqb_refl.
  - destruct (str_eqb k' k) eqn:E; cbn [dict_get]; rewrite E; auto.
Qed.

Lemma dict_get_set_other {V} (d : dict V) (k k' : str) (v : V) :
  k' <> k -> dict_get (dict_set d k v) k' = dict_get d k'.
Proof.
  intros Hne. induction d as [|[k0 v0] d IH]; cbn [dict_set dict_get].
  - destruct (str_eqb k k') eqn:E; [|reflexivity].
    apply str_eqb_eq in E. congruence.
  - destruct (str_eqb k0 k) eqn:E; cbn [dict_get].
    + apply str_eqb_eq in E. subst k0.
      destruct (str_eqb k k') eqn:E'; [|reflexivity].
      apply str_eqb_eq in E'. congruence.
    + now rewrite IH.
Qed.

Lemma dict_set_keys {V} (d : dict V) (k : str) (v : V) :
  dict_keys (dict_set d k v)
  = if existsb (fun k' => str_eqb k' k) (dict_keys d)
    then dict_keys d else dict_keys d ++ [k].
Proof.
  induction d as [|[k' v'] d IH]; [reflexivity|].
  cbn [dict_set dict_keys List.map fst existsb].
  destruct (str_eqb k' k) eqn:E; cbn [orb List.map fst].
  - reflexivity.
  - fold (dict_keys d). fold (dict_keys (dict_set d k v)). rewrite IH.
    now destruct (existsb (fun k'0 => str_eqb k'0 k) (dict_keys d)).
Qed.

Lemma dict_set_nodup {V} (d : dict V) (k : str) (v : V) :
  NoDup (dict_keys d) -> NoDup (dict_keys (dict_set d k v)).
Proof.
  intros H. rewrite dict_set_keys.
  destruct (existsb (fun k' => str_eqb k' k) (dict_keys d)) eqn:E; [exact H|].
  apply NoDup_app; [exact H | repeat constructor; intros [] |].
  intros x Hx [Ek|[]]. subst x.
  assert (existsb (fun k' => str_eqb k' k) (dict_keys d) = true) as C.
  { apply existsb_exists. exists k. split; [exact Hx | apply str_eqb_refl]. }
  congruence.
Qed.

(** ** The transport and the headers it is given *)

(** X1.  [_do_submit_request] on a client with a web scheme sends one request:
    the method, the parameters and every header are the caller's, except
    that [Authorization] is set to the token, replacing a value the caller
    may have given; the address is the base path followed by the path; no
    header name is repeated if none was. *)
Theorem do_submit_request_sent (net : Network) (self : Markus)
        (params : pyval) (path request_type : str) (hs : dict str)
        (t : list Request) :
  web_scheme (parsed_url self) ->
  exists rq,
    _do_submit_request net self params path request_type hs t
    = (net t rq, t ++ [rq])
    /\ method rq = request_type
    /\ url rq = Url.path (parsed_url self) ++ path
    /\ payload rq = params
    /\ host rq = Url.netloc (parsed_url self)
    /\ dict_get (headers rq) (u "Authorization")
       = Some (u "MarkUsAuth " ++ api_key self)
    /\ (forall name, name <> u "Authorization" ->
                     dict_get (headers rq) name = dict_get hs name)
    /\ (NoDup (dict_keys hs) -> NoDup (dict_keys (headers rq))).
Proof.
  intros W. unfold _do_submit_request, bind, ret, throw, lift.
  destruct W as [W|W]; rewrite W; (eexists; split; [reflexivity|]);
    cbn [method url payload host headers]; repeat split;
    try apply dict_get_set_same; try apply dict_set_nodup;
    intros name Hn; now apply dict_get_set_other.
Qed.

Lemma do_submit_request_sent_witness :
  exists rq,
    _do_submit_request Demo.failing Demo.self PNone
      (u "/api/users.json") (u "GET")
      [(u "Authorization", u "Basic forged"); (u "X-Trace", u "1")] []
    = (Demo.failing [] rq, [] ++ [rq])
    /\ dict_get (headers rq) (u "Authorization") = Some (u "MarkUsAuth secret")
    /\ dict_get (headers rq) (u "X-Trace") = Some (u "1").
Proof.
  destruct (do_submit_request_sent Demo.failing Demo.self
              PNone (u "/api/users.json") (u "GET")
              [(u "Authorization", u "Basic forged"); (u "X-Trace", u "1")] []
              (or_intror eq_refl)) as (rq & E & _ & _ & _ & _ & A & O & _).
  exists rq. split; [exact E|]. split; [exact A|].
  rewrite O; [reflexivity | discriminate].
Defined.

(** ** Construction, then requests *)

Lemma init_ok {lib : PyLib} (key url : str) (self : Markus) :
  __init__ key url = Ok self ->
  urlparse (str_strip url) = Ok (parsed_url self)
  /\ api_key self = key /\ web_scheme (parsed_url self).
Proof.
  unfold __init__. destruct (urlparse (str_strip url)) as [p|e]; cbn [obind];
    [|discriminate].
  destruct (str_eqb (Url.scheme p) (u "http")
            || str_eqb (Url.scheme p) (u "https")) eqn:E; [|discriminate].
  intros [= <-]. cbn [parsed_url api_key]. apply web_scheme_test in E. auto.
Qed.

Lemma connection_of_scheme (self : Markus) :
  web_scheme (parsed_url self) ->
  (connection_of self = HTTPConnection <-> Url.scheme (parsed_url self) = u "http")
  /\ (connection_of self = HTTPSConnection
      <-> Url.scheme (parsed_url self) = u "https").
Proof.
  unfold connection_of. intros [W|W]; rewrite W.
  - change (str_eqb (u "http") (u "http")) with true. cbv iota.
    split; split; intros; try reflexivity; discriminate.
  - change (str_eqb (u "https") (u "http")) with false. cbv iota.
    split; split; intros; try reflexivity; discriminate.
Qed.

(** X2.  The scheme guard of the transport is never met by a client that
    [__init__] returned: whenever the parameters encode, [submit_request]
    sends exactly one request and returns what the network answers, over
    [HTTPConnection] when the scheme of the URL is [http] and over
    [HTTPSConnection] when it is [https], with the token given at
    construction. *)
Theorem constructed_client_sends {lib : PyLib} (net : Network)
        (key url : str) (self : Markus)
        (params body : pyval) (path request_type content_type : str)
        (t : list Request) :
  __init__ key url = Ok self ->
  encoded params content_type = Ok body ->
  submit_request net self params path request_type content_type t
  = (net t (request self body path request_type content_type),
     t ++ [request self body path request_type content_type])
  /\ (conn (request self body path request_type content_type) = HTTPConnection
      <-> Url.scheme (parsed_url self) = u "http")
  /\ (conn (request self body path request_type content_type) = HTTPSConnection
      <-> Url.scheme (parsed_url self) = u "https")
  /\ dict_get (headers (request self body path request_type content_type))
              (u "Authorization")
     = Some (u "MarkUsAuth " ++ key).
Proof.
  intros I E. destruct (init_ok key url self I) as (_ & K & W).
  split; [|split; [|split]].
  - rewrite submit_request_eq, E. apply web_scheme_test in W. now rewrite W.
  - apply (connection_of_scheme self W).
  - apply (connection_of_scheme self W).
  - rewrite <- K.
    apply (request_well_headed self body path request_type content_type).
Qed.

Lemma constructed_client_sends_witness :
  submit_request (lib := Sample.lib) Demo.failing Demo.self PNone
    (u "/api/users.json") (u "GET") FORM []
  = (Demo.failing [] (request Demo.self PNone (u "/api/users.json") (u "GET") FORM),
     [] ++ [request Demo.self PNone (u "/api/users.json") (u "GET") FORM]).
Proof.
  apply (constructed_client_sends (lib := Sample.lib) Demo.failing (u "secret")
           (u "https://markus.example.org/base") Demo.self PNone PNone
           (u "/api/users.json") (u "GET") FORM []);
    reflexivity.
Defined.

(** ** White space around the address *)

Lemma str_lstrip_spaces (ws s : str) :
  forallb is_space ws = true -> str_lstrip (ws ++ s) = str_lstrip s.
Proof.
  induction ws as [|c ws IH]; intros H; [reflexivity|].
  cbn [forallb] in H. apply andb_prop in H. destruct H as [Hc Hw].
  cbn [app str_lstrip]. rewrite Hc. auto.
Qed.

Lemma str_lstrip_all_spaces (ws : str) :
  forallb is_space ws = true -> str_lstrip ws = [].
Proof.
  intros H. rewrite <- (app_nil_r ws). now rewrite str_lstrip_spaces.
Qed.

Lemma str_lstrip_app (s t : str) :
  str_lstrip (s ++ t)
  = match str_lstrip s with
    | [] => str_lstrip t
    | _ :: _ => str_lstrip s ++ t
    end.
Proof.
  induction s as [|c s IH]; [cbn; now destruct (str_lstrip t)|].
  cbn [app str_lstrip]. destruct (is_space c); [exact IH | reflexivity].
Qed.

Lemma forallb_rev {A} (f : A -> bool) (l : list A) :
  forallb f (rev l) = forallb f l.
Proof.
  induction l as [|x l IH]; [reflexivity|].
  cbn [rev forallb]. rewrite forallb_app, IH. cbn [forallb].
  rewrite andb_true_r. apply andb_comm.
Qed.

Lemma str_strip_spaces (ws ws' s : str) :
  forallb is_space ws = true -> forallb is_space ws' = true ->
  str_strip (ws ++ s ++ ws') = str_strip s.
Proof.
  intros H H'. unfold str_strip. rewrite str_lstrip_spaces by assumption.
  rewrite str_lstrip_app.
  destruct (str_lstrip s) as [|c r] eqn:E.
  - rewrite (str_lstrip_all_spaces ws') by assumption. reflexivity.
  - rewrite rev_app_distr.
    rewrite (str_lstrip_spaces (rev ws')) by (now rewrite forallb_rev).
    reflexivity.
Qed.

(** X3.  White space before and after the address does not count: [__init__]
    does with the padded address what it does with the address. *)
Theorem init_ignores_spaces {lib : PyLib} (key url ws ws' : str) :
  forallb is_space ws = true -> forallb is_space ws' = true ->
  __init__ key (ws ++ url ++ ws') = __init__ key url.
Proof.
  intros H H'. unfold __init__. now rewrite str_strip_spaces.
Qed.

Lemma init_ignores_spaces_witness :
  __init__ (lib := Sample.lib) (u "secret")
    ([0x20; 0x09] ++ u "https://markus.example.org/base" ++ [0x0D; 0x0A])
  = __init__ (lib := Sample.lib) (u "secret") (u "https://markus.example.org/base").
Proof. apply init_ignores_spaces; reflexivity. Defined.

(** ** What every operation sends *)

Lemma strip_prefix_app (word rest : str) :
  strip_prefix word (word ++ rest) = Some rest.
Proof.
  induction word as [|c word IH]; [reflexivity|].
  cbn [app strip_prefix]. now rewrite N.eqb_refl.
Qed.

Lemma ends_with_app (suffix s : str) : ends_with suffix (s ++ suffix) = true.
Proof.
  unfold ends_with. now rewrite rev_app_distr, strip_prefix_app.
Qed.

Lemma ends_with_longer (suffix s t : str) :
  ends_with suffix s = true -> ends_with suffix (t ++ s) = true.
Proof.
  unfold ends_with. rewrite rev_app_distr.
  destruct (strip_prefix (rev suffix) (rev s)) as [r|] eqn:E; [|discriminate].
  intros _.
  assert (G : forall w x r y, strip_prefix w x = Some r ->
                              strip_prefix w (x ++ y) = Some (r ++ y)).
  { induction w as [|c w IH]; intros x r0 y H.
    - injection H as <-. reflexivity.
    - destruct x as [|d x]; [discriminate|]. cbn [app strip_prefix] in *.
      destruct (d =? c); [|discriminate]. auto. }
  now rewrite (G _ _ _ (rev t) E).
Qed.

Lemma sends_bind_lift {A B} (P : Request -> Prop) (o : outcome A)
      (k : A -> io B) :
  (forall a, o = Ok a -> sends P (k a)) -> sends P (bind (lift o) k).
Proof.
  intros H t. unfold bind, lift. destruct o as [a|e].
  - now apply H.
  - exists []. cbn. now rewrite app_nil_r.
Qed.

Section Invariants.
Context {lib : PyLib}.
Variable net : Network.
Variable self : Markus.

Lemma submit_request_sends_encoded (P : Request -> Prop)
      (params : pyval) (path request_type content_type : str) :
  (forall body, encoded params content_type = Ok body ->
                P (request self body path request_type content_type)) ->
  sends P (submit_request net self params path request_type content_type).
Proof.
  intros HP t. rewrite submit_request_eq.
  destruct (encoded params content_type) as [body|e] eqn:E.
  - destruct (str_eqb (Url.scheme (parsed_url self)) (u "http")
              || str_eqb (Url.scheme (parsed_url self)) (u "https")).
    + exists [request self body path request_type content_type].
      split; [reflexivity|]. constructor; [now apply HP | constructor].
    + exists []. cbn. now rewrite app_nil_r.
  - exists []. cbn. now rewrite app_nil_r.
Qed.

(** Every request of every operation comes from a call of [submit_request]
    of the shape [call_site]. *)
Lemma call_sites (P : Request -> Prop) :
  (forall params path request_type content_type body,
      call_site params path request_type content_type ->
      encoded params content_type = Ok body ->
      P (request self body path request_type content_type)) ->
  forall op, sends P (call net self op).
Proof.
  intros H.
  assert (S : forall params path request_type content_type,
             call_site params path request_type content_type ->
             sends P (submit_request net self params path request_type
                                     content_type)).
  { intros params path request_type content_type C.
    apply submit_request_sends_encoded. intros body E.
    now apply (H params). }
  assert (R : forall A (decode : Response -> outcome A) params path,
             call_site params path (u "GET") FORM ->
             sends P (do response <- submit_request net self params path
                                                    (u "GET") FORM ;
                      lift (decode response))).
  { intros. apply sends_bind; [now apply S | intros; apply sends_lift]. }
  assert (G : forall params path,
             (params = PNone \/ params = PDict []) ->
             (exists rest, path = u "/api/" ++ rest) ->
             ends_with (u ".json") path = true ->
             call_site params path (u "GET") FORM).
  { intros params path Hp Hr He. split; [exact Hr|]. split; auto. }
  assert (Wp : forall params path ct,
             (exists rest, path = u "/api/" ++ rest) ->
             (ct = FORM \/ ct = JSON \/ ct = MULTIPART) ->
             call_site params path (u "POST") ct).
  { intros params path ct Hr Hc. split; [exact Hr|]. split; auto. }
  assert (Wu : forall params path ct,
             (exists rest, path = u "/api/" ++ rest) ->
             (ct = FORM \/ ct = JSON \/ ct = MULTIPART) ->
             call_site params path (u "PUT") ct).
  { intros params path ct Hr Hc. split; [exact Hr|]. split; auto. }
  intros op. destruct op; cbn [call]; apply sends_io_map;
    unfold get_all_users, new_user, get_assignments, get_groups,
      get_groups_by_name, get_group, get_feedback_files, get_feedback_file,
      get_marks_spreadsheet, upload_test_group_results, upload_annotations,
      update_marks_single_group, update_marking_state.
  - eapply R; apply G; [auto | eexists; reflexivity | reflexivity].
  - eapply S; apply Wp; [eexists; reflexivity | auto].
  - eapply R; apply G; [auto | eexists; reflexivity | reflexivity].
  - eapply R; apply G; [auto | eexists; reflexivity | apply ends_with_app].
  - eapply R; apply G; [auto | eexists; reflexivity | apply ends_with_app].
  - eapply R; apply G; [auto | eexists; reflexivity | apply ends_with_app].
  - eapply R; apply G; [auto | eexists; reflexivity | apply ends_with_app].
  - eapply R; apply G; [auto | eexists; reflexivity | apply ends_with_app].
  - eapply R; apply G; [auto | eexists; reflexivity | apply ends_with_app].
  - unfold upload_feedback_file. apply sends_bind.
    + destruct overwrite; [|apply sends_ret].
      apply sends_bind; [|intros; apply sends_lift].
      unfold get_feedback_files.
      eapply R; apply G; [auto | eexists; reflexivity | apply ends_with_app].
    + intros id.
      destruct (py_truth id);
        (destruct (match mime_type with None => guess_type title | Some m => Some m end)
           as [m|]; [|apply sends_throw]);
        apply sends_bind_lift; intros [params ct] E;
        (assert (Hc : ct = FORM \/ ct = JSON \/ ct = MULTIPART);
         [destruct (is_str contents);
          [injection E as _ <-; auto|];
          destruct (str_encode title); [|discriminate];
          destruct (str_encode m); [|discriminate];
          injection E as _ <-; auto|]).
      * eapply S; apply Wu; [eexists; reflexivity | exact Hc].
      * eapply S; apply Wp; [eexists; reflexivity | exact Hc].
  - eapply S; apply Wp; [eexists; reflexivity | auto].
  - eapply S; apply Wp; [eexists; reflexivity | auto].
  - eapply S; apply Wu; [eexists; reflexivity | auto].
  - eapply S; apply Wu; [eexists; reflexivity | auto].
Qed.

End Invariants.

Section Invariants2.
Context {lib : PyLib}.
Variable net : Network.
Variable self : Markus.

Lemma encoded_shape (params : pyval) (content_type : str) (body : pyval) :
  encoded params content_type = Ok body -> text_or_none body.
Proof.
  unfold encoded, text_or_none. destruct (is_none params) eqn:N; cbn [negb].
  - intros [= <-]. left. now destruct params.
  - destruct (if str_eqb content_type FORM
              then omap PStr (urlencode_any params)
              else if str_eqb content_type MULTIPART then Ok params
                   else if str_eqb content_type JSON
                        then omap PStr (json_dumps params)
                        else Ok params) as [p|e]; cbn [obind]; [|discriminate].
    destruct p; cbn [is_str negb]; try discriminate.
    intros [= <-]. right. eauto.
Qed.

(** X4.  What is sent as a body is text or nothing, never a mapping and never
    bytes: for every call of [submit_request] and so for every
    operation. *)
Theorem payload_is_text :
  (forall params path request_type content_type,
      sends (fun rq => text_or_none (payload rq))
            (submit_request net self params path request_type content_type))
  /\ (forall op, sends (fun rq => text_or_none (payload rq)) (call net self op)).
Proof.
  split.
  - intros. apply submit_request_sends_encoded. intros body E.
    now apply encoded_shape in E.
  - apply call_sites. intros params path request_type content_type body _ E.
    now apply encoded_shape in E.
Qed.

(** X5.  Every request of every operation goes over the connection class of
    the client's scheme to the client's host, and its address is the
    client's base path followed by a path under [/api/]. *)
Theorem requests_on_target (op : operation) :
  sends (on_target self) (call net self op).
Proof.
  apply call_sites.
  intros params path request_type content_type body ((rest & ->) & _) _.
  unfold on_target, request. cbn [conn host url]. eauto.
Qed.

(** X6.  Every request of every operation is either a [GET] of an address that
    ends in [.json], sent with no body or an empty one, or a [POST] or a
    [PUT]. *)
Theorem reads_and_writes (op : operation) :
  sends read_or_write (call net self op).
Proof.
  apply call_sites.
  intros params path request_type content_type body (_ & M & _) E.
  unfold read_or_write, request. cbn [method url payload].
  destruct M as [(-> & J & Hp & ->)|M]; [left|right; exact M].
  split; [reflexivity|]. split; [now apply ends_with_longer|].
  destruct Hp as [-> | ->].
  - injection E as <-. now left.
  - injection E as <-. now right.
Qed.

Lemma sends_one_lift {A} (P : Request -> Prop) (o : outcome A) :
  sends_one P (lift o).
Proof. intros t. exists []. cbn. rewrite app_nil_r. auto. Qed.

Lemma sends_one_submit (params : pyval) (path request_type content_type : str) :
  sends_one (fun rq => method rq = request_type)
            (submit_request net self params path request_type content_type).
Proof.
  intros t. rewrite submit_request_eq.
  destruct (encoded params content_type) as [body|e].
  - destruct (str_eqb (Url.scheme (parsed_url self)) (u "http")
              || str_eqb (Url.scheme (parsed_url self)) (u "https")).
    + exists [request self body path request_type content_type].
      split; [reflexivity|]. split; [|cbn; lia]. now repeat constructor.
    + exists []. cbn. rewrite app_nil_r. auto.
  - exists []. cbn. rewrite app_nil_r. auto.
Qed.

Lemma sends_one_then_lift {A B} (P : Request -> Prop) (m : io A)
      (f : A -> outcome B) :
  sends_one P m -> sends_one P (do a <- m ; lift (f a)).
Proof.
  intros H t. unfold bind. destruct (H t) as (new & E & F & L).
  destruct (m t) as [[a|e] t1]; cbn [snd] in E; subst t1; exists new; auto.
Qed.

Lemma sends_one_io_map {A B} (P : Request -> Prop) (f : A -> B) (m : io A) :
  sends_one P m -> sends_one P (io_map f m).
Proof. intros H. apply (sends_one_then_lift P m (fun a => Ok (f a)) H). Qed.

Lemma sends_one_weaken {A} (P Q : Request -> Prop) (m : io A) :
  (forall rq, P rq -> Q rq) -> sends_one P m -> sends_one Q m.
Proof.
  intros PQ H t. destruct (H t) as (new & E & F & L). exists new.
  repeat split; auto. eapply Forall_impl; eauto.
Qed.

(** X7.  An operation sends at most one request, except an upload that
    overwrites, which sends at most the listing [GET] and then at most one
    [POST] or [PUT]: the requests of an operation are at most one [GET]
    followed by at most one [POST] or [PUT], and only an overwriting upload
    sends both. *)
Theorem request_budget (op : operation) (t : list Request) :
  exists reads writes,
    snd (call net self op t) = t ++ reads ++ writes
    /\ Forall is_get reads /\ Forall is_write writes
    /\ (List.length reads <= 1)%nat /\ (List.length writes <= 1)%nat
    /\ (lists_first op = false ->
        (List.length reads + List.length writes <= 1)%nat).
Proof.
  assert (Rd : forall A (m : io A),
             sends_one (fun rq => method rq = u "GET") m ->
             exists reads writes,
               snd (m t) = t ++ reads ++ writes
               /\ Forall is_get reads /\ Forall is_write writes
               /\ (List.length reads <= 1)%nat /\ (List.length writes <= 1)%nat
               /\ (List.length reads + List.length writes <= 1)%nat).
  { intros A m H. destruct (H t) as (new & E & F & L).
    exists new, []. rewrite app_nil_r. cbn [List.length].
    repeat split; auto; lia. }
  assert (Wr : forall A (m : io A),
             sends_one is_write m ->
             exists reads writes,
               snd (m t) = t ++ reads ++ writes
               /\ Forall is_get reads /\ Forall is_write writes
               /\ (List.length reads <= 1)%nat /\ (List.length writes <= 1)%nat
               /\ (List.length reads + List.length writes <= 1)%nat).
  { intros A m H. destruct (H t) as (new & E & F & L).
    exists [], new. cbn [app List.length]. repeat split; auto; lia. }
  assert (Fin : forall A (m : io A),
             (exists reads writes,
                 snd (m t) = t ++ reads ++ writes
                 /\ Forall is_get reads /\ Forall is_write writes
                 /\ (List.length reads <= 1)%nat
                 /\ (List.length writes <= 1)%nat
                 /\ (List.length reads + List.length writes <= 1)%nat) ->
             forall b : bool,
             exists reads writes,
               snd (m t) = t ++ reads ++ writes
               /\ Forall is_get reads /\ Forall is_write writes
               /\ (List.length reads <= 1)%nat /\ (List.length writes <= 1)%nat
               /\ (b = false ->
                   (List.length reads + List.length writes <= 1)%nat)).
  { intros A m (reads & writes & E & F1 & F2 & L1 & L2 & L3) b0.
    exists reads, writes. repeat split; auto. }
  assert (Post : forall params path ct,
             sends_one is_write (submit_request net self params path (u "POST") ct)).
  { intros. eapply sends_one_weaken; [|apply sends_one_submit].
    intros rq M. now left. }
  assert (Put : forall params path ct,
             sends_one is_write (submit_request net self params path (u "PUT") ct)).
  { intros. eapply sends_one_weaken; [|apply sends_one_submit].
    intros rq M. now right. }
  destruct op; cbn [call lists_first];
    unfold get_all_users, new_user, get_assignments, get_groups,
      get_groups_by_name, get_group, get_feedback_files, get_feedback_file,
      get_marks_spreadsheet, upload_test_group_results, upload_annotations,
      update_marks_single_group, update_marking_state;
    try (apply Fin, Rd, sends_one_io_map, sends_one_then_lift,
           sends_one_submit);
    try (apply Fin, Wr, sends_one_io_map; first [apply Post | apply Put]).
  (* upload_feedback_file *)
  rename assignment_id into a. rename group_id into g.
  assert (Tail : forall id,
             sends_one is_write
               (fun t1 =>
                  match resolved_mime mime_type title with
                  | None => throw UnresolvedMimeType
                  | Some m =>
                    do (params, ct) <- lift (upload_params title contents m) ;
                    submit_request net self params (fst (upload_target a g id))
                                   (snd (upload_target a g id)) ct
                  end t1)).
  { intros id t1. destruct (resolved_mime mime_type title) as [m|].
    - unfold bind, lift.
      destruct (upload_params title contents m) as [[params ct]|e].
      + unfold upload_target. destruct (py_truth id); cbn [fst snd].
        * apply Put.
        * apply Post.
      + exists []. cbn. rewrite app_nil_r. auto.
    - exists []. cbn. rewrite app_nil_r. auto. }
  unfold io_map, bind at 1. unfold ret, lift.
  rewrite upload_unfold. unfold bind at 1.
  destruct overwrite.
  - destruct (sends_one_then_lift (fun rq => method rq = u "GET")
                (get_feedback_files net self a g)
                (fun ff => let? entries := py_iter ff in
                           next_feedback_file_id title entries)
                (sends_one_then_lift _ _ decode_json_response
                   (sends_one_submit _ _ _ _)) t)
      as (reads & E & F & L).
    change (do a0 <- get_feedback_files net self a g ;
            lift (let? entries := py_iter a0 in
                  next_feedback_file_id title entries))
      with (listed_id net self a g title) in E.
    destruct (listed_id net self a g title t) as [[id|e] t1];
      cbn [snd] in E; subst t1.
    + destruct (Tail id (t ++ reads)) as (writes & E2 & F2 & L2).
      destruct (match resolved_mime mime_type title with
                | None => throw UnresolvedMimeType
                | Some m =>
                  do (params, ct) <- lift (upload_params title contents m) ;
                  submit_request net self params (fst (upload_target a g id))
                                 (snd (upload_target a g id)) ct
                end (t ++ reads)) as [[r|e] t2]; cbn [snd] in E2; subst t2;
        exists reads, writes; rewrite <- app_assoc;
        repeat split; auto; discriminate.
    + exists reads, []. rewrite app_nil_r. cbn [List.length].
      repeat split; auto; discriminate.
  - cbn [ret lift]. destruct (Tail PNone t) as (writes & E2 & F2 & L2).
    destruct (match resolved_mime mime_type title with
              | None => throw UnresolvedMimeType
              | Some m =>
                do (params, ct) <- lift (upload_params title contents m) ;
                submit_request net self params (fst (upload_target a g PNone))
                               (snd (upload_target a g PNone)) ct
              end t) as [[r|e] t2]; cbn [snd] in E2; subst t2;
      exists [], writes; cbn [app List.length]; repeat split; auto; lia.
Qed.

End Invariants2.

(** ** Form-encoded bodies *)

Lemma chunk_of_form_char x c : chunk_of x c -> forallb form_char c = true.
Proof.
  intros H. destruct H as [Hs | Hx | ].
  - cbn [forallb]. rewrite andb_true_r. revert Hs.
    destruct x; vm_compute; intros H; first [reflexivity | discriminate].
  - reflexivity.
  - destruct x; vm_compute; reflexivity.
Qed.

Lemma quoted_form_char bs s : quoted bs s -> forallb form_char s = true.
Proof.
  induction 1 as [|x c bs s Hc _ IH]; [reflexivity|].
  rewrite forallb_app, IH, (chunk_of_form_char x c Hc). reflexivity.
Qed.

Lemma quote_plus_ok_quoted (s q : str) :
  quote_plus s = Ok q ->
  exists bs, utf8_encode s = Some bs /\ utf8_decode bs = Some s /\ quoted bs q.
Proof.
  intros H.
  assert (E : encodable s = true).
  { unfold quote_plus, quote, str_encode in H.
    destruct (utf8_encode s) as [bs|] eqn:U.
    - now apply utf8_encode_encodable in U.
    - destruct (str_in (ch " ") s); discriminate. }
  destruct (quote_plus_quoted s E) as (bs & q' & U & D & Q & R).
  rewrite Q in H. injection H as <-. eauto.
Qed.

Lemma quote_plus_bytes_quoted (bs : bytes) : quoted bs (quote_plus_bytes bs).
Proof.
  unfold quote_plus_bytes, quote_from_bytes.
  destruct (byte_in " " bs).
  - rewrite str_replace_flat_map. apply quoted_flat_map.
    apply chunk_of_quoter_plus.
  - apply quoted_flat_map, chunk_of_quoter.
Qed.

Lemma str_join_form_char (parts : list str) :
  forallb (forallb form_char) parts = true ->
  forallb form_char (str_join (u "&") parts) = true.
Proof.
  induction parts as [|p parts IH]; [reflexivity|].
  cbn [forallb]. intros H. apply andb_prop in H. destruct H as [Hp Hr].
  destruct parts as [|p' parts']; [exact Hp|].
  change (str_join (u "&") (p :: p' :: parts'))
    with (p ++ u "&" ++ str_join (u "&") (p' :: parts')).
  rewrite !forallb_app, Hp, (IH Hr). reflexivity.
Qed.

Section Forms.
Context {lib : PyLib}.

Lemma urlencode_item_form_char (kv : str * pyval) (f : str) :
  urlencode_item kv = Ok f -> forallb form_char f = true.
Proof.
  unfold urlencode_item. destruct kv as [k v]. cbn [fst snd].
  destruct (quote_plus k) as [kq|] eqn:K; cbn [obind]; [|discriminate].
  apply quote_plus_ok_quoted in K. destruct K as (bk & _ & _ & Qk).
  assert (V : forall vq, quote_value v = Ok vq -> forallb form_char vq = true).
  { intros vq H. unfold quote_value in H.
    destruct v;
      try (apply quote_plus_ok_quoted in H; destruct H as (bv & _ & _ & Qv);
           now apply quoted_form_char in Qv).
    injection H as <-. eapply quoted_form_char, quote_plus_bytes_quoted. }
  destruct (quote_value v) as [vq|]; cbn [obind]; [|discriminate].
  intros [= <-]. rewrite forallb_app, (quoted_form_char _ _ Qk).
  cbn [forallb]. rewrite (V vq eq_refl). reflexivity.
Qed.

Lemma traverse_form_char (d : dict pyval) (fields : list str) :
  traverse urlencode_item d = Ok fields ->
  forallb (forallb form_char) fields = true.
Proof.
  revert fields. induction d as [|kv d IH]; intros fields H; cbn [traverse] in H.
  - injection H as <-. reflexivity.
  - destruct (urlencode_item kv) as [f|] eqn:F; cbn [obind] in H;
      [|discriminate].
    destruct (traverse urlencode_item d) as [fs|]; cbn [obind] in H;
      [|discriminate].
    injection H as <-. cbn [forallb].
    now rewrite (urlencode_item_form_char kv f F), (IH fs eq_refl).
Qed.

Lemma urlencode_any_form_char (params : pyval) (qs : str) :
  urlencode_any params = Ok qs -> forallb form_char qs = true.
Proof.
  unfold urlencode_any.
  assert (D : forall d, urlencode d = Ok qs -> forallb form_char qs = true).
  { intros d. unfold urlencode.
    destruct (traverse urlencode_item d) as [fields|] eqn:T; cbn [obind];
      [|discriminate].
    intros [= <-]. now apply str_join_form_char, (traverse_form_char d). }
  destruct params as [| | | | [|] | [|] | [|] | ]; try discriminate;
    try (intros [= <-]; reflexivity).
  apply D.
Qed.

(** X8.  A form-encoded body is plain ASCII whatever the parameters hold: its
    characters are letters, digits, the marks [_.-~], the [%] and [+] of
    quoting, and the separators [=] and [&]. *)
Theorem form_body_chars (net : Network) (self : Markus)
        (params : pyval) (path request_type : str) :
  sends (fun rq => payload rq = PNone
                   \/ exists qs, payload rq = PStr qs
                                 /\ forallb form_char qs = true)
        (submit_request net self params path request_type FORM).
Proof.
  apply submit_request_sends_encoded. intros body E. cbn [payload request].
  unfold encoded in E. destruct (is_none params) eqn:N; cbn [negb] in E.
  - injection E as <-. left. now destruct params.
  - change (str_eqb FORM FORM) with true in E. cbv iota in E.
    destruct (urlencode_any params) as [qs|] eqn:U; cbn [omap obind] in E;
      [|discriminate].
    cbn [is_str negb] in E. injection E as <-. right. exists qs.
    split; [reflexivity|]. now apply (urlencode_any_form_char params).
Qed.

(** The round trip of a mapping of strings, for the proofs below. *)
Lemma urlencode_parse_query (m : dict str) :
  NoDup (dict_keys m) ->
  Forall (fun kv => encodable (fst kv) = true /\ encodable (snd kv) = true) m ->
  exists qs, urlencode (str_values m) = Ok qs /\ parse_query qs = Ok m.
Proof.
  intros Hnd Henc.
  destruct (urlencode_fields m Henc) as (fields & T & F & P & E).
  exists (str_join (u "&") fields). split.
  - unfold urlencode. now rewrite T.
  - unfold parse_query, parse_qsl. destruct fields as [|f fields].
    + assert (m = []) as -> by now apply E.
      reflexivity.
    + change (u "&") with [ch "&"].
      rewrite str_split_join by (auto; discriminate).
      rewrite P. cbn [obind]. rewrite concat_singletons.
      now rewrite dict_of_items_nodup.
Qed.

(** A mapping of strings leaves [submit_request] as one request whose body
    reads back as the mapping. *)
Lemma form_request (net : Network) (self : Markus) (m : dict str)
      (path request_type : str) (t : list Request) :
  web_scheme (parsed_url self) ->
  NoDup (dict_keys m) ->
  Forall (fun kv => encodable (fst kv) = true /\ encodable (snd kv) = true) m ->
  exists qs,
    submit_request net self (PDict (str_values m)) path request_type FORM t
    = send net (request self (PStr qs) path request_type FORM) t
    /\ parse_query qs = Ok m.
Proof.
  intros W Hnd Henc.
  destruct (urlencode_parse_query m Hnd Henc) as (qs & U & P).
  exists qs. split; [|exact P].
  rewrite submit_request_eq. unfold encoded. cbn [is_none negb].
  change (str_eqb FORM FORM) with true. cbv iota.
  unfold urlencode_any. rewrite U. cbn [omap obind is_str negb].
  apply web_scheme_test in W. now rewrite W.
Qed.

End Forms.

(** ** Bodies that are read back *)

Lemma digits_scalar (d : Decimal.uint) :
  forallb scalar (u (NilEmpty.string_of_uint d)) = true.
Proof. induction d; cbn; auto. Qed.

(** The decimal text of an integer can always be encoded. *)
Lemma int_str_encodable (z : Z) : encodable (int_str z) = true.
Proof.
  assert (D : forall d, forallb scalar (u (NilZero.string_of_uint d)) = true).
  { intros d. unfold NilZero.string_of_uint.
    destruct d; try reflexivity; apply digits_scalar. }
  unfold encodable, int_str, NilZero.string_of_int.
  destruct (Z.to_int z) as [d|d]; [apply D|].
  change (scalar (ch "-") && forallb scalar (u (NilZero.string_of_uint d))
          = true).
  now rewrite D.
Qed.

Section Bodies.
Context {lib : PyLib}.

Lemma urlencode_item_shown (k : str) (v : pyval) :
  is_bytes v = false ->
  urlencode_item (k, v) = urlencode_item (k, PStr (py_str v)).
Proof. intros B. destruct v; try reflexivity. discriminate. Qed.

Lemma urlencode_shown (d : dict pyval) :
  Forall (fun kv => is_bytes (snd kv) = false) d ->
  urlencode d = urlencode (str_values (shown d)).
Proof.
  intros H. unfold urlencode. f_equal.
  induction H as [|[k v] d B _ IH]; [reflexivity|].
  change (str_values (shown ((k, v) :: d)))
    with ((k, PStr (py_str v)) :: str_values (shown d)).
  cbn [traverse]. now rewrite IH, (urlencode_item_shown k v B).
Qed.

Lemma shown_keys (d : dict pyval) : dict_keys (shown d) = dict_keys d.
Proof. unfold dict_keys, shown. rewrite map_map. reflexivity. Qed.

Variable net : Network.
Variable self : Markus.

(** A mapping of fields leaves [submit_request] as one request whose body
    reads back as the mapping, each value as its text. *)
Lemma form_request_shown (d : dict pyval) (path request_type : str)
      (t : list Request) :
  web_scheme (parsed_url self) ->
  NoDup (dict_keys d) -> Forall form_field d ->
  exists qs,
    submit_request net self (PDict d) path request_type FORM t
    = send net (request self (PStr qs) path request_type FORM) t
    /\ parse_query qs = Ok (shown d).
Proof.
  intros W Hnd F.
  destruct (urlencode_parse_query (shown d)) as (qs & U & P).
  { now rewrite shown_keys. }
  { unfold shown. apply Forall_map. eapply Forall_impl; [|exact F].
    intros [k v] (A & _ & B). cbn [fst snd]. auto. }
  exists qs. split; [|exact P].
  rewrite submit_request_eq. unfold encoded. cbn [is_none negb].
  change (str_eqb FORM FORM) with true. cbv iota.
  unfold urlencode_any. rewrite urlencode_shown, U.
  - cbn [omap obind is_str negb]. apply web_scheme_test in W. now rewrite W.
  - eapply Forall_impl; [|exact F]. intros kv (_ & B & _). exact B.
Qed.

(** X9.  [new_user] sends one [POST] to [/api/users] whose body reads back as
    the four names, followed by the section and the grace credits exactly
    when they are given; the call returns what the server answers. *)
Theorem new_user_body (user_name user_type first_name last_name : str)
        (section_name grace_credits : option str) (t : list Request) :
  web_scheme (parsed_url self) ->
  Forall (fun kv => encodable (snd kv) = true)
         (new_user_fields user_name user_type first_name last_name
                          section_name grace_credits) ->
  exists qs,
    new_user net self user_name user_type first_name last_name
             section_name grace_credits t
    = send net (request self (PStr qs) (u "/api/users") (u "POST") FORM) t
    /\ parse_query qs
       = Ok (new_user_fields user_name user_type first_name last_name
                             section_name grace_credits).
Proof.
  intros W E. unfold new_user.
  match goal with
  | |- exists qs, submit_request _ _ (PDict ?d) _ _ _ _ = _ /\ _ =>
    assert (S : shown d
                = new_user_fields user_name user_type first_name last_name
                                  section_name grace_credits)
      by (destruct section_name, grace_credits; reflexivity);
    destruct (form_request_shown d (u "/api/users") (u "POST") t W)
      as (qs & R & P)
  end.
  - destruct section_name, grace_credits; cbn;
      repeat constructor; cbn; intuition discriminate.
  - destruct section_name, grace_credits;
      repeat match goal with
      | H : Forall _ (_ :: _) |- _ => inversion H; subst; clear H
      | H : Forall _ (new_user_fields _ _ _ _ _ _) |- _ =>
        unfold new_user_fields in H; cbn [app] in H
      end;
      cbn [dict_set str_eqb]; repeat constructor; cbn [fst snd py_str];
      assumption.
  - exists qs. split; [exact R|]. now rewrite <- S.
Qed.


(** X11.  [update_marks_single_group] on a mapping of criteria to marks sends
    one [PUT] to the group's [update_marks] whose body reads back as the
    mapping, in its order, each mark as the text [str] gives it: a number
    in decimal, [nil] for the text [nil]. *)
Theorem marks_body (criteria_mark_map : dict pyval)
        (assignment_id group_id : Z) (t : list Request) :
  web_scheme (parsed_url self) ->
  NoDup (dict_keys criteria_mark_map) ->
  Forall form_field criteria_mark_map ->
  exists qs,
    update_marks_single_group net self (PDict criteria_mark_map)
                              assignment_id group_id t
    = send net
           (request self (PStr qs)
                    (group_path assignment_id group_id "update_marks")
                    (u "PUT") FORM) t
    /\ parse_query qs = Ok (shown criteria_mark_map)
    /\ (forall criterion,
           dict_get (shown criteria_mark_map) criterion
           = option_map py_str (dict_get criteria_mark_map criterion)).
Proof.
  intros W Hnd F. unfold update_marks_single_group.
  destruct (form_request_shown criteria_mark_map
              (group_path assignment_id group_id "update_marks") (u "PUT") t
              W Hnd F) as (qs & R & P).
  exists qs. split; [exact R|]. split; [exact P|].
  intros criterion. clear.
  induction criteria_mark_map as [|[k v] d IH]; [reflexivity|].
  cbn [shown List.map dict_get fst snd].
  destruct (str_eqb k criterion); [reflexivity | exact IH].
Qed.

(** X12.  [update_marking_state] sends one [PUT] to the group's
    [update_marking_state] whose body reads back as the state alone. *)
Theorem marking_state_body (assignment_id group_id : Z)
        (new_marking_state : str) (t : list Request) :
  web_scheme (parsed_url self) ->
  encodable new_marking_state = true ->
  exists qs,
    update_marking_state net self assignment_id group_id new_marking_state t
    = send net
           (request self (PStr qs)
                    (group_path assignment_id group_id "update_marking_state")
                    (u "PUT") FORM) t
    /\ parse_query qs = Ok [(u "marking_state", new_marking_state)].
Proof.
  intros W E. unfold update_marking_state.
  apply (form_request_shown [(u "marking_state", PStr new_marking_state)]);
    [exact W | |].
  - repeat constructor; cbn; intuition discriminate.
  - repeat constructor; assumption.
Qed.

(** X13.  An upload of text that does not overwrite sends no listing: its one
    request is a [POST] to the collection of feedback files whose body
    reads back as the title, the contents and the mime type given or
    guessed. *)
Theorem text_upload_body (assignment_id group_id : Z) (title contents : str)
        (mime_type : option str) (m : str) (t : list Request) :
  web_scheme (parsed_url self) ->
  resolved_mime mime_type title = Some m ->
  encodable title = true -> encodable contents = true ->
  encodable m = true ->
  exists qs,
    upload_feedback_file net self assignment_id group_id title (PStr contents)
                         mime_type false t
    = send net
           (request self (PStr qs)
                    (feedback_files_path assignment_id group_id)
                    (u "POST") FORM) t
    /\ parse_query qs = Ok (upload_fields title contents m).
Proof.
  intros W M Et Ec Em.
  destruct (urlencode_parse_query (upload_fields title contents m))
    as (qs & U & P).
  { repeat constructor; cbn; intuition discriminate. }
  { repeat constructor; assumption. }
  exists qs. split; [|exact P].
  rewrite upload_unfold. unfold bind at 1. cbn [ret]. rewrite M.
  unfold upload_target. cbn [py_truth fst snd].
  now apply text_upload_sent.
Qed.

End Bodies.

Lemma new_user_body_witness :
  exists qs,
    new_user (lib := Sample.lib) Demo.failing Demo.self
             (u "c9doe") (u "Student") (u "Jane") (u "Doe & Co")
             None (Some (u "3")) []
    = send Demo.failing
           (request Demo.self (PStr qs) (u "/api/users") (u "POST") FORM) []
    /\ parse_query qs
       = Ok (new_user_fields (u "c9doe") (u "Student") (u "Jane")
                             (u "Doe & Co") None (Some (u "3"))).
Proof.
  apply (new_user_body (lib := Sample.lib) Demo.failing Demo.self
           (u "c9doe") (u "Student") (u "Jane") (u "Doe & Co")
           None (Some (u "3")) []).
  - right. reflexivity.
  - repeat constructor.
Defined.


Lemma marks_body_witness :
  exists qs,
    update_marks_single_group (lib := Sample.lib) Demo.failing Demo.self
      (PDict [(u "Style & layout", PInt 3); (u "Tests", PStr (u "nil"))])
      5 12 []
    = send Demo.failing
           (request Demo.self (PStr qs)
                    (group_path (lib := Sample.lib) 5 12 "update_marks")
                    (u "PUT") FORM) []
    /\ parse_query qs
       = Ok (shown (lib := Sample.lib)
               [(u "Style & layout", PInt 3); (u "Tests", PStr (u "nil"))])
    /\ (forall criterion,
           dict_get (shown (lib := Sample.lib)
                       [(u "Style & layout", PInt 3);
                        (u "Tests", PStr (u "nil"))]) criterion
           = option_map (py_str (lib := Sample.lib))
               (dict_get [(u "Style & layout", PInt 3);
                          (u "Tests", PStr (u "nil"))] criterion)).
Proof.
  apply (marks_body (lib := Sample.lib) Demo.failing Demo.self
           [(u "Style & layout", PInt 3); (u "Tests", PStr (u "nil"))]
           5 12 []).
  - right. reflexivity.
  - repeat constructor; cbn; intuition discriminate.
  - repeat constructor.
Defined.

Lemma marking_state_body_witness :
  exists qs,
    update_marking_state (lib := Sample.lib) Demo.failing Demo.self
                         5 12 (u "complete") []
    = send Demo.failing
           (request Demo.self (PStr qs)
                    (group_path (lib := Sample.lib) 5 12 "update_marking_state")
                    (u "PUT") FORM) []
    /\ parse_query qs = Ok [(u "marking_state", u "complete")].
Proof.
  apply (marking_state_body (lib := Sample.lib) Demo.failing Demo.self
           5 12 (u "complete") []).
  - right. reflexivity.
  - reflexivity.
Defined.

Lemma text_upload_body_witness :
  exists qs,
    upload_feedback_file (lib := Sample.lib) Demo.failing Demo.self 5 12
                         (u "out.txt") (PStr (u "a=b&c")) None false []
    = send Demo.failing
           (request Demo.self (PStr qs)
                    (feedback_files_path (lib := Sample.lib) 5 12)
                    (u "POST") FORM) []
    /\ parse_query qs
       = Ok (upload_fields (u "out.txt") (u "a=b&c") (u "text/plain")).
Proof.
  apply (text_upload_body (lib := Sample.lib) Demo.failing Demo.self 5 12
           (u "out.txt") (u "a=b&c") None (u "text/plain") []).
  - right. reflexivity.
  - reflexivity.
  - reflexivity.
  - reflexivity.
  - reflexivity.
Defined.

(** ** What an operation does with the answers *)

Lemma trace_last (t new new' : list Request) (w w' : Request) :
  t ++ new ++ [w] = t ++ new' ++ [w'] -> new = new' /\ w = w'.
Proof. intros H. apply app_inv_head in H. now apply app_inj_tail in H. Qed.

Lemma trace_grows (t new : list Request) (w : Request) :
  t = t ++ new ++ [w] -> False.
Proof.
  intros H. rewrite <- (app_nil_r t) in H at 1. apply app_inv_head in H.
  destruct new; discriminate.
Qed.

Lemma get_is_no_write (rq : Request) : is_get rq -> is_write rq -> False.
Proof. unfold is_get, is_write. intros -> [H|H]; discriminate. Qed.

Lemma reads_end_in_no_write {A} (m : io A) (t new : list Request) (w : Request) :
  sends is_get m -> snd (m t) = t ++ new ++ [w] -> is_write w -> False.
Proof.
  intros S E Hw. destruct (S t) as (new' & E' & F). rewrite E' in E.
  apply app_inv_head in E. subst new'. apply Forall_app in F.
  destruct F as [_ F]. inversion F; subst. eauto using get_is_no_write.
Qed.

Section Outcomes.
Context {lib : PyLib}.
Variable net : Network.
Variable self : Markus.

Lemma submit_request_cases (params : pyval) (path request_type content_type : str)
      (t : list Request) :
  (exists e, submit_request net self params path request_type content_type t
             = (Raise e, t))
  \/ (exists body,
         submit_request net self params path request_type content_type t
         = send net (request self body path request_type content_type) t).
Proof.
  rewrite submit_request_eq.
  destruct (encoded params content_type) as [body|e]; [|left; eauto].
  destruct (str_eqb (Url.scheme (parsed_url self)) (u "http")
            || str_eqb (Url.scheme (parsed_url self)) (u "https"));
    [right|left]; eauto.
Qed.

Lemma verbatim_submit (params : pyval) (path request_type content_type : str) :
  verbatim net (submit_request net self params path request_type content_type).
Proof.
  intros t new w E Hw.
  destruct (submit_request_cases params path request_type content_type t)
    as [(e & R)|(body & R)]; rewrite R in *; cbn [snd fst send] in *.
  - now apply trace_grows in E.
  - change (t ++ [request self body path request_type content_type])
      with (t ++ [] ++ [request self body path request_type content_type]) in E.
    apply trace_last in E. destruct E as [<- <-]. now rewrite app_nil_r.
Qed.

Lemma reader_sends_get {A} (decode : Response -> outcome A)
      (params : pyval) (path : str) :
  sends is_get (do response <- submit_request net self params path (u "GET") FORM ;
                lift (decode response)).
Proof.
  apply sends_bind; [|intros; apply sends_lift].
  apply submit_request_sends_to. reflexivity.
Qed.

Lemma listed_id_gets (a g : Z) (title : str) :
  sends is_get (listed_id net self a g title).
Proof. apply listed_id_sends. Qed.

Lemma upload_is_send_upload (a g : Z) (title : str) (contents : pyval)
      (mime_type : option str) (overwrite : bool) (t : list Request) :
  upload_feedback_file net self a g title contents mime_type overwrite t
  = bind (if overwrite then listed_id net self a g title else ret PNone)
         (send_upload net self a g title contents mime_type) t.
Proof. apply upload_unfold. Qed.

Lemma send_upload_cases (a g : Z) (title : str) (contents : pyval)
      (mime_type : option str) (id : pyval) (t : list Request) :
  (exists e, send_upload net self a g title contents mime_type id t
             = (Raise e, t))
  \/ (exists rq, send_upload net self a g title contents mime_type id t
                 = send net rq t).
Proof.
  unfold send_upload. destruct (resolved_mime mime_type title) as [m|];
    [|left; eexists; reflexivity].
  unfold bind, lift.
  destruct (upload_params title contents m) as [[params ct]|e];
    [|left; eexists; reflexivity].
  destruct (submit_request_cases params
              (fst (upload_target a g id)) (snd (upload_target a g id)) ct t)
    as [(e & R)|(body & R)]; rewrite R; eauto.
Qed.

Lemma verbatim_upload (a g : Z) (title : str) (contents : pyval)
      (mime_type : option str) (overwrite : bool) :
  verbatim net (upload_feedback_file net self a g title contents mime_type
                                     overwrite).
Proof.
  intros t new w. rewrite upload_is_send_upload. unfold bind.
  assert (G : forall reads, Forall is_get reads -> reads = new ++ [w] ->
                            is_write w -> False).
  { intros reads F -> Hw. apply Forall_app in F. destruct F as [_ F].
    inversion F; subst. eauto using get_is_no_write. }
  assert (K : forall id reads,
             Forall is_get reads ->
             snd (send_upload net self a g title contents mime_type id
                              (t ++ reads)) = t ++ new ++ [w] ->
             is_write w ->
             fst (send_upload net self a g title contents mime_type id
                              (t ++ reads)) = net (t ++ new) w).
  { intros id reads F E Hw.
    destruct (send_upload_cases a g title contents mime_type id (t ++ reads))
      as [(e & R)|(rq & R)]; rewrite R in *; cbn [snd fst send] in *.
    - apply app_inv_head in E. exfalso. eauto.
    - rewrite <- app_assoc in E. apply trace_last in E.
      destruct E as [<- <-]. reflexivity. }
  destruct overwrite.
  - destruct (listed_id_gets a g title t) as (reads & E1 & F).
    destruct (listed_id net self a g title t) as [[id|e] t1];
      cbn [snd] in E1; subst t1.
    + now apply K.
    + cbn [snd]. intros E Hw. apply app_inv_head in E. exfalso. eauto.
  - cbn [ret]. pose proof (K PNone [] (Forall_nil _)) as K0.
    rewrite app_nil_r in K0. exact K0.
Qed.

(** A reading operation only ever sends [GET]s. *)
Lemma reader_gets (op : operation) :
  is_reader op = true -> sends is_get (call net self op).
Proof.
  destruct op; try discriminate; intros _; cbn [call]; apply sends_io_map;
    apply reader_sends_get.
Qed.

(** X14.  Once an operation has sent its [POST] or [PUT], it is over: what it
    returns is the answer of the server to that request, as it came, and
    what it raises is what the transport raised.  Nothing is decoded,
    checked or sent after a write. *)
Theorem write_answer (op : operation) (t new : list Request) (w : Request) :
  snd (call net self op t) = t ++ new ++ [w] -> is_write w ->
  fst (call net self op t) = omap Triple (net (t ++ new) w).
Proof.
  assert (V : forall m : io Response,
             verbatim net m ->
             snd (io_map Triple m t) = t ++ new ++ [w] -> is_write w ->
             fst (io_map Triple m t) = omap Triple (net (t ++ new) w)).
  { intros m Vm E Hw. unfold io_map, bind, ret in *. specialize (Vm t new w).
    destruct (m t) as [[r|e] t1]; cbn [snd fst] in *;
      rewrite <- (Vm E Hw); reflexivity. }
  destruct (is_reader op) eqn:R.
  - intros E Hw. exfalso.
    exact (reads_end_in_no_write _ t new w (reader_gets op R) E Hw).
  - destruct op; try discriminate; cbn [call]; apply V;
      first [apply verbatim_submit | apply verbatim_upload].
Qed.

End Outcomes.

Lemma write_answer_witness :
  fst (call (lib := Sample.lib) (Demo.net (Demo.one_file "7")) Demo.self
            (UploadFeedbackFile 5 12 (u "out.txt") (PStr (u "ok")) None true)
            [])
  = omap Triple
      (Demo.net (Demo.one_file "7")
         ([] ++ [listing_request (lib := Sample.lib) Demo.self 5 12])
         (request Demo.self (PStr (u "filename=out.txt&file_content=ok&mime_type=text%2Fplain"))
                  (feedback_files_path (lib := Sample.lib) 5 12 ++ u "/7")
                  (u "PUT") FORM)).
Proof.
  apply (write_answer (lib := Sample.lib) (Demo.net (Demo.one_file "7"))
           Demo.self
           (UploadFeedbackFile 5 12 (u "out.txt") (PStr (u "ok")) None true)
           [] [listing_request (lib := Sample.lib) Demo.self 5 12]).
  - reflexivity.
  - right. reflexivity.
Defined.

(** ** The listing step of an upload *)

Section Listing.
Context {lib : PyLib}.
Variable net : Network.
Variable self : Markus.

(** Entries under other names are passed over. *)
Lemma next_feedback_file_id_skip (title : str) (pre rest : list pyval) :
  Forall (other_file title) pre ->
  next_feedback_file_id title (pre ++ rest) = next_feedback_file_id title rest.
Proof.
  induction 1 as [|x pre (ff & -> & N) _ IH]; [reflexivity|].
  cbn [app next_feedback_file_id]. now rewrite N.
Qed.

(** On a client with a web scheme the lookup is the listing request
    followed by the decoding, the iteration and the search. *)
Lemma listed_id_eq (a g : Z) (title : str) (t : list Request) :
  web_scheme (parsed_url self) ->
  listed_id net self a g title t
  = (let? r := net t (listing_request self a g) in
     let? v := decode_json_response r in
     let? entries := py_iter v in
     next_feedback_file_id title entries,
     t ++ [listing_request self a g]).
Proof.
  intros W. apply web_scheme_test in W.
  unfold listed_id, get_feedback_files, bind. rewrite submit_request_eq.
  change (encoded (PDict []) FORM) with (Ok (PStr [])). cbv iota.
  rewrite W. unfold send, lift, listing_request, feedback_files_path.
  destruct (net t _) as [r|e]; cbn [obind]; [|reflexivity].
  destruct (decode_json_response r) as [v|e]; reflexivity.
Qed.

(** X15.  Whatever goes wrong in the listing step of an overwriting upload ends
    the upload with the listing [GET] as its only request: a transport
    failure, a body that is not UTF-8 or not JSON, a value that cannot be
    iterated over ([TypeError]), an entry that is not an object met before
    any entry of that name ([AttributeError]). *)
Theorem upload_listing_errors (a g : Z) (title : str) (contents : pyval)
        (mime_type : option str) (t : list Request) :
  web_scheme (parsed_url self) ->
  (forall e, net t (listing_request self a g) = Raise e ->
             upload_feedback_file net self a g title contents mime_type true t
             = (Raise e, t ++ [listing_request self a g]))
  /\ (forall r e,
         net t (listing_request self a g) = Ok r ->
         decode_json_response r = Raise e ->
         upload_feedback_file net self a g title contents mime_type true t
         = (Raise e, t ++ [listing_request self a g]))
  /\ (forall r v,
         net t (listing_request self a g) = Ok r ->
         decode_json_response r = Ok v ->
         iterable v = false ->
         upload_feedback_file net self a g title contents mime_type true t
         = (Raise TypeError, t ++ [listing_request self a g]))
  /\ (forall r v pre x rest,
         net t (listing_request self a g) = Ok r ->
         decode_json_response r = Ok v ->
         py_iter v = Ok (pre ++ x :: rest) ->
         Forall (other_file title) pre -> is_dict x = false ->
         upload_feedback_file net self a g title contents mime_type true t
         = (Raise AttributeError, t ++ [listing_request self a g])).
Proof.
  intros W.
  assert (U : forall e,
             (let? r := net t (listing_request self a g) in
              let? v := decode_json_response r in
              let? entries := py_iter v in
              next_feedback_file_id title entries) = Raise e ->
             upload_feedback_file net self a g title contents mime_type true t
             = (Raise e, t ++ [listing_request self a g])).
  { intros e E. rewrite upload_is_send_upload. unfold bind.
    now rewrite (listed_id_eq a g title t W), E. }
  split; [|split; [|split]].
  - intros e N. apply U. now rewrite N.
  - intros r e N D. apply U. rewrite N. cbn [obind]. now rewrite D.
  - intros r v N D I. apply U. rewrite N. cbn [obind]. rewrite D. cbn [obind].
    destruct v; try discriminate; reflexivity.
  - intros r v pre x rest N D I F X. apply U. rewrite N. cbn [obind].
    rewrite D. cbn [obind]. rewrite I. cbn [obind].
    rewrite (next_feedback_file_id_skip title pre (x :: rest) F).
    destruct x; try discriminate; reflexivity.
Qed.

(** X16.  The lookup stops at the first entry of that name: an overwriting
    upload goes on with its identifier whatever the entries after it are,
    objects or not; and when the listing holds only entries under other
    names, or nothing, it goes on as the upload that does not overwrite
    does from the start. *)
Theorem upload_after_lookup (a g : Z) (title : str) (contents : pyval)
        (mime_type : option str) (t : list Request) (r : Response)
        (v : pyval) :
  web_scheme (parsed_url self) ->
  net t (listing_request self a g) = Ok r ->
  decode_json_response r = Ok v ->
  (forall pre ff rest,
      py_iter v = Ok (pre ++ PDict ff :: rest) ->
      Forall (other_file title) pre ->
      py_eq_str (py_get ff (u "filename")) title = true ->
      upload_feedback_file net self a g title contents mime_type true t
      = send_upload net self a g title contents mime_type
                    (py_get ff (u "id")) (t ++ [listing_request self a g]))
  /\ (forall pre,
         py_iter v = Ok pre -> Forall (other_file title) pre ->
         upload_feedback_file net self a g title contents mime_type true t
         = send_upload net self a g title contents mime_type PNone
                       (t ++ [listing_request self a g]))
  /\ (forall t0,
         upload_feedback_file net self a g title contents mime_type false t0
         = send_upload net self a g title contents mime_type PNone t0).
Proof.
  intros W N D.
  assert (U : forall id,
             (let? entries := py_iter v in
              next_feedback_file_id title entries) = Ok id ->
             upload_feedback_file net self a g title contents mime_type true t
             = send_upload net self a g title contents mime_type id
                           (t ++ [listing_request self a g])).
  { intros id E. rewrite upload_is_send_upload. unfold bind.
    rewrite (listed_id_eq a g title t W), N. cbn [obind]. rewrite D.
    cbn [obind]. now rewrite E. }
  split; [|split].
  - intros pre ff rest I F M. apply U. rewrite I. cbn [obind].
    rewrite (next_feedback_file_id_skip title pre _ F).
    cbn [next_feedback_file_id]. now rewrite M.
  - intros pre I F. apply U. rewrite I. cbn [obind].
    rewrite <- (app_nil_r pre).
    now rewrite (next_feedback_file_id_skip title pre [] F).
  - intros t0. now rewrite upload_is_send_upload.
Qed.

End Listing.

Lemma upload_listing_errors_witness :
  upload_feedback_file (lib := Sample.lib) (Demo.net (b "null")) Demo.self
                       5 12 (u "out.txt") (PStr (u "ok")) None true []
  = (Raise TypeError, [] ++ [listing_request (lib := Sample.lib) Demo.self 5 12])
  /\ upload_feedback_file (lib := Sample.lib)
       (Demo.net (bq "[{'filename': 'a.txt'}, 7, {'filename': 'out.txt'}]"))
       Demo.self 5 12 (u "out.txt") (PStr (u "ok")) None true []
     = (Raise AttributeError,
        [] ++ [listing_request (lib := Sample.lib) Demo.self 5 12]).
Proof.
  split.
  - destruct (upload_listing_errors (lib := Sample.lib) (Demo.net (b "null"))
                Demo.self 5 12 (u "out.txt") (PStr (u "ok")) None []
                (or_intror eq_refl)) as (_ & _ & H & _).
    apply (H {| status := 200; reason := u "OK"; body := b "null" |} PNone);
      reflexivity.
  - destruct (upload_listing_errors (lib := Sample.lib)
                (Demo.net (bq "[{'filename': 'a.txt'}, 7, {'filename': 'out.txt'}]"))
                Demo.self 5 12 (u "out.txt") (PStr (u "ok")) None []
                (or_intror eq_refl)) as (_ & _ & _ & H).
    apply (H {| status := 200; reason := u "OK";
                body := bq "[{'filename': 'a.txt'}, 7, {'filename': 'out.txt'}]" |}
             (PList [PDict [(u "filename", PStr (u "a.txt"))]; PInt 7;
                     PDict [(u "filename", PStr (u "out.txt"))]])
             [PDict [(u "filename", PStr (u "a.txt"))]] (PInt 7)
             [PDict [(u "filename", PStr (u "out.txt"))]]);
      try reflexivity.
    repeat constructor. eexists. split; reflexivity.
Defined.

Lemma upload_after_lookup_witness :
  upload_feedback_file (lib := Sample.lib)
    (Demo.net (bq "[{'id': 7, 'filename': 'out.txt'}, 3]"))
    Demo.self 5 12 (u "out.txt") (PStr (u "ok")) None true []
  = send_upload (lib := Sample.lib)
      (Demo.net (bq "[{'id': 7, 'filename': 'out.txt'}, 3]"))
      Demo.self 5 12 (u "out.txt") (PStr (u "ok")) None (PInt 7)
      ([] ++ [listing_request (lib := Sample.lib) Demo.self 5 12]).
Proof.
  destruct (upload_after_lookup (lib := Sample.lib)
              (Demo.net (bq "[{'id': 7, 'filename': 'out.txt'}, 3]"))
              Demo.self 5 12 (u "out.txt") (PStr (u "ok")) None []
              {| status := 200; reason := u "OK";
                 body := bq "[{'id': 7, 'filename': 'out.txt'}, 3]" |}
              (PList [PDict [(u "id", PInt 7); (u "filename", PStr (u "out.txt"))];
                      PInt 3])
              (or_intror eq_refl) eq_refl eq_refl) as (H & _ & _).
  apply (H [] [(u "id", PInt 7); (u "filename", PStr (u "out.txt"))] [PInt 3]);
    try reflexivity.
  constructor.
Defined.

(** ** Addresses, text and parameters *)

Lemma str_join_snoc (sep : str) (l : list str) (x y : str) :
  str_join sep (l ++ [x]) ++ sep ++ y = str_join sep (l ++ [x; y]).
Proof.
  induction l as [|a l IH]; [reflexivity|].
  destruct l as [|a' l].
  - cbn [app str_join]. now rewrite <- !app_assoc.
  - change (str_join sep ((a :: a' :: l) ++ [x]))
      with (a ++ sep ++ str_join sep ((a' :: l) ++ [x])).
    change (str_join sep ((a :: a' :: l) ++ [x; y]))
      with (a ++ sep ++ str_join sep ((a' :: l) ++ [x; y])).
    rewrite <- IH. now rewrite <- !app_assoc.
Qed.

Section Addresses.
Context {lib : PyLib}.

Lemma segments_app (a b : dict pyval) :
  segments (a ++ b) = segments a ++ segments b.
Proof. unfold segments. now rewrite flat_map_app, filter_app, map_app. Qed.

Lemma get_path_segments (kwargs : dict pyval) :
  get_path kwargs = API_PATH ++ u "/" ++ str_join (u "/") (segments kwargs).
Proof. reflexivity. Qed.

Variable net : Network.
Variable self : Markus.

(** X17.  The address of an item is the address of its collection, a slash and
    the identifier: extending by hand the path built for a collection, as
    the upload does for the file it replaces, gives the path built for the
    item.  So an upload that replaces the file [i] writes to the address
    [get_feedback_file] reads [i] from, less the [.json]. *)
Theorem item_address :
  (forall kwargs name id,
      is_none id = false ->
      get_path (kwargs ++ [(name, PNone)]) ++ u "/" ++ py_str id
      = get_path (kwargs ++ [(name, id)]))
  /\ (forall a g i,
         i <> 0%Z ->
         snd (upload_target a g (PInt i)) = u "PUT"
         /\ sends (fun rq => is_get rq
                             /\ url rq = Url.path (parsed_url self)
                                         ++ fst (upload_target a g (PInt i))
                                         ++ u ".json")
                  (get_feedback_file net self a g i)).
Proof.
  assert (P : forall kwargs name id,
             is_none id = false ->
             get_path (kwargs ++ [(name, PNone)]) ++ u "/" ++ py_str id
             = get_path (kwargs ++ [(name, id)])).
  { intros kwargs name id N. rewrite !get_path_segments, !segments_app.
    rewrite !segments_cons. rewrite N. cbn [is_none app].
    change (segments []) with (@nil str).
    rewrite <- !app_assoc. do 2 f_equal. apply str_join_snoc. }
  split; [exact P|].
  intros a g i Hi.
  assert (T : py_truth (PInt i) = true).
  { cbn [py_truth]. apply negb_true_iff, Z.eqb_neq, Hi. }
  unfold upload_target. rewrite T. cbn [fst snd]. split; [reflexivity|].
  unfold get_feedback_file.
  apply sends_bind; [|intros; apply sends_lift].
  apply submit_request_sends_to. intros body. split; [reflexivity|].
  cbn [url request]. f_equal. f_equal. unfold feedback_files_path.
  symmetry.
  apply (P [(u "assignments", PInt a); (u "groups", PInt g)]
           (u "feedback_files") (PInt i)).
  reflexivity.
Qed.

Lemma text_read (rq : Request) (t : list Request) (r : Response) :
  net t rq = Ok r ->
  (forall s, fst (bind (send net rq) (fun response =>
                          lift (decode_text_response response)) t) = Ok s
             <-> utf8_encode s = Some (body r))
  /\ ((forall s, utf8_encode s <> Some (body r)) ->
      fst (bind (send net rq) (fun response =>
                   lift (decode_text_response response)) t)
      = Raise UnicodeDecodeError).
Proof.
  intros N. unfold bind, send, lift. rewrite N. cbn [fst].
  unfold decode_text_response, bytes_decode. split.
  - intros s. rewrite <- utf8_decode_iff.
    destruct (utf8_decode (body r)) as [s'|]; cbn [of_option]; split;
      intros H; try discriminate; congruence.
  - intros H. destruct (utf8_decode (body r)) as [s|] eqn:D; [|reflexivity].
    apply utf8_decode_iff in D. now apply H in D.
Qed.

(** X18.  The two operations that read text send one [GET] and return the body
    of the answer as text, whatever its status: they return [s] exactly
    when the body is the UTF-8 encoding of [s], and a body that is the
    encoding of no text, as that of a binary feedback file may be, raises
    [UnicodeDecodeError]. *)
Theorem text_reads (t : list Request) :
  web_scheme (parsed_url self) ->
  (forall a g f r,
      net t (file_request self a g f) = Ok r ->
      snd (get_feedback_file net self a g f t) = t ++ [file_request self a g f]
      /\ (forall s, fst (get_feedback_file net self a g f t) = Ok s
                    <-> utf8_encode s = Some (body r))
      /\ ((forall s, utf8_encode s <> Some (body r)) ->
          fst (get_feedback_file net self a g f t) = Raise UnicodeDecodeError))
  /\ (forall i r,
         net t (spreadsheet_request self i) = Ok r ->
         snd (get_marks_spreadsheet net self i t)
         = t ++ [spreadsheet_request self i]
         /\ (forall s, fst (get_marks_spreadsheet net self i t) = Ok s
                       <-> utf8_encode s = Some (body r))
         /\ ((forall s, utf8_encode s <> Some (body r)) ->
             fst (get_marks_spreadsheet net self i t)
             = Raise UnicodeDecodeError)).
Proof.
  intros W. apply web_scheme_test in W.
  assert (R : forall path,
             (do response <- submit_request net self (PDict []) path (u "GET") FORM ;
              lift (decode_text_response response)) t
             = bind (send net (request self (PStr []) path (u "GET") FORM))
                    (fun response => lift (decode_text_response response)) t).
  { intros path. unfold bind. rewrite submit_request_eq.
    change (encoded (PDict []) FORM) with (Ok (PStr [])). cbv iota.
    now rewrite W. }
  split.
  - intros a g f r N. unfold get_feedback_file. rewrite R.
    fold (file_request self a g f). split.
    + unfold bind, send, lift. rewrite N. reflexivity.
    + now apply text_read.
  - intros i r N. unfold get_marks_spreadsheet. rewrite R.
    fold (spreadsheet_request self i). split.
    + unfold bind, send, lift. rewrite N. reflexivity.
    + now apply text_read.
Qed.

(** X19.  Parameters that are already text: [submit_request] refuses them as a
    form ([urlencode] raises [TypeError] and nothing is sent), writes them
    once more as a JSON string when the content type is
    [application/json], and sends them as they are under any other
    content type. *)
Theorem text_params (s : str) (path request_type content_type : str)
        (t : list Request) :
  web_scheme (parsed_url self) -> s <> [] ->
  (content_type = FORM ->
   submit_request net self (PStr s) path request_type content_type t
   = (Raise TypeError, t))
  /\ (content_type = JSON ->
      submit_request net self (PStr s) path request_type content_type t
      = send net (request self (PStr (encode_basestring_ascii s)) path
                          request_type content_type) t)
  /\ (content_type <> FORM -> content_type <> JSON ->
      submit_request net self (PStr s) path request_type content_type t
      = send net (request self (PStr s) path request_type content_type) t).
Proof.
  intros W S. apply web_scheme_test in W.
  rewrite submit_request_eq. unfold encoded. cbn [is_none negb].
  split; [|split].
  - intros ->. change (str_eqb FORM FORM) with true. cbv iota.
    destruct s; [contradiction|]. reflexivity.
  - intros ->. change (str_eqb JSON FORM) with false.
    change (str_eqb JSON MULTIPART) with false.
    change (str_eqb JSON JSON) with true. cbv iota.
    cbn [json_dumps omap obind is_str negb]. now rewrite W.
  - intros F J. apply str_eqb_neq in F. apply str_eqb_neq in J.
    rewrite F, J. destruct (str_eqb content_type MULTIPART);
      cbn [obind is_str negb]; now rewrite W.
Qed.

(** X20.  Which operation sends what: a reading operation sends only [GET]s; a
    writing operation that does not list first sends only a [POST] or a
    [PUT]. *)
Theorem method_of_operation (op : operation) :
  (is_reader op = true -> sends is_get (call net self op))
  /\ (is_reader op = false -> lists_first op = false ->
      sends is_write (call net self op)).
Proof.
  split.
  - destruct op; try discriminate; intros _; cbn [call]; apply sends_io_map;
      apply reader_sends_get.
  - destruct op; try discriminate; intros _ L; cbn [call];
      apply sends_io_map;
      try (apply submit_request_sends_to; intros body;
           first [now left | now right]).
    destruct overwrite; [discriminate|].
    intros t. rewrite upload_is_send_upload. revert t.
    apply sends_bind; [apply sends_ret|]. intros id. unfold send_upload.
    destruct (resolved_mime mime_type title) as [m|]; [|apply sends_throw].
    apply sends_bind_lift. intros [params ct] _.
    apply submit_request_sends_to. intros body. unfold upload_target.
    destruct (py_truth id); [now right | now left].
Qed.

End Addresses.

Lemma text_reads_witness :
  fst (get_feedback_file (lib := Sample.lib) (Demo.net [xff; xfe]) Demo.self
                         5 12 7 [])
  = Raise UnicodeDecodeError.
Proof.
  destruct (text_reads (lib := Sample.lib) (Demo.net [xff; xfe]) Demo.self []
              (or_intror eq_refl)) as (H & _).
  destruct (H 5%Z 12%Z 7%Z {| status := 200; reason := u "OK";
                              body := [xff; xfe] |} eq_refl) as (_ & _ & U).
  apply U. intros s E. apply utf8_decode_iff in E. discriminate.
Defined.

Lemma text_params_witness :
  submit_request (lib := Sample.lib) Demo.failing Demo.self
                 (PStr (q "{'a': 1}")) (u "/api/x") (u "POST") JSON []
  = send Demo.failing
         (request Demo.self (PStr (encode_basestring_ascii (q "{'a': 1}")))
                  (u "/api/x") (u "POST") JSON) [].
Proof.
  destruct (text_params (lib := Sample.lib) Demo.failing Demo.self
              (q "{'a': 1}") (u "/api/x") (u "POST") JSON []
              (or_intror eq_refl)) as (_ & H & _).
  - discriminate.
  - apply H. reflexivity.
Defined.

(** ** JSON bodies that are read back *)

(** *** Integers *)

Lemma uint_digits (d : Decimal.uint) :
  forallb is_digit (u (NilEmpty.string_of_uint d)) = true.
Proof. induction d; cbn; auto. Qed.

Lemma span_digits_all (ds rest : str) :
  forallb is_digit ds = true ->
  match rest with [] => True | c :: _ => is_digit c = false end ->
  span_digits (ds ++ rest) = (ds, rest).
Proof.
  intros D R. induction ds as [|c ds IH].
  - destruct rest as [|c rest]; [reflexivity|]. cbn [app span_digits].
    now rewrite R.
  - cbn [forallb] in D. apply andb_prop in D. destruct D as [Dc Dr].
    cbn [app span_digits]. now rewrite Dc, (IH Dr).
Qed.

Lemma digits_value_acc (d : Decimal.uint) (acc : positive) :
  fold_left (fun a c => (10 * a + Z.of_N (c - 0x30))%Z)
            (u (NilEmpty.string_of_uint d)) (Z.pos acc)
  = Z.pos (Pos.of_uint_acc d acc).
Proof.
  revert acc. induction d; intros acc; [reflexivity| ..];
    cbn [NilEmpty.string_of_uint Pos.of_uint_acc];
    change (u (String ?a ?s)) with (N_of_ascii a :: u s);
    cbn [fold_left]; rewrite <- IHd; f_equal;
    match goal with
    | |- context [Z.of_N ?x] =>
      let v := eval vm_compute in (Z.of_N x) in change (Z.of_N x) with v
    end; lia.
Qed.

Lemma digits_value_uint (d : Decimal.uint) :
  digits_value (u (NilEmpty.string_of_uint d)) = Z.of_N (Pos.of_uint d).
Proof.
  unfold digits_value. induction d; [reflexivity| ..];
    cbn [NilEmpty.string_of_uint Pos.of_uint];
    change (u (String ?a ?s)) with (N_of_ascii a :: u s);
    cbn [fold_left]; [exact IHd| ..];
    change (Z.of_N (N.pos ?p)) with (Z.pos p);
    match goal with
    | |- context [Pos.of_uint_acc _ ?p] =>
      rewrite <- (digits_value_acc d p); reflexivity
    end.
Qed.

Lemma unorm_zero (d d' : Decimal.uint) :
  Decimal.unorm d = Decimal.D0 d' -> d' = Decimal.Nil.
Proof.
  induction d; cbn; intros H; try discriminate; auto; congruence.
Qed.

(** The decimal text of a positive number: digits, the first of them not
    a zero, whose value is the number. *)
Lemma pos_decimal (p : positive) :
  exists c ds,
    u (NilZero.string_of_uint (Pos.to_uint p)) = c :: ds
    /\ is_digit c = true /\ c <> ch "0" /\ forallb is_digit ds = true
    /\ digits_value (c :: ds) = Z.pos p.
Proof.
  pose proof (DecimalPos.Unsigned.of_to p) as V.
  pose proof (DecimalPos.Unsigned.to_of (Pos.to_uint p)) as N.
  rewrite V in N. cbn [N.to_uint] in N.
  pose proof (DecimalPos.Unsigned.to_uint_nonzero p) as Z.
  pose proof (uint_digits (Pos.to_uint p)) as D.
  pose proof (digits_value_uint (Pos.to_uint p)) as E. rewrite V in E.
  unfold NilZero.string_of_uint.
  destruct (Pos.to_uint p) as [|d|d|d|d|d|d|d|d|d|d] eqn:T;
    [discriminate V| ..];
    cbn [NilEmpty.string_of_uint] in *;
    change (u (String ?a ?s)) with (N_of_ascii a :: u s) in *;
    [exfalso; symmetry in N; apply unorm_zero in N; subst d; now apply Z| ..];
    (eexists; eexists; split; [reflexivity|]);
    cbn [forallb] in D; apply andb_prop in D; destruct D as [_ D];
    repeat split; auto; discriminate.
Qed.

Lemma scan_number_digits (c : codepoint) (ds rest : str) (neg : bool) :
  is_digit c = true -> c <> ch "0" -> forallb is_digit ds = true ->
  delimited rest ->
  scan_number ((if neg then u "-" else []) ++ c :: ds ++ rest)
  = Some (PInt (if neg then - digits_value (c :: ds)
                else digits_value (c :: ds))%Z, rest).
Proof.
  intros Dc Nz Dd R.
  assert (M : c <> ch "-").
  { intros ->. discriminate. }
  assert (I : scan_integer ((if neg then u "-" else []) ++ c :: ds ++ rest)
              = Some (neg, c :: ds, rest)).
  { unfold scan_integer.
    apply N.eqb_neq in Nz. apply N.eqb_neq in M.
    assert (S : span_digits (ds ++ rest) = (ds, rest)).
    { apply span_digits_all; [exact Dd|].
      destruct rest as [|c0 rest]; [exact I|].
      destruct R as [-> | [-> | ->]]; reflexivity. }
    destruct neg; cbn [app u list_ascii_of_string List.map].
    - change (N_of_ascii "-" =? ch "-") with true. cbv iota.
      now rewrite Nz, Dc, S.
    - now rewrite M, Nz, Dc, S. }
  unfold scan_number. rewrite I.
  destruct rest as [|c0 rest]; [reflexivity|].
  destruct R as [-> | [-> | ->]]; reflexivity.
Qed.

Lemma scan_number_int (z : Z) (rest : str) :
  delimited rest -> scan_number (int_str z ++ rest) = Some (PInt z, rest).
Proof.
  intros R. unfold int_str, Z.to_int, NilZero.string_of_int.
  destruct z as [|p|p].
  - cbn [NilZero.string_of_uint u list_ascii_of_string List.map app].
    destruct rest as [|c0 rest]; [reflexivity|].
    destruct R as [-> | [-> | ->]]; reflexivity.
  - destruct (pos_decimal p) as (c & ds & E & Dc & Nz & Dd & V).
    rewrite E.
    change ((c :: ds) ++ rest) with ((if false then u "-" else []) ++ c :: ds ++ rest).
    rewrite scan_number_digits by assumption. now rewrite V.
  - destruct (pos_decimal p) as (c & ds & E & Dc & Nz & Dd & V).
    change (u (String "-" ?s)) with (ch "-" :: u s). rewrite E.
    change ((ch "-" :: c :: ds) ++ rest)
      with ((if true then u "-" else []) ++ c :: ds ++ rest).
    rewrite scan_number_digits by assumption. now rewrite V.
Qed.

(** The first character of the decimal text of an integer is a digit or a
    minus sign. *)
Lemma int_str_head (z : Z) :
  exists c r, int_str z = c :: r /\ (is_digit c = true \/ c = ch "-").
Proof.
  unfold int_str, Z.to_int, NilZero.string_of_int. destruct z as [|p|p].
  - eexists; eexists; split; [reflexivity|]. now left.
  - destruct (pos_decimal p) as (c & ds & E & Dc & _). rewrite E. eauto.
  - change (u (String "-" ?s)) with (ch "-" :: u s). eauto.
Qed.

(** A text that opens with a digit or a minus sign is scanned as a
    number. *)
Lemma scan_once_number (n : nat) (c : codepoint) (r : str) :
  is_digit c = true \/ c = ch "-" ->
  scan_once (S n) (c :: r)
  = match scan_number (c :: r) with
    | Some (v, rest) => Scanned v rest
    | None =>
      if c =? ch "-"
      then scan_word (u "-Infinity") (PFloat (u "-Infinity")) (c :: r)
      else Invalid
    end.
Proof.
  intros H.
  assert (E : forall x, x <> c -> (c =? x) = false).
  { intros x Hx. apply N.eqb_neq. congruence. }
  cbn [scan_once].
  rewrite (E dquote), (E (ch "{")), (E (ch "[")), (E (ch "n")), (E (ch "t")),
    (E (ch "f")), (E (ch "N")), (E (ch "I"));
    [reflexivity| ..]; intros <-;
    destruct H as [H|H]; vm_compute in H; discriminate H.
Qed.

Lemma int_reads_as (z : Z) : reads_as (int_str z) (PInt z).
Proof.
  intros rest R. exists 1%nat. intros m Hm.
  destruct m as [|m]; [lia|].
  destruct (int_str_head z) as (c & r & E & H).
  pose proof (scan_number_int z rest R) as S. rewrite E in *.
  cbn [app] in *. now rewrite (scan_once_number m c (r ++ rest) H), S.
Qed.

(** *** Text *)

Lemma hex_of_cp_lower (d : N) :
  d < 16 -> hex_of_cp (hex_digit_lower d) = Some d.
Proof.
  intros H. destruct d as [|p]; [reflexivity|].
  do 4 (destruct p as [p|p|]; try reflexivity; try lia).
Qed.

Lemma hex4_escape (n : N) :
  n < 65536 ->
  exists h1 h2 h3 h4,
    escape_u n = [ch "\"; ch "u"; h1; h2; h3; h4]
    /\ hex4 h1 h2 h3 h4 = Some n.
Proof.
  intros H. unfold escape_u. do 4 eexists. split; [reflexivity|].
  unfold hex4.
  assert (A : n / 4096 < 16) by divlia.
  assert (B : (n / 256) mod 16 < 16) by divlia.
  assert (C : (n / 16) mod 16 < 16) by divlia.
  assert (D : n mod 16 < 16) by divlia.
  rewrite !hex_of_cp_lower by assumption. f_equal. clear A B C D. divlia.
Qed.

Lemma scanstring_unicode (h1 h2 h3 h4 : codepoint) (r : str) :
  scanstring (ch "\" :: ch "u" :: h1 :: h2 :: h3 :: h4 :: r)
  = match hex4 h1 h2 h3 h4 with
    | None => None
    | Some uni =>
      match r with
      | bs :: uu :: k1 :: k2 :: k3 :: k4 :: r3 =>
        match surrogate_pair uni bs uu k1 k2 k3 k4 with
        | Some cp => push cp (scanstring r3)
        | None => push uni (scanstring r)
        end
      | _ => push uni (scanstring r)
      end
    end.
Proof. reflexivity. Qed.

(** What [json.dumps] writes for one character of a text that holds no
    lone surrogate is read back as that character. *)
Lemma scanstring_escape (c : codepoint) (r : str) :
  scalar c = true ->
  scanstring (escape_char c ++ r) = push c (scanstring r).
Proof.
  intros S. apply scalar_spec in S. destruct S as [S S'].
  unfold escape_char.
  destruct (N.eqb_spec c dquote) as [->|N1]; [reflexivity|].
  destruct (N.eqb_spec c (ch "\")) as [->|N2]; [reflexivity|].
  destruct (N.eqb_spec c 0x0A) as [->|N3]; [reflexivity|].
  destruct (N.eqb_spec c 0x0D) as [->|N4]; [reflexivity|].
  destruct (N.eqb_spec c 0x09) as [->|N5]; [reflexivity|].
  destruct (N.eqb_spec c 0x08) as [->|N6]; [reflexivity|].
  destruct (N.eqb_spec c 0x0C) as [->|N7]; [reflexivity|].
  destruct ((0x20 <=? c) && (c <=? 0x7E)) eqn:P.
  - apply andb_prop in P. destruct P as [P _]. apply N.leb_le in P.
    cbn [app scanstring].
    apply N.eqb_neq in N1. apply N.eqb_neq in N2. rewrite N1, N2.
    destruct (N.ltb_spec c 0x20); [lia | reflexivity].
  - destruct (N.ltb_spec c 0x10000) as [L|L].
    + destruct (hex4_escape c L) as (h1 & h2 & h3 & h4 & E & H).
      rewrite E. cbn [app]. rewrite scanstring_unicode, H.
      assert (SP : forall bs uu k1 k2 k3 k4,
                 surrogate_pair c bs uu k1 k2 k3 k4 = None).
      { intros. unfold surrogate_pair.
        destruct (N.leb_spec 0xD800 c); [|reflexivity].
        destruct (N.leb_spec c 0xDBFF); [lia | reflexivity]. }
      destruct r as [|bs [|uu [|k1 [|k2 [|k3 [|k4 r3]]]]]]; try reflexivity.
      now rewrite SP.
    + set (hi := 0xD800 + (c - 0x10000) / 1024).
      set (lo := 0xDC00 + (c - 0x10000) mod 1024).
      assert (Hhi : 0xD800 <= hi <= 0xDBFF) by (subst hi; divlia).
      assert (Hlo : 0xDC00 <= lo <= 0xDFFF) by (subst lo; divlia).
      assert (V : 0x10000 + ((hi - 0xD800) * 1024 + (lo - 0xDC00)) = c)
        by (subst hi lo; divlia).
      destruct (hex4_escape hi) as (h1 & h2 & h3 & h4 & E1 & H1); [lia|].
      destruct (hex4_escape lo) as (l1 & l2 & l3 & l4 & E2 & H2); [lia|].
      rewrite E1, E2. cbn [app]. rewrite scanstring_unicode, H1.
      unfold surrogate_pair. rewrite H2.
      destruct (N.leb_spec 0xD800 hi); [|lia].
      destruct (N.leb_spec hi 0xDBFF); [|lia].
      destruct (N.leb_spec 0xDC00 lo); [|lia].
      destruct (N.leb_spec lo 0xDFFF); [|lia].
      rewrite !N.eqb_refl. cbn [andb]. now rewrite V.
Qed.

Lemma scanstring_dumps (s rest : str) :
  encodable s = true ->
  scanstring (flat_map escape_char s ++ dquote :: rest) = Some (s, rest).
Proof.
  unfold encodable. induction s as [|c s IH]; intros E.
  - cbn [flat_map app scanstring]. now rewrite N.eqb_refl.
  - cbn [forallb] in E. apply andb_prop in E. destruct E as [Ec Es].
    cbn [flat_map]. rewrite <- app_assoc, (scanstring_escape c _ Ec).
    now rewrite (IH Es).
Qed.

Lemma scan_once_string (n : nat) (s rest : str) :
  encodable s = true ->
  scan_once (S n) (encode_basestring_ascii s ++ rest) = Scanned (PStr s) rest.
Proof.
  intros E. unfold encode_basestring_ascii.
  cbn [app scan_once]. rewrite N.eqb_refl.
  rewrite <- app_assoc. cbn [app]. now rewrite scanstring_dumps.
Qed.

(** *** Fuel *)

(** A scan that did not run out of fuel gives the same with more. *)
Lemma scan_more (fuel : nat) :
  (forall s, scan_once fuel s <> Exhausted ->
             scan_once (S fuel) s = scan_once fuel s)
  /\ (forall s acc, scan_members fuel s acc <> Exhausted ->
                    scan_members (S fuel) s acc = scan_members fuel s acc)
  /\ (forall s acc, scan_elements fuel s acc <> Exhausted ->
                    scan_elements (S fuel) s acc = scan_elements fuel s acc).
Proof.
  induction fuel as [|fuel (IHo & IHm & IHe)];
    [repeat split; intros; now contradiction H|].
  repeat split.
  - intros s H. cbn [scan_once] in H |- *.
    destruct s as [|c s]; [reflexivity|].
    destruct (c =? dquote); [reflexivity|].
    destruct (c =? ch "{").
    { destruct (skip_ws s) as [|c1 r1]; [reflexivity|].
      destruct (c1 =? ch "}"); [reflexivity|]. now apply IHm. }
    destruct (c =? ch "[").
    { destruct (skip_ws s) as [|c1 r1]; [reflexivity|].
      destruct (c1 =? ch "]"); [reflexivity|]. now apply IHe. }
    reflexivity.
  - intros s acc H. cbn [scan_members] in H |- *.
    destruct s as [|c s]; [reflexivity|].
    destruct (c =? dquote); [|reflexivity].
    destruct (scanstring s) as [[key r1]|]; [|reflexivity].
    destruct (skip_ws r1) as [|c1 r2]; [reflexivity|].
    destruct (c1 =? ch ":"); [|reflexivity].
    destruct (scan_once fuel (skip_ws r2)) as [w r3| |] eqn:E3.
    + rewrite (IHo (skip_ws r2)) by (rewrite E3; discriminate). rewrite E3.
      destruct (skip_ws r3) as [|c2 r4]; [reflexivity|].
      destruct (c2 =? ch "}"); [reflexivity|].
      destruct (c2 =? ch ","); [|reflexivity]. now apply IHm.
    + rewrite (IHo (skip_ws r2)) by (rewrite E3; discriminate).
      now rewrite E3.
    + now contradiction H.
  - intros s acc H. cbn [scan_elements] in H |- *.
    destruct (scan_once fuel s) as [w r1| |] eqn:E1.
    + rewrite (IHo s) by (rewrite E1; discriminate). rewrite E1.
      destruct (skip_ws r1) as [|c r2]; [reflexivity|].
      destruct (c =? ch "]"); [reflexivity|].
      destruct (c =? ch ","); [|reflexivity]. now apply IHe.
    + rewrite (IHo s) by (rewrite E1; discriminate). now rewrite E1.
    + now contradiction H.
Qed.

Lemma scan_once_more (m n : nat) (s : str) :
  (m <= n)%nat -> scan_once m s <> Exhausted -> scan_once n s = scan_once m s.
Proof.
  induction 1 as [|n L IH]; [reflexivity|]. intros H.
  rewrite <- (IH H). apply (proj1 (scan_more n)). now rewrite (IH H).
Qed.

(** *** Values *)

Lemma skip_ws_opens (x : str) : opens x -> skip_ws x = x.
Proof. intros (c & x' & -> & W & _). cbn [skip_ws]. now rewrite W. Qed.

Lemma skip_ws_blank (x : str) : opens x -> skip_ws (ch " " :: x) = x.
Proof. intros O. change (skip_ws (ch " " :: x)) with (skip_ws x).
       now apply skip_ws_opens. Qed.

Lemma opens_app (x y : str) : opens x -> opens (x ++ y).
Proof. intros (c & x' & -> & O). exists c, (x' ++ y). auto. Qed.

Lemma opens_join (sep x : str) (parts : list str) :
  opens x -> opens (str_join sep (x :: parts)).
Proof.
  intros O. destruct parts as [|y parts]; [exact O|].
  change (str_join sep (x :: y :: parts))
    with (x ++ sep ++ str_join sep (y :: parts)).
  now apply opens_app.
Qed.

Lemma opens_char (c : codepoint) (x : str) :
  is_ws c = false -> c <> ch "]" -> c <> ch "}" -> opens (c :: x).
Proof. intros. exists c, x. repeat split; assumption. Qed.

Lemma digit_opens (c : codepoint) (x : str) :
  is_digit c = true \/ c = ch "-" -> opens (c :: x).
Proof.
  intros H.
  assert (R : 0x30 <= c <= 0x39 \/ c = ch "-").
  { destruct H as [H|H]; [left|now right]. unfold is_digit in H.
    apply andb_prop in H. destruct H as [A B].
    apply N.leb_le in A. apply N.leb_le in B. lia. }
  change (ch "-") with 0x2D in R.
  apply opens_char.
  - unfold is_ws.
    destruct (N.eqb_spec c 0x20), (N.eqb_spec c 0x09), (N.eqb_spec c 0x0A),
      (N.eqb_spec c 0x0D); try reflexivity; lia.
  - change (ch "]") with 0x5D. lia.
  - change (ch "}") with 0x7D. lia.
Qed.

Lemma delimited_bracket (rest : str) : delimited (ch "]" :: rest).
Proof. cbn. auto. Qed.

Lemma delimited_brace (rest : str) : delimited (ch "}" :: rest).
Proof. cbn. auto. Qed.

Lemma delimited_comma (rest : str) : delimited (ch "," :: rest).
Proof. cbn. auto. Qed.

(** The elements of a list, written one after the other, are read back in
    their order. *)
Lemma scan_elements_parts (items : list pyval) (parts : list str) :
  Forall2 (fun v x => reads_as x v /\ opens x) items parts ->
  items <> [] ->
  forall acc rest,
  exists n, forall m, (n <= m)%nat ->
    scan_elements m (str_join (u ", ") parts ++ ch "]" :: rest) acc
    = Scanned (PList (rev acc ++ items)) rest.
Proof.
  induction 1 as [|v x items parts [Rv Ox] F IH]; [contradiction|].
  intros _ acc rest. destruct F as [|v' x' items' parts' [Rv' Ox'] F].
  - destruct (Rv (ch "]" :: rest) (delimited_bracket rest)) as (n0 & H0).
    exists (S n0). intros m Hm. destruct m as [|m]; [lia|].
    cbn [str_join scan_elements]. rewrite (H0 m) by lia.
    change (skip_ws (ch "]" :: rest)) with (ch "]" :: rest). cbv iota.
    rewrite N.eqb_refl. reflexivity.
  - set (J := str_join (u ", ") (x' :: parts')) in *.
    assert (OJ : opens (J ++ ch "]" :: rest))
      by (apply opens_app, opens_join, Ox').
    destruct (Rv (ch "," :: ch " " :: J ++ ch "]" :: rest)
                 (delimited_comma _)) as (n0 & H0).
    destruct (IH ltac:(discriminate) (v :: acc) rest) as (n1 & H1).
    exists (S (Nat.max n0 n1)). intros m Hm. destruct m as [|m]; [lia|].
    change (str_join (u ", ") (x :: x' :: parts')) with (x ++ u ", " ++ J).
    rewrite <- !app_assoc.
    change (u ", " ++ J ++ ch "]" :: rest)
      with (ch "," :: ch " " :: J ++ ch "]" :: rest).
    cbn [scan_elements]. rewrite (H0 m) by lia.
    change (skip_ws (ch "," :: ?y)) with (ch "," :: y). cbv iota.
    change (ch "," =? ch "]") with false. rewrite N.eqb_refl. cbv iota.
    rewrite (skip_ws_blank _ OJ), (H1 m) by lia.
    cbn [rev]. now rewrite <- app_assoc.
Qed.

(** The members of a mapping, written one after the other, are read back
    in their order. *)
Lemma scan_members_parts (items : list (str * pyval)) (parts : list str) :
  Forall2 (fun kv p =>
             exists x, p = encode_basestring_ascii (fst kv) ++ u ": " ++ x
                       /\ encodable (fst kv) = true
                       /\ reads_as x (snd kv) /\ opens x) items parts ->
  items <> [] ->
  forall acc rest,
  exists n, forall m, (n <= m)%nat ->
    scan_members m (str_join (u ", ") parts ++ ch "}" :: rest) acc
    = Scanned (PDict (dict_of_items (rev acc ++ items))) rest.
Proof.
  assert (Step : forall k x v tail m acc,
             encodable k = true -> opens x ->
             scan_once m (x ++ tail) = Scanned v tail ->
             scan_members (S m)
               ((encode_basestring_ascii k ++ u ": " ++ x) ++ tail) acc
             = match skip_ws tail with
               | [] => Invalid
               | c2 :: r4 =>
                 if c2 =? ch "}"
                 then Scanned (PDict (dict_of_items (rev ((k, v) :: acc)))) r4
                 else if c2 =? ch ","
                      then scan_members m (skip_ws r4) ((k, v) :: acc)
                      else Invalid
               end).
  { intros k x v tail m acc Ek Ox Sx. unfold encode_basestring_ascii.
    rewrite <- !app_assoc. cbn [app scan_members]. rewrite N.eqb_refl.
    rewrite (scanstring_dumps k _ Ek).
    change (u ": " ++ x ++ tail) with (ch ":" :: ch " " :: x ++ tail).
    change (skip_ws (ch ":" :: ?y)) with (ch ":" :: y). cbv iota.
    rewrite N.eqb_refl. cbv iota.
    rewrite (skip_ws_blank _ (opens_app x tail Ox)), Sx. reflexivity. }
  induction 1 as [|[k v] p items parts (x & -> & Ek & Rv & Ox) F IH];
    [contradiction|].
  intros _ acc rest. cbn [fst snd] in *.
  destruct F as [|[k' v'] p' items' parts' (x' & -> & Ek' & Rv' & Ox') F].
  - destruct (Rv (ch "}" :: rest) (delimited_brace rest)) as (n0 & H0).
    exists (S n0). intros m Hm. destruct m as [|m]; [lia|].
    cbn [str_join]. rewrite (Step k x v _ m acc Ek Ox) by (apply H0; lia).
    change (skip_ws (ch "}" :: rest)) with (ch "}" :: rest). cbv iota.
    rewrite N.eqb_refl. reflexivity.
  - cbn [fst snd] in *.
    set (J := str_join (u ", ")
                ((encode_basestring_ascii k' ++ u ": " ++ x') :: parts')) in *.
    assert (OJ : opens (J ++ ch "}" :: rest)).
    { apply opens_app, opens_join. unfold encode_basestring_ascii.
      apply opens_app. cbn [app].
      apply opens_char; [reflexivity|discriminate|discriminate]. }
    destruct (Rv (ch "," :: ch " " :: J ++ ch "}" :: rest)
                 (delimited_comma _)) as (n0 & H0).
    destruct (IH ltac:(discriminate) ((k, v) :: acc) rest) as (n1 & H1).
    exists (S (Nat.max n0 n1)). intros m Hm. destruct m as [|m]; [lia|].
    change (str_join (u ", ")
              ((encode_basestring_ascii k ++ u ": " ++ x)
                 :: (encode_basestring_ascii k' ++ u ": " ++ x') :: parts'))
      with ((encode_basestring_ascii k ++ u ": " ++ x) ++ u ", " ++ J).
    rewrite <- (app_assoc (encode_basestring_ascii k ++ u ": " ++ x)).
    rewrite <- (app_assoc (u ", ")).
    change (u ", " ++ J ++ ch "}" :: rest)
      with (ch "," :: ch " " :: J ++ ch "}" :: rest).
    rewrite (Step k x v _ m acc Ek Ox) by (apply H0; lia).
    change (skip_ws (ch "," :: ?y)) with (ch "," :: y). cbv iota.
    change (ch "," =? ch "}") with false. rewrite N.eqb_refl. cbv iota.
    rewrite (skip_ws_blank _ OJ), (H1 m) by lia.
    cbn [rev]. now rewrite <- app_assoc.
Qed.

Lemma pyval_nested_ind (P : pyval -> Prop) :
  P PNone -> (forall v, P (PBool v)) -> (forall v, P (PInt v)) ->
  (forall lit, P (PFloat lit)) -> (forall s, P (PStr s)) ->
  (forall bs, P (PBytes bs)) ->
  (forall items, Forall P items -> P (PList items)) ->
  (forall items, Forall (fun kv => P (snd kv)) items -> P (PDict items)) ->
  forall v, P v.
Proof.
  intros HN HB HI HF HS HY HL HD. fix IH 1.
  intros [ |v|v|lit|s|bs|items|items];
    [apply HN | apply HB | apply HI | apply HF | apply HS | apply HY | | ].
  - apply HL. revert items. fix IHl 1.
    intros [|v items]; constructor; [apply IH | apply IHl].
  - apply HD. revert items. fix IHd 1.
    intros [|[k v] items]; constructor; [apply IH | apply IHd].
Qed.

Lemma distinct_nodup (keys : list str) : distinct keys = true -> NoDup keys.
Proof.
  induction keys as [|k keys IH]; [constructor|].
  cbn [distinct]. intros H. apply andb_prop in H. destruct H as [N D].
  constructor; [|auto]. intros I. apply negb_true_iff in N.
  assert (existsb (str_eqb k) keys = true) as C.
  { apply existsb_exists. exists k. split; [exact I | apply str_eqb_refl]. }
  congruence.
Qed.

Section JsonRoundTrip.
Context {lib : PyLib}.

Lemma json_dumps_list (items : list pyval) :
  json_dumps (PList items)
  = (let? parts := traverse json_dumps items in
     Ok (u "[" ++ str_join (u ", ") parts ++ u "]")).
Proof. reflexivity. Qed.

Lemma json_dumps_dict (items : list (str * pyval)) :
  json_dumps (PDict items)
  = (let? parts :=
       traverse (fun kv =>
                   let? x := json_dumps (snd kv) in
                   Ok (encode_basestring_ascii (fst kv) ++ u ": " ++ x))
                items in
     Ok (u "{" ++ str_join (u ", ") parts ++ u "}")).
Proof. reflexivity. Qed.

(** What [json.dumps] writes for a plain value is read back as the
    value. *)
Lemma dumps_reads (v : pyval) :
  json_plain v = true ->
  exists x, json_dumps v = Ok x /\ reads_as x v /\ opens x.
Proof.
  induction v as [ |v|v|lit|s|bs|items IH|items IH] using pyval_nested_ind;
    intros Pl; try discriminate Pl.
  - exists (u "null"). split; [reflexivity|]. split.
    + intros rest _. exists 1%nat. intros [|m] Hm; [lia | reflexivity].
    + apply opens_char; [reflexivity|discriminate|discriminate].
  - destruct v.
    + exists (u "true"). split; [reflexivity|]. split.
      * intros rest _. exists 1%nat. intros [|m] Hm; [lia | reflexivity].
      * apply opens_char; [reflexivity|discriminate|discriminate].
    + exists (u "false"). split; [reflexivity|]. split.
      * intros rest _. exists 1%nat. intros [|m] Hm; [lia | reflexivity].
      * apply opens_char; [reflexivity|discriminate|discriminate].
  - exists (int_str v). split; [reflexivity|]. split; [apply int_reads_as|].
    destruct (int_str_head v) as (c & r & -> & H). now apply digit_opens.
  - exists (encode_basestring_ascii s). split; [reflexivity|]. split.
    + intros rest _. exists 1%nat. intros [|m] Hm; [lia|].
      now apply scan_once_string.
    + apply opens_char; [reflexivity|discriminate|discriminate].
  - cbn [json_plain] in Pl.
    assert (T : exists parts,
               traverse json_dumps items = Ok parts
               /\ Forall2 (fun v x => reads_as x v /\ opens x) items parts).
    { clear -IH Pl. induction IH as [|v items Hv _ IHi].
      - exists []. split; [reflexivity | constructor].
      - cbn [forallb] in Pl. apply andb_prop in Pl. destruct Pl as [Pv Pi].
        destruct (Hv Pv) as (x & Dx & Rx & Ox).
        destruct (IHi Pi) as (parts & Dp & Fp).
        exists (x :: parts). cbn [traverse]. rewrite Dx, Dp.
        split; [reflexivity|]. constructor; auto. }
    destruct T as (parts & Dp & Fp).
    exists (u "[" ++ str_join (u ", ") parts ++ u "]").
    rewrite json_dumps_list, Dp. split; [reflexivity|]. split.
    + intros rest _. destruct Fp as [|v x items parts [Rv Ox] Fp].
      * exists 1%nat. intros [|m] Hm; [lia | reflexivity].
      * destruct (scan_elements_parts (v :: items) (x :: parts)
                    ltac:(constructor; auto) ltac:(discriminate) [] rest)
          as (n & H).
        exists (S n). intros [|m] Hm; [lia|].
        specialize (H m ltac:(lia)).
        assert (OJ : opens (str_join (u ", ") (x :: parts) ++ ch "]" :: rest))
          by (apply opens_app, opens_join, Ox).
        rewrite <- !app_assoc.
        change (u "[" ++ ?y) with (ch "[" :: y).
        change (u "]" ++ rest) with (ch "]" :: rest).
        cbn [scan_once].
        change (ch "[" =? dquote) with false.
        change (ch "[" =? ch "{") with false.
        change (ch "[" =? ch "[") with true. cbv iota.
        rewrite (skip_ws_opens _ OJ).
        destruct OJ as (c1 & r1 & EJ & _ & NB & _).
        rewrite EJ in *. apply N.eqb_neq in NB. rewrite NB. exact H.
    + apply opens_char; [reflexivity|discriminate|discriminate].
  - cbn [json_plain] in Pl. apply andb_prop in Pl. destruct Pl as [Pl Dk].
    apply distinct_nodup in Dk.
    assert (T : exists parts,
               traverse (fun kv =>
                           let? x := json_dumps (snd kv) in
                           Ok (encode_basestring_ascii (fst kv) ++ u ": " ++ x))
                        items = Ok parts
               /\ Forall2 (fun kv p =>
                             exists x,
                               p = encode_basestring_ascii (fst kv) ++ u ": " ++ x
                               /\ encodable (fst kv) = true
                               /\ reads_as x (snd kv) /\ opens x) items parts).
    { clear -IH Pl. induction IH as [|[k v] items Hv _ IHi].
      - exists []. split; [reflexivity | constructor].
      - cbn [forallb fst snd] in *. apply andb_prop in Pl.
        destruct Pl as [Pv Pi]. apply andb_prop in Pv. destruct Pv as [Ek Pv].
        destruct (Hv Pv) as (x & Dx & Rx & Ox).
        destruct (IHi Pi) as (parts & Dp & Fp).
        exists ((encode_basestring_ascii k ++ u ": " ++ x) :: parts).
        cbn [traverse fst snd]. rewrite Dx. cbn [obind]. rewrite Dp.
        split; [reflexivity|]. constructor; [|exact Fp].
        exists x. cbn [fst snd]. auto. }
    destruct T as (parts & Dp & Fp).
    exists (u "{" ++ str_join (u ", ") parts ++ u "}").
    rewrite json_dumps_dict, Dp. split; [reflexivity|]. split.
    + intros rest _. destruct Fp as [|kv p items parts Hp Fp].
      * exists 1%nat. intros [|m] Hm; [lia | reflexivity].
      * destruct (scan_members_parts (kv :: items) (p :: parts)
                    ltac:(constructor; auto) ltac:(discriminate) [] rest)
          as (n & H).
        exists (S n). intros [|m] Hm; [lia|].
        specialize (H m ltac:(lia)).
        cbn [rev app] in H. rewrite (dict_of_items_nodup _ Dk) in H.
        assert (OJ : opens (str_join (u ", ") (p :: parts) ++ ch "}" :: rest)).
        { apply opens_app, opens_join. destruct Hp as (x & -> & _).
          unfold encode_basestring_ascii. apply opens_app. cbn [app].
          apply opens_char; [reflexivity|discriminate|discriminate]. }
        rewrite <- !app_assoc.
        change (u "{" ++ ?y) with (ch "{" :: y).
        change (u "}" ++ rest) with (ch "}" :: rest).
        cbn [scan_once].
        change (ch "{" =? dquote) with false.
        change (ch "{" =? ch "{") with true. cbv iota.
        rewrite (skip_ws_opens _ OJ).
        destruct OJ as (c1 & r1 & EJ & _ & _ & NB).
        rewrite EJ in *. apply N.eqb_neq in NB. rewrite NB. exact H.
    + apply opens_char; [reflexivity|discriminate|discriminate].
Qed.

End JsonRoundTrip.

(** *** The body of [upload_annotations] *)

Lemma json_loads_text (c : codepoint) (x : str) :
  json_loads (c :: x)
  = match scan_once (json_fuel (c :: x)) (skip_ws (c :: x)) with
    | Scanned v rest =>
      match skip_ws rest with
      | [] => Ok v
      | _ :: _ => Raise JSONDecodeError
      end
    | Invalid => Raise JSONDecodeError
    | Exhausted => Raise JSONDecodeError
    end.
Proof.
  unfold json_loads. destruct c as [|p]; [reflexivity|].
  do 16 (destruct p as [p|p|]; try reflexivity).
Qed.

Section Annotations.
Context {lib : PyLib}.

(** [json.loads(json.dumps(v))] is [v] for a plain value. *)
Lemma json_roundtrip (v : pyval) :
  json_plain v = true ->
  exists x, json_dumps v = Ok x /\ json_loads x = Ok v.
Proof.
  intros Pl. destruct (dumps_reads v Pl) as (x & D & R & O).
  exists x. split; [exact D|].
  destruct (R [] I) as (n & H). rewrite app_nil_r in H.
  pose proof (scan_once_fuel x) as L. rewrite (skip_ws_opens x O) in L.
  assert (S : scan_once (json_fuel x) x = Scanned v []).
  { destruct (Nat.le_gt_cases n (json_fuel x)) as [Le|Gt]; [now apply H|].
    rewrite <- (scan_once_more (json_fuel x) n x) by (auto; lia).
    apply H. lia. }
  pose proof O as (c & x' & E & _). subst x.
  rewrite (json_loads_text c x'), (skip_ws_opens _ O), S. reflexivity.
Qed.

Variable net : Network.
Variable self : Markus.


End Annotations.


(** *** What the reading operations return *)

Section JsonReads.
Context {lib : PyLib}.
Variable net : Network.
Variable self : Markus.


End JsonReads.


(** ** Addresses identify what they address *)

Lemma int_str_chars (z : Z) : Forall decimal_char (int_str z).
Proof.
  assert (U : forall d, Forall decimal_char (u (NilZero.string_of_uint d))).
  { intros d.
    assert (E : forallb is_digit (u (NilZero.string_of_uint d)) = true).
    { unfold NilZero.string_of_uint.
      destruct d; try reflexivity; apply uint_digits. }
    apply Forall_forall. intros c I. left.
    exact (proj1 (forallb_forall _ _) E c I). }
  unfold int_str, NilZero.string_of_int.
  destruct (Z.to_int z) as [d|d]; [apply U|].
  change (u (String "-" ?s)) with (ch "-" :: u s).
  constructor; [now right | apply U].
Qed.

Lemma int_str_inj (z z' : Z) : int_str z = int_str z' -> z = z'.
Proof.
  intros E. pose proof (scan_number_int z [] I) as S.
  rewrite E, (scan_number_int z' [] I) in S. congruence.
Qed.

(** Two decimal texts, each followed by nothing or by a slash, are told
    apart. *)
Lemma decimal_split (a a' r r' : str) :
  Forall decimal_char a -> Forall decimal_char a' ->
  (r = [] \/ exists x, r = ch "/" :: x) ->
  (r' = [] \/ exists x, r' = ch "/" :: x) ->
  a ++ r = a' ++ r' -> a = a' /\ r = r'.
Proof.
  assert (N : forall c x y, decimal_char c ->
                            (y = [] \/ exists z, y = ch "/" :: z) ->
                            y <> c :: x).
  { intros c x y D [-> | (z & ->)]; [discriminate|].
    intros [= <- _]. destruct D as [D|D]; discriminate D. }
  intros F. revert a'. induction F as [|c a Dc F IH]; intros a' F' R R' E.
  - destruct F' as [|c' a' Dc' F']; [auto|].
    cbn [app] in E. now apply N in E.
  - destruct F' as [|c' a' Dc' F'].
    + cbn [app] in E. symmetry in E. now apply N in E.
    + cbn [app] in E. injection E as <- E.
      destruct (IH a' F' R R' E) as [-> ->]. auto.
Qed.

Section Paths.
Context {lib : PyLib}.

Lemma get_path_nonempty (kwargs : dict pyval) :
  kwargs <> [] -> get_path kwargs = API_PATH ++ path_segments kwargs.
Proof.
  intros N. rewrite get_path_segments, <- flat_map_segments.
  rewrite <- slash_join; [reflexivity|].
  destruct kwargs as [|[name id] rest]; [contradiction|].
  rewrite segments_cons. discriminate.
Qed.

Lemma path_segments_opens (kwargs : dict pyval) :
  path_segments kwargs = [] \/ exists x, path_segments kwargs = ch "/" :: x.
Proof.
  destruct kwargs as [|[name id] rest]; [now left|]. right.
  cbn [path_segments]. eexists. reflexivity.
Qed.

Lemma path_segments_numbered (names : list str) (tail : dict pyval) :
  forall ids ids',
    List.length ids = List.length names ->
    List.length ids' = List.length names ->
    path_segments (numbered names ids ++ tail)
    = path_segments (numbered names ids' ++ tail) ->
    ids = ids'.
Proof.
  induction names as [|n names IH]; intros ids ids' L L' E.
  - destruct ids, ids'; try discriminate. reflexivity.
  - destruct ids as [|i ids]; [discriminate|].
    destruct ids' as [|i' ids']; [discriminate|].
    injection L as L. injection L' as L'.
    unfold numbered in E. cbn [List.map List.combine app path_segments] in E.
    fold (numbered names ids) in E. fold (numbered names ids') in E.
    cbn [is_none py_str py_repr] in E.
    apply app_inv_head in E. apply app_inv_head in E.
    rewrite <- !app_assoc in E. apply app_inv_head in E.
    apply decimal_split in E;
      [|apply int_str_chars | apply int_str_chars
       |apply path_segments_opens | apply path_segments_opens].
    destruct E as [Ei Er]. apply int_str_inj in Ei. subst i'.
    f_equal. now apply IH.
Qed.

(** X23.  An address names one resource: for the same collection names and
    the same trailing keyword arguments, the paths built for two sequences
    of integer identifiers are equal only when the identifiers are. *)
Theorem path_identifies (names : list str) (ids ids' : list Z)
        (tail : dict pyval) :
  List.length ids = List.length names ->
  List.length ids' = List.length names ->
  get_path (numbered names ids ++ tail) = get_path (numbered names ids' ++ tail) ->
  ids = ids'.
Proof.
  intros L L' E. destruct names as [|n names].
  - destruct ids, ids'; try discriminate. reflexivity.
  - destruct ids as [|i ids]; [discriminate|].
    destruct ids' as [|i' ids']; [discriminate|].
    rewrite !get_path_nonempty in E by discriminate.
    apply app_inv_head in E.
    now apply (path_segments_numbered (n :: names) tail).
Qed.

End Paths.

Lemma path_identifies_witness :
  [5; 12]%Z = [5; 12]%Z.
Proof.
  apply (path_identifies (lib := Sample.lib)
           [u "assignments"; u "groups"] [5; 12]%Z [5; 12]%Z
           [(u "feedback_files", PNone)]); reflexivity.
Defined.

(** ** JSON bodies are printable ASCII *)

Lemma hex_digit_lower_printable (d : N) :
  d < 16 -> printable (hex_digit_lower d) = true.
Proof.
  intros H. destruct d as [|p]; [reflexivity|].
  do 4 (destruct p as [p|p|]; try reflexivity; try lia).
Qed.

Lemma escape_u_printable (n : N) :
  n < 65536 -> forallb printable (escape_u n) = true.
Proof.
  intros H. unfold escape_u. cbn [forallb].
  assert (A : n / 4096 < 16) by divlia.
  assert (B : (n / 256) mod 16 < 16) by divlia.
  assert (C : (n / 16) mod 16 < 16) by divlia.
  assert (D : n mod 16 < 16) by divlia.
  rewrite !hex_digit_lower_printable by assumption. reflexivity.
Qed.

Lemma escape_char_printable (c : codepoint) :
  c < 0x110000 -> forallb printable (escape_char c) = true.
Proof.
  intros H. unfold escape_char.
  repeat match goal with
  | |- context [if ?x =? ?y then _ else _] =>
    destruct (x =? y); [reflexivity|]
  end.
  destruct ((0x20 <=? c) && (c <=? 0x7E)) eqn:P.
  - cbn [forallb]. unfold printable. now rewrite P.
  - destruct (N.ltb_spec c 0x10000) as [L|L].
    + now apply escape_u_printable.
    + rewrite forallb_app, !escape_u_printable; [reflexivity| |]; divlia.
Qed.

Lemma encode_basestring_printable (s : str) :
  encodable s = true -> forallb printable (encode_basestring_ascii s) = true.
Proof.
  intros E.
  assert (F : forallb printable (flat_map escape_char s) = true).
  { unfold encodable in E. induction s as [|c s IH]; [reflexivity|].
    cbn [forallb] in E. apply andb_prop in E. destruct E as [Ec Es].
    apply scalar_spec in Ec. destruct Ec as [Ec _]. cbn [flat_map].
    now rewrite forallb_app, (escape_char_printable c Ec), IH. }
  unfold encode_basestring_ascii. rewrite !forallb_app, F. reflexivity.
Qed.

Lemma int_str_printable (z : Z) : forallb printable (int_str z) = true.
Proof.
  apply forallb_forall. intros c I.
  pose proof (int_str_chars z) as F.
  apply (proj1 (Forall_forall _ _) F) in I. unfold printable.
  destruct I as [D | ->]; [|reflexivity].
  unfold is_digit in D. apply andb_prop in D. destruct D as [A B].
  apply N.leb_le in A. apply N.leb_le in B.
  apply andb_true_intro. split; apply N.leb_le; lia.
Qed.

Lemma str_join_printable (parts : list str) :
  Forall (fun p => forallb printable p = true) parts ->
  forallb printable (str_join (u ", ") parts) = true.
Proof.
  induction 1 as [|p parts Hp F IH]; [reflexivity|].
  destruct parts as [|p' parts]; [exact Hp|].
  change (str_join (u ", ") (p :: p' :: parts))
    with (p ++ u ", " ++ str_join (u ", ") (p' :: parts)).
  now rewrite !forallb_app, Hp, IH.
Qed.

Lemma bracket_printable (o c : codepoint) (body : str) :
  printable o = true -> printable c = true ->
  forallb printable body = true ->
  forallb printable ([o] ++ body ++ [c]) = true.
Proof.
  intros Ho Hc Hb. rewrite !forallb_app, Hb. cbn [forallb].
  now rewrite Ho, Hc.
Qed.

Lemma member_printable (k x : str) :
  encodable k = true -> forallb printable x = true ->
  forallb printable (encode_basestring_ascii k ++ u ": " ++ x) = true.
Proof.
  intros Ek Hx. now rewrite !forallb_app, (encode_basestring_printable k Ek), Hx.
Qed.

Section JsonChars.
Context {lib : PyLib}.

Lemma dumps_printable (v : pyval) :
  json_plain v = true ->
  forall x, json_dumps v = Ok x -> forallb printable x = true.
Proof.
  induction v as [ |v|v|lit|s|bs|items IH|items IH] using pyval_nested_ind;
    intros Pl x D; try discriminate Pl.
  - injection D as <-. reflexivity.
  - destruct v; injection D as <-; reflexivity.
  - injection D as <-. apply int_str_printable.
  - injection D as <-. now apply encode_basestring_printable.
  - rewrite json_dumps_list in D. cbn [json_plain] in Pl.
    destruct (traverse json_dumps items) as [parts|] eqn:T; [|discriminate].
    injection D as <-.
    apply (bracket_printable (ch "[") (ch "]")); [reflexivity..|].
    apply str_join_printable.
    clear -IH Pl T. revert parts T.
    induction IH as [|v items Hv _ IHi]; intros parts T.
    + injection T as <-. constructor.
    + cbn [forallb] in Pl. apply andb_prop in Pl. destruct Pl as [Pv Pi].
      cbn [traverse] in T.
      destruct (json_dumps v) as [x|]; [|discriminate].
      destruct (traverse json_dumps items) as [ps|]; [|discriminate].
      injection T as <-. constructor; auto.
  - rewrite json_dumps_dict in D. cbn [json_plain] in Pl.
    apply andb_prop in Pl. destruct Pl as [Pl _].
    destruct (traverse _ items) as [parts|] eqn:T; [|discriminate].
    injection D as <-.
    apply (bracket_printable (ch "{") (ch "}")); [reflexivity..|].
    apply str_join_printable.
    clear -IH Pl T. revert parts T.
    induction IH as [|[k v] items Hv _ IHi]; intros parts T.
    + injection T as <-. constructor.
    + cbn [forallb fst snd] in *. apply andb_prop in Pl.
      destruct Pl as [Pv Pi]. apply andb_prop in Pv. destruct Pv as [Ek Pv].
      cbn [traverse fst snd] in T.
      destruct (json_dumps v) as [x|]; [|discriminate]. cbn [obind] in T.
      destruct (traverse _ items) as [ps|]; [|discriminate].
      injection T as <-. constructor; [|auto].
      apply (member_printable k x Ek), (Hv Pv x eq_refl).
Qed.

Variable net : Network.
Variable self : Markus.

(** X24.  A JSON body is printable ASCII: for parameters made of [None],
    booleans, integers, text without lone surrogates, lists and mappings,
    every request [submit_request] sends with the content type
    [application/json], and so every request of [upload_annotations],
    carries no body or a text of characters from the space to the tilde,
    whatever characters the parameters hold. *)
Theorem json_body_chars :
  (forall params path request_type,
      json_plain params = true ->
      sends plain_body
            (submit_request net self params path request_type JSON))
  /\ (forall assignment_id group_id annotations force_complete,
         json_plain annotations = true ->
         sends plain_body
               (upload_annotations net self assignment_id group_id annotations
                                   force_complete)).
Proof.
  assert (S : forall params path request_type,
             json_plain params = true ->
             sends plain_body
                   (submit_request net self params path request_type JSON)).
  { intros params path request_type Pl.
    apply submit_request_sends_encoded. intros body E.
    unfold plain_body. cbn [payload request]. unfold encoded in E.
    destruct (is_none params) eqn:N; cbn [negb] in E.
    - injection E as <-. left. now destruct params.
    - change (str_eqb JSON FORM) with false in E.
      change (str_eqb JSON MULTIPART) with false in E.
      change (str_eqb JSON JSON) with true in E. cbv iota in E.
      destruct (json_dumps params) as [x|] eqn:D; cbn [omap obind] in E;
        [|discriminate].
      cbn [is_str negb] in E. injection E as <-. right. exists x.
      split; [reflexivity|]. now apply (dumps_printable params). }
  split; [exact S|].
  intros a g annotations fc Pl. unfold upload_annotations. apply S.
  cbn [json_plain forallb fst snd]. rewrite Pl. reflexivity.
Qed.

End JsonChars.
